(** * Reconciliation loops of the PostgreSQL operator

    A shallow embedding of two pieces of the operator:

    - [runner]: the replication-slot synchroniser
      (internal/management/controller/slots/runner/runner.go), a
      goroutine that waits on configuration, a ticker and cancellation
      and runs one create/update/delete pass per activation;
    - [certs]: the webhook PKI coordinator (package certs), which
      ensures a CA secret and a server secret, dumps the latter to a
      directory and injects it into the admission webhook
      configurations.

    Go functions that return [(T, error)] become computations in a small
    state-and-error monad over the state of the outside world; external
    collaborators (slot managers, the Kubernetes client, the file system,
    the X.509 helpers) are records of operations over that state. *)

From stdpp Require Import gmap strings list numbers pretty.

(** ** Errors *)

(** Go's [error] values.  Only the distinction that the code tests
    ([apierrors.IsNotFound]) and the rendered message are kept. *)
Inductive error :=
| NotFoundError (what : string)
| ConflictError (what : string)
| OtherError (msg : string).

Global Instance error_eq_dec : EqDecision error.
Proof. solve_decision. Defined.

Definition IsNotFound (e : error) : bool :=
  match e with
  | NotFoundError _ => true
  | _ => false
  end.

(** [err.Error()] *)
Definition Error (e : error) : string :=
  match e with
  | NotFoundError what => what +:+ " not found"
  | ConflictError what => what +:+ " has been modified"
  | OtherError msg => msg
  end.

(** [fmt.Errorf(prefix + "%v", err)]: a new plain error that carries the
    message only. *)
Definition Errorf (prefix : string) (e : error) : error :=
  OtherError (prefix +:+ Error e).

(** ** Computations with state and errors *)

Inductive result (A : Type) :=
| Ok (a : A)
| Fail (e : error).
Arguments Ok {A} a.
Arguments Fail {A} e.

Definition M (S A : Type) : Type := S → result A * S.

Definition ret {S A} (a : A) : M S A := λ s, (Ok a, s).

Definition fail {S A} (e : error) : M S A := λ s, (Fail e, s).

Definition bind {S A B} (m : M S A) (k : A → M S B) : M S B :=
  λ s, match m s with
       | (Ok a, s') => k a s'
       | (Fail e, s') => (Fail e, s')
       end.

Definition lift {S A} (r : result A) : M S A := λ s, (r, s).

Declare Scope go_scope.
Delimit Scope go_scope with go.
Notation "'let*' x ':=' c 'in' k" := (bind c (λ x, k))
  (at level 10, x pattern, c at level 100, k at level 200) : go_scope.
Notation "c '>>' k" := (bind c (λ _, k))
  (at level 90, right associativity) : go_scope.
Open Scope go_scope.

(** [for _, x := range l { if err := f(x); err != nil { return err } }] *)
Fixpoint forM_ {S A} (l : list A) (f : A → M S unit) : M S unit :=
  match l with
  | [] => ret tt
  | x :: l' => f x >> forM_ l' f
  end.

(** [if c { if err := m; err != nil { return err } }] *)
Definition when {S} (c : bool) (m : M S unit) : M S unit :=
  if c then m else ret tt.

(** Loggers ([logr.Logger]): a sink of lines. *)
Inductive LogLine :=
| LogInfo (msg : string)
| LogTrace (msg : string)
| LogWarning (msg : string)
| LogError (e : error) (msg : string).

Global Instance LogLine_eq_dec : EqDecision LogLine.
Proof. solve_decision. Defined.

(** ** The replication-slot synchroniser *)

Module runner.

(** *** Data model *)

(** Modelled from the spec: the slot record of package [slots], which is
    not part of the sources at hand.  The synchroniser itself only reads
    [SlotName]. *)
Record ReplicationSlot := {
  SlotName : string;
  State : string;
  Active : bool;
  Owner : string;
}.

Global Instance ReplicationSlot_eq_dec : EqDecision ReplicationSlot.
Proof. solve_decision. Defined.

Record ReplicationSlotList := { Items : list ReplicationSlot }.

(** Modelled from the spec: [ReplicationSlotList.Has], the membership
    test by name of package [slots]. *)
Definition Has (sl : ReplicationSlotList) (name : string) : bool :=
  existsb (λ slot, bool_decide (SlotName slot = name)) (Items sl).

Record ReplicationSlotsHAConfiguration := { Enabled : bool }.

Record ReplicationSlotsConfiguration := {
  HighAvailability : option ReplicationSlotsHAConfiguration;
  UpdateInterval : Z;
}.

(** Configurations travel as pointers and may be [nil]. *)
Abbreviation Config := (option ReplicationSlotsConfiguration).

(** [slots.Manager]: the four operations the synchroniser may invoke,
    over the state [S] of the database back ends. *)
Record Manager (S : Type) := {
  List : string → Config → M S ReplicationSlotList;
  Create : ReplicationSlot → M S unit;
  Update : ReplicationSlot → M S unit;
  Delete : ReplicationSlot → M S unit;
}.
Arguments List {S} _ _ _ _.
Arguments Create {S} _ _ _.
Arguments Update {S} _ _ _.
Arguments Delete {S} _ _ _.

(** *** One reconciliation pass *)

Section Pass.
Context {S : Type}.
Variable log : LogLine → S → S.

Definition synchronizeReplicationSlots
    (primarySlotManager localSlotManager : Manager S)
    (podName : string) (config : Config) : M S unit :=
  λ s,
    match List primarySlotManager podName config s with
    | (Fail err, s) =>
        (Fail (Errorf "getting replication slot status from primary: " err), s)
    | (Ok slotsInPrimary, s) =>
        let s := log (LogTrace "primary slot status") s in
        match List localSlotManager podName config s with
        | (Fail err, s) =>
            (Fail (Errorf "getting replication slot status from local: " err), s)
        | (Ok slotsInLocal, s) =>
            let s := log (LogTrace "local slot status") s in
            (forM_ (Items slotsInPrimary) (λ slot,
               when (negb (Has slotsInLocal (SlotName slot)))
                    (Create localSlotManager slot) >>
               Update localSlotManager slot) >>
             forM_ (Items slotsInLocal) (λ slot,
               when (negb (Has slotsInPrimary (SlotName slot)))
                    (Delete localSlotManager slot))) s
        end
    end.
End Pass.

(** *** The event loop of [Start] *)

(** [time.Ticker]: its period and whether it is delivering ticks. *)
Record Ticker := { period : Z; running : bool }.

(** [time.NewTicker] and [Ticker.Reset] panic on a non-positive
    duration; [None] stands for the panic. *)
Definition NewTicker (d : Z) : option Ticker :=
  if bool_decide (d ≤ 0)%Z then None
  else Some {| period := d; running := true |}.

Definition Stop (t : Ticker) : Ticker :=
  {| period := period t; running := false |}.

Definition Reset (t : Ticker) (d : Z) : option Ticker :=
  if bool_decide (d ≤ 0)%Z then None
  else Some {| period := d; running := true |}.

(** What the goroutine can receive from: [ctx.Done()], the channel of
    configurations, [ticker.C]. *)
Inductive Event :=
| CtxDone
| ConfigPushed (config : Config)
| TickElapsed.

(** Where the goroutine of [Start] is blocked.
    - [WaitingForConfig]: at the first receive (line 48);
    - [Selecting]: at the [select] of the loop, with the values of the
      local variables [config], [updateInterval] and [ticker];
    - [Terminated]: the goroutine has returned (its deferred functions
      have run);
    - [Crashed]: a panic was raised before [recover] was deferred. *)
Inductive Phase :=
| WaitingForConfig
| Selecting (config : Config) (updateInterval : Z) (ticker : Ticker)
| Terminated (ticker : Ticker)
| Crashed.

Section Start.
Context {S : Type}.
Variable log : LogLine → S → S.
(** [slots.NewPostgresManager] over the primary and the local pool *)
Variables primarySlotManager localSlotManager : Manager S.
Variable PodName : string.
(** The method [GetUpdateInterval] of [ReplicationSlotsConfiguration],
    of package [apiv1]; callable on [nil]. *)
Variable GetUpdateInterval : Config → Z.

(** [config == nil || config.HighAvailability == nil ||
     !config.HighAvailability.Enabled] *)
Definition disabled (config : Config) : bool :=
  match config with
  | None => true
  | Some c =>
      match HighAvailability c with
      | None => true
      | Some ha => negb (Enabled ha)
      end
  end.

(** The deferred functions, in the order they run: [recover] (which
    logs when [panicked]), then [ticker.Stop()] and the final
    message. *)
Definition deferred (panicked : bool) (ticker : Ticker) (s : S) : Phase * S :=
  let s := if panicked then log (LogWarning "Recovered from a panic") s else s in
  (Terminated (Stop ticker), log (LogInfo "Terminated slot Replicator loop") s).

(** The loop body below the [select] (lines 70 to 110). *)
Definition iteration (config : Config) (updateInterval : Z) (ticker : Ticker)
    (s : S) : Phase * S :=
  if disabled config then
    (Selecting config updateInterval (Stop ticker), s)
  else
    let newUpdateInterval := GetUpdateInterval config in
    let reset :=
      if bool_decide (updateInterval ≠ newUpdateInterval)
      then Reset ticker newUpdateInterval
      else Some ticker in
    match reset with
    | None => deferred true ticker s
    | Some ticker =>
        let updateInterval := newUpdateInterval in
        let s := log (LogTrace "Synchronizing") s in
        match synchronizeReplicationSlots log
                primarySlotManager localSlotManager PodName config s with
        | (Fail err, s) =>
            (Selecting config updateInterval ticker,
             log (LogError err "synchronizing replication slots") s)
        | (Ok _, s) => (Selecting config updateInterval ticker, s)
        end
    end.

(** One receive of the goroutine and what follows it up to the next
    receive.  [None]: the goroutine is not receiving from that source
    in that phase (or the ticker is stopped), so the event is not
    consumed.  A tick that was already waiting in the buffer of
    [ticker.C] when [Stop] was called is not modelled.  The caller of
    [Start], which only waits for [ctx.Done()], is not modelled
    either. *)
Definition step (ph : Phase) (ev : Event) (s : S) : option (Phase * S) :=
  match ph, ev with
  | WaitingForConfig, ConfigPushed config =>
      match NewTicker (GetUpdateInterval config) with
      | None => Some (Crashed, s)
      | Some ticker => Some (Selecting config (GetUpdateInterval config) ticker, s)
      end
  | Selecting config updateInterval ticker, CtxDone =>
      Some (deferred false ticker s)
  | Selecting _ updateInterval ticker, ConfigPushed config =>
      Some (iteration config updateInterval ticker s)
  | Selecting config updateInterval ticker, TickElapsed =>
      if running ticker then Some (iteration config updateInterval ticker s)
      else None
  | _, _ => None
  end.

(** A sequence of receives, from a phase. *)
Fixpoint run (ph : Phase) (evs : list Event) (s : S) : option (Phase * S) :=
  match evs with
  | [] => Some (ph, s)
  | ev :: evs' =>
      match step ph ev s with
      | Some (ph', s') => run ph' evs' s'
      | None => None
      end
  end.
End Start.

(** *** Observing a pass

    The calls a pass makes are recorded by wrapping the two managers,
    the way a test double would: every call is appended to [calls] with
    its outcome, and the back ends behind it act on [world]. *)

Inductive Backend := Primary | Local.

Inductive Op :=
| OpList (podName : string) (config : Config)
| OpCreate (slot : ReplicationSlot)
| OpUpdate (slot : ReplicationSlot)
| OpDelete (slot : ReplicationSlot).

Record Call := { backend : Backend; op : Op; outcome : option error }.

Global Instance Backend_eq_dec : EqDecision Backend.
Proof. solve_decision. Defined.
Global Instance HA_eq_dec : EqDecision ReplicationSlotsHAConfiguration.
Proof. solve_decision. Defined.
Global Instance Cfg_eq_dec : EqDecision ReplicationSlotsConfiguration.
Proof. solve_decision. Defined.
Global Instance Op_eq_dec : EqDecision Op.
Proof. solve_decision. Defined.
Global Instance Call_eq_dec : EqDecision Call.
Proof. solve_decision. Defined.

Record Observed (W : Type) := {
  world : W;
  calls : list Call;
  lines : list LogLine;
}.
Arguments world {W} _.
Arguments calls {W} _.
Arguments lines {W} _.

Definition observing {W} (w : W) : Observed W :=
  {| world := w; calls := []; lines := [] |}.

Definition err_of {A} (r : result A) : option error :=
  match r with
  | Ok _ => None
  | Fail e => Some e
  end.

Definition record {W A} (b : Backend) (o : Op) (m : M W A) : M (Observed W) A :=
  λ s, let '(r, w) := m (world s) in
       (r, {| world := w;
              calls := calls s ++ [{| backend := b; op := o; outcome := err_of r |}];
              lines := lines s |}).

Definition observe {W} (b : Backend) (m : Manager W) : Manager (Observed W) :=
  {| List podName config := record b (OpList podName config) (List m podName config);
     Create slot := record b (OpCreate slot) (Create m slot);
     Update slot := record b (OpUpdate slot) (Update m slot);
     Delete slot := record b (OpDelete slot) (Delete m slot) |}.

Definition observe_log {W} (l : LogLine) (s : Observed W) : Observed W :=
  {| world := world s; calls := calls s; lines := lines s ++ [l] |}.

(** Performing an operation on a manager, for its effect. *)
Definition perform {S} (m : Manager S) (o : Op) : M S unit :=
  match o with
  | OpList podName config => List m podName config >> ret tt
  | OpCreate slot => Create m slot
  | OpUpdate slot => Update m slot
  | OpDelete slot => Delete m slot
  end.

(** The state of the back ends after the recorded calls have been made
    one after the other, whatever they returned. *)
Definition replay {W} (primary local : Manager W) (cs : list Call) (w : W) : W :=
  foldl (λ w c, snd (perform (match backend c with
                              | Primary => primary
                              | Local => local
                              end) (op c) w)) w cs.

(** What a pass has to do on the local manager, given the two lists:
    per primary slot a [Create] when its name is missing locally and an
    [Update]; then per local slot a [Delete] when its name is missing on
    the primary. *)
Definition upsert (slotsInLocal : ReplicationSlotList) (slot : ReplicationSlot) : list Op :=
  (if Has slotsInLocal (SlotName slot) then [] else [OpCreate slot]) ++ [OpUpdate slot].

Definition prune (slotsInPrimary : ReplicationSlotList) (slot : ReplicationSlot) : list Op :=
  if Has slotsInPrimary (SlotName slot) then [] else [OpDelete slot].

Definition plan (slotsInPrimary slotsInLocal : ReplicationSlotList) : list Op :=
  flat_map (upsert slotsInLocal) (Items slotsInPrimary) ++
  flat_map (prune slotsInPrimary) (Items slotsInLocal).

(** How often a pass asked the local manager for [o]. *)
Definition asked (o : Op) (cs : list Call) : nat :=
  length (filter (λ c, backend c = Local ∧ op c = o) cs).

(** How often [slot] occurs in a list. *)
Definition occurrences (slot : ReplicationSlot) (l : list ReplicationSlot) : nat :=
  length (filter (λ x, x = slot) l).

Definition hits (o : Op) (ops : list Op) : nat :=
  length (filter (λ x, x = o) ops).

Definition succeeded (c : Call) : Prop := outcome c = None.

Definition ok_call (b : Backend) (o : Op) : Call :=
  {| backend := b; op := o; outcome := None |}.

Definition failed_call (b : Backend) (o : Op) (e : error) : Call :=
  {| backend := b; op := o; outcome := Some e |}.

(** The error a pass returns when call [c] failed with [e]: errors of
    the two [List] calls are wrapped, the others are returned as they
    are. *)
Definition reported (c : Call) (e : error) : error :=
  match op c, backend c with
  | OpList _ _, Primary => Errorf "getting replication slot status from primary: " e
  | OpList _ _, Local => Errorf "getting replication slot status from local: " e
  | _, _ => e
  end.

(** *** Back ends in memory

    Modelled from the spec: the Slot Manager capability over a database
    instance, whose implementation ([slots.NewPostgresManager]) is not
    part of the sources at hand.  An instance holds slots with unique
    names; [Create] fails on a duplicate name, [Update] writes the slot
    of that name, [Delete] drops it. *)

Record Databases := {
  primarySlots : list ReplicationSlot;
  localSlots : list ReplicationSlot;
}.

Definition slotsOf (b : Backend) (db : Databases) : list ReplicationSlot :=
  match b with
  | Primary => primarySlots db
  | Local => localSlots db
  end.

Definition withSlots (b : Backend) (l : list ReplicationSlot) (db : Databases) : Databases :=
  match b with
  | Primary => {| primarySlots := l; localSlots := localSlots db |}
  | Local => {| primarySlots := primarySlots db; localSlots := l |}
  end.

Definition named (name : string) (slot : ReplicationSlot) : bool :=
  bool_decide (SlotName slot = name).

Definition memManager (b : Backend) : Manager Databases :=
  {| List _ _ := λ db, (Ok {| Items := slotsOf b db |}, db);
     Create slot := λ db,
       if existsb (named (SlotName slot)) (slotsOf b db)
       then (Fail (OtherError "replication slot already exists"), db)
       else (Ok tt, withSlots b (slotsOf b db ++ [slot]) db);
     Update slot := λ db,
       if existsb (named (SlotName slot)) (slotsOf b db)
       then (Ok tt, withSlots b
               (map (λ x, if named (SlotName slot) x then slot else x) (slotsOf b db)) db)
       else (Fail (OtherError "replication slot does not exist"), db);
     Delete slot := λ db,
       if existsb (named (SlotName slot)) (slotsOf b db)
       then (Ok tt, withSlots b
               (filter (λ x, SlotName x ≠ SlotName slot) (slotsOf b db)) db)
       else (Fail (OtherError "replication slot does not exist"), db) |}.

(** What [memManager] does to the slots of its instance: [None] when the
    operation fails. *)
Definition applyMem (cur : list ReplicationSlot) (o : Op) : option (list ReplicationSlot) :=
  match o with
  | OpList _ _ => Some cur
  | OpCreate slot =>
      if existsb (named (SlotName slot)) cur then None else Some (cur ++ [slot])
  | OpUpdate slot =>
      if existsb (named (SlotName slot)) cur
      then Some (map (λ x, if named (SlotName slot) x then slot else x) cur)
      else None
  | OpDelete slot =>
      if existsb (named (SlotName slot)) cur
      then Some (filter (λ x, SlotName x ≠ SlotName slot) cur)
      else None
  end.

Fixpoint applyAll (cur : list ReplicationSlot) (ops : list Op) : option (list ReplicationSlot) :=
  match ops with
  | [] => Some cur
  | o :: ops' =>
      match applyMem cur o with
      | Some cur' => applyAll cur' ops'
      | None => None
      end
  end.

(** A manager whose calls selected by [bad] fail with [e] and leave the
    back end as it was. *)
Definition failingOn {S} (bad : Op → bool) (e : error) (m : Manager S) : Manager S :=
  {| List podName config :=
       if bad (OpList podName config) then fail e else List m podName config;
     Create slot := if bad (OpCreate slot) then fail e else Create m slot;
     Update slot := if bad (OpUpdate slot) then fail e else Update m slot;
     Delete slot := if bad (OpDelete slot) then fail e else Delete m slot |}.

(** Modelled from the spec: the interval a configuration implies
    ([updateInterval], in seconds), for the runs evaluated below; the
    method itself belongs to package [apiv1]. *)
Definition intervalOf (config : Config) : Z :=
  match config with
  | Some c => UpdateInterval c
  | None => 30
  end.

Definition haConfig (enabled : bool) (interval : Z) : Config :=
  Some {| HighAvailability := Some {| Enabled := enabled |};
          UpdateInterval := interval |}.

Definition slotNamed (name : string) : ReplicationSlot :=
  {| SlotName := name; State := "reserved"; Active := false; Owner := "" |}.

Definition slotA := slotNamed "A".
Definition slotB := slotNamed "B".
Definition slotC := slotNamed "C".

(** The primary's view of B differs from the replica's stale copy. *)
Definition staleB : ReplicationSlot :=
  {| SlotName := "B"; State := "lost"; Active := false; Owner := "" |}.

Definition isUpdate (o : Op) : bool :=
  match o with
  | OpUpdate _ => true
  | _ => false
  end.

Definition connectionLost : error := OtherError "connection lost".

Definition exampleDatabases : Databases :=
  {| primarySlots := [slotA; slotB]; localSlots := [staleB; slotC] |}.

(** A pass over the example in which the local manager loses its
    connection at the first [Update]. *)
Definition failingPass : result unit * Observed Databases :=
  synchronizeReplicationSlots observe_log
    (observe Primary (memManager Primary))
    (observe Local (failingOn isUpdate connectionLost (memManager Local)))
    "pod-1" (haConfig true 30) (observing exampleDatabases).

(** *** Vocabulary for further properties of the pass and of the loop *)

(** The loop is not reconciling: it waits for its first configuration,
    holds a configuration that disables replication, or has ended. *)
Definition idle (ph : Phase) : Prop :=
  match ph with
  | Selecting config _ _ => disabled config = true
  | _ => True
  end.

(** An event that cannot enable replication. *)
Definition keepsDisabled (ev : Event) : Prop :=
  match ev with
  | ConfigPushed config => disabled config = true
  | _ => True
  end.

(** What holds of the local variables of the goroutine at every
    receive: the ticker ticks at [updateInterval], which is positive,
    and while it is running that is the interval of the configuration
    in force; after the goroutine has returned the ticker is stopped. *)
Definition tracks (GetUpdateInterval : Config → Z) (ph : Phase) : Prop :=
  match ph with
  | Selecting config updateInterval ticker =>
      period ticker = updateInterval ∧
      (0 < updateInterval)%Z ∧
      (running ticker = true → updateInterval = GetUpdateInterval config)
  | Terminated ticker => running ticker = false
  | _ => True
  end.

(** The two lists name the same slots. *)
Definition sameNames (sp sl : ReplicationSlotList) : Prop :=
  (∀ x, x ∈ Items sp → Has sl (SlotName x) = true) ∧
  (∀ x, x ∈ Items sl → Has sp (SlotName x) = true).

(** The observations of [s0] followed by those of [s1], over the back
    ends as [s1] has them. *)
Definition following {W} (s0 s1 : Observed W) : Observed W :=
  {| world := world s1; calls := calls s0 ++ calls s1; lines := lines s0 ++ lines s1 |}.

(** Back ends whose replica already names the slots of the primary. *)
Definition syncedDatabases : Databases :=
  {| primarySlots := [slotA; slotB]; localSlots := [staleB; slotA] |}.

End runner.
(** ** The webhook PKI coordinator *)

Module certs.

(** *** Data model *)

(** Byte slices; Go's conversions between [string] and [[]byte] keep
    the bytes, and a [nil] slice is the empty one. *)
Abbreviation bytes := string.

(** [v1.Secret], as far as the package reads and writes it. *)
Record Secret := {
  Namespace : string;
  Name : string;
  ResourceVersion : string;
  Data : gmap string bytes;
}.

(** [KeyPair]: the private key and the certificate, both encoded. *)
Record KeyPair := { Private : bytes; Certificate : bytes }.

(** [admissionregistration/v1beta1]: a webhook entry and the
    configuration object that lists them; the mutating and the
    validating kind have the same shape. *)
Record WebhookClientConfig := {
  URL : option string;
  Service : option string;
  CABundle : bytes;
}.

Record Webhook := {
  WebhookName : string;
  ClientConfig : WebhookClientConfig;
  Rules : list string;
  FailurePolicy : option string;
}.

Record WebhookConfiguration := {
  ConfigName : string;
  ConfigResourceVersion : string;
  Webhooks : list Webhook;
}.

Record WebhookEnvironment := {
  CertDir : string;
  CaSecretName : string;
  SecretName : string;
  ServiceName : string;
  OperatorNamespace : string;
  MutatingWebhookConfigurationName : string;
  ValidatingWebhookConfigurationName : string;
}.

Global Instance Secret_eq_dec : EqDecision Secret.
Proof. solve_decision. Defined.
Global Instance KeyPair_eq_dec : EqDecision KeyPair.
Proof. solve_decision. Defined.
Global Instance WebhookClientConfig_eq_dec : EqDecision WebhookClientConfig.
Proof. solve_decision. Defined.
Global Instance Webhook_eq_dec : EqDecision Webhook.
Proof. solve_decision. Defined.
Global Instance WebhookConfiguration_eq_dec : EqDecision WebhookConfiguration.
Proof. solve_decision. Defined.

(** *** External collaborators, over the state [W] of the outside world *)

(** [kubernetes.Interface], restricted to the calls the package makes:
    [CoreV1().Secrets(namespace)] and the two kinds of webhook
    configuration of [AdmissionregistrationV1beta1()]. *)
Record Interface (W : Type) := {
  SecretsGet : string → string → M W Secret;
  SecretsCreate : string → Secret → M W Secret;
  SecretsUpdate : string → Secret → M W Secret;
  MutatingGet : string → M W WebhookConfiguration;
  MutatingUpdate : WebhookConfiguration → M W WebhookConfiguration;
  ValidatingGet : string → M W WebhookConfiguration;
  ValidatingUpdate : WebhookConfiguration → M W WebhookConfiguration;
}.
Arguments SecretsGet {W} _ _ _ _.
Arguments SecretsCreate {W} _ _ _ _.
Arguments SecretsUpdate {W} _ _ _ _.
Arguments MutatingGet {W} _ _ _.
Arguments MutatingUpdate {W} _ _ _.
Arguments ValidatingGet {W} _ _ _.
Arguments ValidatingUpdate {W} _ _ _.

(** [fileutils.FileExists], [fileutils.ReadFile] and [ioutil.WriteFile]
    (with the permission bits). *)
Record FileSystem (W : Type) := {
  FileExists : string → M W bool;
  ReadFile : string → M W string;
  WriteFile : string → bytes → Z → M W unit;
}.
Arguments FileExists {W} _ _ _.
Arguments ReadFile {W} _ _ _.
Arguments WriteFile {W} _ _ _ _ _.

(** The certificate helpers of the package that live outside the file
    at hand, with [K] the type of parsed private keys.  The ones that
    read the clock or draw random numbers act on the world;
    [RenewCertificate], which overwrites the certificate of its
    receiver, returns the pair as it is afterwards. *)
Record PKI (W K : Type) := {
  CreateCA : M W KeyPair;
  ParseCASecret : Secret → result KeyPair;
  ParseServerSecret : Secret → result KeyPair;
  IsExpiring : KeyPair → M W bool;
  ParseECPrivateKey : KeyPair → result K;
  RenewCertificate : KeyPair → K → M W KeyPair;
  CreateAndSignPair : KeyPair → string → M W KeyPair;
  GenerateCASecret : KeyPair → string → string → Secret;
  GenerateServerSecret : KeyPair → string → string → Secret;
}.
Arguments CreateCA {W K} _ _.
Arguments ParseCASecret {W K} _ _.
Arguments ParseServerSecret {W K} _ _.
Arguments IsExpiring {W K} _ _ _.
Arguments ParseECPrivateKey {W K} _ _.
Arguments RenewCertificate {W K} _ _ _ _.
Arguments CreateAndSignPair {W K} _ _ _ _.
Arguments GenerateCASecret {W K} _ _ _ _.
Arguments GenerateServerSecret {W K} _ _ _ _.

(** *** The state the package runs in

    Secrets are handled through pointers ([*v1.Secret]) and written to
    in place, so the objects live in a heap; a pointer is the index of
    its object.  [lines] is what the package logger has received. *)
Record State (W : Type) := {
  world : W;
  heap : list Secret;
  lines : list LogLine;
}.
Arguments world {W} _.
Arguments heap {W} _.
Arguments lines {W} _.

Abbreviation ptr := nat.

Definition nilDereference : error :=
  OtherError "invalid memory address or nil pointer dereference".

Section Heap.
Context {W : Type}.

(** A call on a collaborator. *)
Definition call {A} (m : M W A) : M (State W) A :=
  λ s, let '(r, w) := m (world s) in
       (r, {| world := w; heap := heap s; lines := lines s |}).

(** [&v1.Secret{...}], and the pointer a client call returns. *)
Definition new (v : Secret) : M (State W) ptr :=
  λ s, (Ok (length (heap s)),
        {| world := world s; heap := heap s ++ [v]; lines := lines s |}).

(** [*secret] *)
Definition deref (secret : ptr) : M (State W) Secret :=
  λ s, match heap s !! secret with
       | Some v => (Ok v, s)
       | None => (Fail nilDereference, s)
       end.

(** The object [v] after [v.Data[key] = value]. *)
Definition withData (key : string) (value : bytes) (v : Secret) : Secret :=
  {| Namespace := Namespace v; Name := Name v;
     ResourceVersion := ResourceVersion v;
     Data := <[key := value]> (Data v) |}.

(** [secret.Data[key] = value] *)
Definition setData (secret : ptr) (key : string) (value : bytes) : M (State W) unit :=
  λ s, match heap s !! secret with
       | Some v =>
           (Ok tt,
            {| world := world s;
               heap := <[secret := withData key value v]> (heap s);
               lines := lines s |})
       | None => (Fail nilDereference, s)
       end.

(** [log.Info(msg, ...)] *)
Definition logged (msg : string) (s : State W) : State W :=
  {| world := world s; heap := heap s; lines := lines s ++ [LogInfo msg] |}.

Definition info (msg : string) : M (State W) unit :=
  λ s, (Ok tt, logged msg s).

(** [x, err := m], with the error as a value. *)
Definition attempt {S A} (m : M S A) : M S (result A) :=
  λ s, let '(r, s') := m s in (Ok r, s').

End Heap.

(** The permission bits [0600]: read and write for the owner only. *)
Definition mode0600 : Z := 0x180.

(** [path.Join] and [path.Clean] of Go's package [path].

    [elements] cuts a path at its slashes.  [cleanStep] is the body of
    the loop of [path.Clean] for one element, with [out] the elements
    written so far, last first: an empty element and [.] are skipped;
    [..] removes the last element written unless there is none or it is
    itself a [..], in which case it is dropped in a rooted path and
    written in a relative one; any other element is written.  The
    result is the elements written, separated by slashes, after the
    leading slash of a rooted path, and [.] when nothing was written. *)
Definition slash : Ascii.ascii := Ascii.ascii_of_nat 47.

Fixpoint elements (path : string) : list string :=
  match path with
  | EmptyString => [EmptyString]
  | String c rest =>
      if Ascii.eqb c slash then EmptyString :: elements rest
      else match elements rest with
           | x :: xs => String c x :: xs
           | [] => [String c EmptyString]
           end
  end.

Definition cleanStep (rooted : bool) (out : list string) (element : string) : list string :=
  if String.eqb element "" then out
  else if String.eqb element "." then out
  else if String.eqb element ".." then
    match out with
    | x :: out' =>
        if negb (String.eqb x "..") then out'
        else if rooted then out else ".." :: out
    | [] => if rooted then out else [".."]
    end
  else element :: out.

Definition Clean (path : string) : string :=
  match path with
  | EmptyString => "."
  | String c _ =>
      let rooted := Ascii.eqb c slash in
      match foldl (cleanStep rooted) [] (elements path) with
      | [] => if rooted then "/" else "."
      | out => (if rooted then "/" else "") +:+ String.concat "/" (rev out)
      end
  end.

(** [path.Join(dir, name)]: the elements that are not empty, joined by
    a slash and cleaned; the empty string when both are empty. *)
Definition path_Join (dir name : string) : string :=
  match dir, name with
  | EmptyString, EmptyString => ""
  | EmptyString, _ => Clean name
  | _, EmptyString => Clean dir
  | _, _ => Clean (dir +:+ "/" +:+ name)
  end.

(** [entry.ClientConfig.CABundle = bundle] *)
Definition setCABundle (bundle : bytes) (entry : Webhook) : Webhook :=
  {| WebhookName := WebhookName entry;
     ClientConfig := {| URL := URL (ClientConfig entry);
                        Service := Service (ClientConfig entry);
                        CABundle := bundle |};
     Rules := Rules entry;
     FailurePolicy := FailurePolicy entry |}.

(** [for idx := range config.Webhooks { config.Webhooks[idx]... = bundle }] *)
Definition injectCABundle (bundle : bytes) (config : WebhookConfiguration) : WebhookConfiguration :=
  {| ConfigName := ConfigName config;
     ConfigResourceVersion := ConfigResourceVersion config;
     Webhooks := map (setCABundle bundle) (Webhooks config) |}.

(** The two messages of [Setup]. *)
Definition mutatingNotFound : string :=
  "mutating webhook configuration not found, cannot inject public key".

Definition validatingNotFound : string :=
  "validating webhook configuration not found, cannot inject public key".

(** *** The functions of the package *)

Section Package.
Context {W K : Type}.
Variable client : Interface W.
Variable fs : FileSystem W.
Variable pki : PKI W K.
(** The order in which [range] visits the fields of a [Data] map; Go
    leaves it unspecified. *)
Variable rangeOf : gmap string bytes → list (string * bytes).

Definition renewCACertificate (secret : ptr) : M (State W) ptr :=
  let* v := deref secret in
  let* pair0 := lift (ParseCASecret pki v) in
  let* expiring := call (IsExpiring pki pair0) in
  if negb expiring then ret secret else
  let* privateKey := lift (ParseECPrivateKey pki pair0) in
  let* pair1 := call (RenewCertificate pki pair0 privateKey) in
  setData secret "ca.crt" (Certificate pair1) >>
  let* v := deref secret in
  let* updated := call (SecretsUpdate client (Namespace v) v) in
  let* updatedSecret := new updated in
  ret updatedSecret.

Definition EnsureRootCACertificate (namespace name : string) : M (State W) ptr :=
  let* got := attempt (call (SecretsGet client namespace name)) in
  match got with
  | Ok v =>
      let* secret := new v in
      let* _ := renewCACertificate secret in
      ret secret
  | Fail err =>
      if negb (IsNotFound err) then fail err else
      let* pair0 := call (CreateCA pki) in
      let* secret := new (GenerateCASecret pki pair0 namespace name) in
      let* v := deref secret in
      let* created := call (SecretsCreate client namespace v) in
      let* createdSecret := new created in
      ret createdSecret
  end.

Definition renewServerCertificate (caSecret : Secret) (secret : ptr) : M (State W) ptr :=
  let* v := deref secret in
  let* pair0 := lift (ParseServerSecret pki v) in
  let* expiring := call (IsExpiring pki pair0) in
  if negb expiring then ret secret else
  let* caPair := lift (ParseCASecret pki caSecret) in
  let* caPrivateKey := lift (ParseECPrivateKey pki caPair) in
  let* pair1 := call (RenewCertificate pki pair0 caPrivateKey) in
  setData secret "tls.crt" (Certificate pair1) >>
  let* v := deref secret in
  let* updated := call (SecretsUpdate client (Namespace v) v) in
  let* updatedSecret := new updated in
  ret updatedSecret.

Definition EnsureCertificate (webhook : WebhookEnvironment) (caSecret : ptr)
    : M (State W) ptr :=
  let* got := attempt (call (SecretsGet client (OperatorNamespace webhook)
                                        (SecretName webhook))) in
  match got with
  | Ok v =>
      let* secret := new v in
      let* ca := deref caSecret in
      renewServerCertificate ca secret
  | Fail err =>
      if negb (IsNotFound err) then fail err else
      let* ca := deref caSecret in
      let* caPair := lift (ParseCASecret pki ca) in
      let webhookHostname :=
        ServiceName webhook +:+ "." +:+ OperatorNamespace webhook +:+ ".svc" in
      let* webhookPair := call (CreateAndSignPair pki caPair webhookHostname) in
      let* secret := new (GenerateServerSecret pki webhookPair
                            (OperatorNamespace webhook) (SecretName webhook)) in
      let* v := deref secret in
      let* created := call (SecretsCreate client (OperatorNamespace webhook) v) in
      let* createdSecret := new created in
      ret createdSecret
  end.

Definition DumpSecretToDir (secret : ptr) (certDir : string) : M (State W) unit :=
  let resourceFileName := path_Join certDir "resource" in
  let* oldVersionExist := call (FileExists fs resourceFileName) in
  let* current :=
    if (oldVersionExist : bool) then
      let* oldVersion := call (ReadFile fs resourceFileName) in
      let* v := deref secret in
      ret (bool_decide (oldVersion = ResourceVersion v))
    else ret false in
  if (current : bool) then ret tt else
  let* v := deref secret in
  forM_ (rangeOf (Data v)) (λ '(name, content),
    call (WriteFile fs (path_Join certDir name) content mode0600)) >>
  call (WriteFile fs resourceFileName (ResourceVersion v) mode0600).

(** [tlsSecret.Data["tls.crt"]], as the loop over the entries reads it:
    the secret is dereferenced only when there is an entry, and a
    missing field reads as the empty slice. *)
Definition bundleFor (tlsSecret : ptr) (config : WebhookConfiguration)
    : M (State W) bytes :=
  match Webhooks config with
  | [] => ret ""
  | _ :: _ =>
      let* v := deref tlsSecret in
      ret (default "" (Data v !! "tls.crt"))
  end.

Definition InjectPublicKeyIntoMutatingWebhook (webhook : WebhookEnvironment)
    (tlsSecret : ptr) : M (State W) unit :=
  let* config := call (MutatingGet client (MutatingWebhookConfigurationName webhook)) in
  let* bundle := bundleFor tlsSecret config in
  let config := injectCABundle bundle config in
  let* _ := call (MutatingUpdate client config) in
  ret tt.

Definition InjectPublicKeyIntoValidatingWebhook (webhook : WebhookEnvironment)
    (tlsSecret : ptr) : M (State W) unit :=
  let* config := call (ValidatingGet client (ValidatingWebhookConfigurationName webhook)) in
  let* bundle := bundleFor tlsSecret config in
  let config := injectCABundle bundle config in
  let* _ := call (ValidatingUpdate client config) in
  ret tt.

Definition Setup (webhook : WebhookEnvironment) : M (State W) unit :=
  let* caSecret := EnsureRootCACertificate (OperatorNamespace webhook)
                                           (CaSecretName webhook) in
  let* webhookSecret := EnsureCertificate webhook caSecret in
  DumpSecretToDir webhookSecret (CertDir webhook) >>
  let* err := attempt (InjectPublicKeyIntoMutatingWebhook webhook webhookSecret) in
  match err with
  | Fail err =>
      if IsNotFound err
      then info mutatingNotFound
      else fail err
  | Ok _ => ret tt
  end >>
  let* err := attempt (InjectPublicKeyIntoValidatingWebhook webhook webhookSecret) in
  match err with
  | Fail err =>
      if IsNotFound err
      then info validatingNotFound
      else fail err
  | Ok _ => ret tt
  end >>
  ret tt.

(** *** The same runs, case by case

    Used to state what the functions above do: [renewal] is the run of
    a renewal function on the secret at [secret], [injected] the rest of
    an injection once the configuration has been fetched. *)

(** What both renewal functions do with the secret at [secret], given
    how the secret is parsed, the field that holds the certificate and
    the secret the signing key is parsed from. *)
Definition renewal (parse : Secret → result KeyPair) (field : string)
    (keySource : KeyPair → result KeyPair)
    (secret : ptr) (v : Secret) (s : State W) : result ptr * State W :=
  let at_ (w : W) : State W := {| world := w; heap := heap s; lines := lines s |} in
  match parse v with
  | Fail e => (Fail e, s)
  | Ok keys =>
      match IsExpiring pki keys (world s) with
      | (Fail e, w1) => (Fail e, at_ w1)
      | (Ok false, w1) => (Ok secret, at_ w1)
      | (Ok true, w1) =>
          match keySource keys with
          | Fail e => (Fail e, at_ w1)
          | Ok signer =>
              match ParseECPrivateKey pki signer with
              | Fail e => (Fail e, at_ w1)
              | Ok privateKey =>
                  match RenewCertificate pki keys privateKey w1 with
                  | (Fail e, w2) => (Fail e, at_ w2)
                  | (Ok renewed, w2) =>
                      let v' := withData field (Certificate renewed) v in
                      match SecretsUpdate client (Namespace v) v' w2 with
                      | (Fail e, w3) =>
                          (Fail e, {| world := w3; heap := <[secret := v']> (heap s);
                                      lines := lines s |})
                      | (Ok updated, w3) =>
                          (Ok (length (heap s)),
                           {| world := w3;
                              heap := <[secret := v']> (heap s) ++ [updated];
                              lines := lines s |})
                      end
                  end
              end
          end
      end
  end.

End Package.

(** What an injection does once the configuration has been fetched. *)
Definition injected {W} (update : WebhookConfiguration → M W WebhookConfiguration)
    (config : WebhookConfiguration) (w1 : W) (s : State W) : result unit * State W :=
  (match fst (update config w1) with
   | Ok _ => Ok tt
   | Fail e => Fail e
   end,
   {| world := snd (update config w1); heap := heap s; lines := lines s |}).


(** What [Setup] does with the outcome of an injection: an error that is
    not NotFound aborts the run; a NotFound one is logged and the run
    goes on. *)
Definition aborts (r : result unit) : bool :=
  match r with
  | Ok _ => false
  | Fail err => negb (IsNotFound err)
  end.

Definition skipped {W} (msg : string) (r : result unit) (s : State W) : State W :=
  match r with
  | Ok _ => s
  | Fail err => if IsNotFound err then logged msg s else s
  end.

(** *** Observing the calls on the collaborators

    As for the synchroniser, the collaborators are wrapped so that every
    call is appended to a trace, with its arguments. *)

Inductive Ext (K : Type) :=
| SecretsGetCall (namespace name : string)
| SecretsCreateCall (namespace : string) (v : Secret)
| SecretsUpdateCall (namespace : string) (v : Secret)
| MutatingGetCall (name : string)
| MutatingUpdateCall (config : WebhookConfiguration)
| ValidatingGetCall (name : string)
| ValidatingUpdateCall (config : WebhookConfiguration)
| FileExistsCall (path : string)
| ReadFileCall (path : string)
| WriteFileCall (path : string) (data : bytes) (perm : Z)
| CreateCACall
| IsExpiringCall (keys : KeyPair)
| RenewCertificateCall (keys : KeyPair) (signingKey : K)
| CreateAndSignPairCall (keys : KeyPair) (hostname : string).
Arguments SecretsGetCall {K} _ _.
Arguments SecretsCreateCall {K} _ _.
Arguments SecretsUpdateCall {K} _ _.
Arguments MutatingGetCall {K} _.
Arguments MutatingUpdateCall {K} _.
Arguments ValidatingGetCall {K} _.
Arguments ValidatingUpdateCall {K} _.
Arguments FileExistsCall {K} _.
Arguments ReadFileCall {K} _.
Arguments WriteFileCall {K} _ _ _.
Arguments CreateCACall {K}.
Arguments IsExpiringCall {K} _.
Arguments RenewCertificateCall {K} _ _.
Arguments CreateAndSignPairCall {K} _ _.

Record Traced (W K : Type) := {
  inner : W;
  trace : list (Ext K);
}.
Arguments inner {W K} _.
Arguments trace {W K} _.

Definition traced {W K A} (e : Ext K) (m : M W A) : M (Traced W K) A :=
  λ t, let '(r, w) := m (inner t) in
       (r, {| inner := w; trace := trace t ++ [e] |}).

Definition tracedClient {W} (K : Type) (client : Interface W) : Interface (Traced W K) :=
  {| SecretsGet namespace name :=
       traced (SecretsGetCall namespace name) (SecretsGet client namespace name);
     SecretsCreate namespace v :=
       traced (SecretsCreateCall namespace v) (SecretsCreate client namespace v);
     SecretsUpdate namespace v :=
       traced (SecretsUpdateCall namespace v) (SecretsUpdate client namespace v);
     MutatingGet name := traced (MutatingGetCall name) (MutatingGet client name);
     MutatingUpdate config :=
       traced (MutatingUpdateCall config) (MutatingUpdate client config);
     ValidatingGet name := traced (ValidatingGetCall name) (ValidatingGet client name);
     ValidatingUpdate config :=
       traced (ValidatingUpdateCall config) (ValidatingUpdate client config) |}.

Definition tracedFS {W} (K : Type) (fs : FileSystem W) : FileSystem (Traced W K) :=
  {| FileExists path := traced (FileExistsCall path) (FileExists fs path);
     ReadFile path := traced (ReadFileCall path) (ReadFile fs path);
     WriteFile path data perm :=
       traced (WriteFileCall path data perm) (WriteFile fs path data perm) |}.

Definition tracedPKI {W K} (pki : PKI W K) : PKI (Traced W K) K :=
  {| CreateCA := traced CreateCACall (CreateCA pki);
     ParseCASecret := ParseCASecret pki;
     ParseServerSecret := ParseServerSecret pki;
     IsExpiring keys := traced (IsExpiringCall keys) (IsExpiring pki keys);
     ParseECPrivateKey := ParseECPrivateKey pki;
     RenewCertificate keys signingKey :=
       traced (RenewCertificateCall keys signingKey) (RenewCertificate pki keys signingKey);
     CreateAndSignPair keys hostname :=
       traced (CreateAndSignPairCall keys hostname) (CreateAndSignPair pki keys hostname);
     GenerateCASecret := GenerateCASecret pki;
     GenerateServerSecret := GenerateServerSecret pki |}.

(** The state a run starts in: nothing allocated, logged or traced. *)
Definition starting {W} (w : W) : State W :=
  {| world := w; heap := []; lines := [] |}.

Definition tracing {W} (K : Type) (w : W) : State (Traced W K) :=
  starting {| inner := w; trace := [] |}.

(** The state [s] once the outside world has become [w], the calls [es]
    have been traced and the objects [h] have been allocated. *)
Definition after {W K} (s : State (Traced W K)) (w : W) (es : list (Ext K))
    (h : list Secret) : State (Traced W K) :=
  {| world := {| inner := w; trace := trace (world s) ++ es |};
     heap := heap s ++ h;
     lines := lines s |}.

(** The calls of a trace that write a file, and the renewals asked
    for, each with the pair to renew and the signing key. *)
Definition isWrite {K} (e : Ext K) : bool :=
  match e with
  | WriteFileCall _ _ _ => true
  | _ => false
  end.

(** The call that writes one field of a secret into a directory. *)
Definition fieldWrite {K} (certDir : string) (field : string * bytes) : Ext K :=
  WriteFileCall (path_Join certDir field.1) field.2 mode0600.

Definition renewals {K} (tr : list (Ext K)) : list (KeyPair * K) :=
  omap (λ e, match e with
             | RenewCertificateCall keys signingKey => Some (keys, signingKey)
             | _ => None
             end) tr.

(** A computation that never asks for a certificate to be renewed. *)
Definition quiet {W K A} (m : M (State (Traced W K)) A) : Prop :=
  ∀ s r s', m s = (r, s') → renewals (trace (world s')) = renewals (trace (world s)).

(** *** A cluster in memory

    Modelled from the spec: the Secret Store Adapter ([Get] fails with
    NotFound on a missing record; [Create] and [Update] return the
    stored record; [Update] fails when the [resourceVersion] handed in
    is stale; the [resourceVersion] changes on every successful write),
    the admission-configuration objects, and the certificate directory.
    None of them is implemented in the sources at hand. *)

Record File := { content : bytes; mode : Z }.

Record Cluster := {
  secrets : gmap (string * string) Secret;
  mutating : gmap string WebhookConfiguration;
  validating : gmap string WebhookConfiguration;
  files : gmap string File;
  (** the next [resourceVersion] and certificate serial number *)
  revision : nat;
  (** the certificates that have crossed the renewal threshold *)
  expiring : list bytes;
}.

Definition withSecrets (m : gmap (string * string) Secret) (c : Cluster) : Cluster :=
  {| secrets := m; mutating := mutating c; validating := validating c;
     files := files c; revision := S (revision c); expiring := expiring c |}.

Definition withMutating (m : gmap string WebhookConfiguration) (c : Cluster) : Cluster :=
  {| secrets := secrets c; mutating := m; validating := validating c;
     files := files c; revision := S (revision c); expiring := expiring c |}.

Definition withValidating (m : gmap string WebhookConfiguration) (c : Cluster) : Cluster :=
  {| secrets := secrets c; mutating := mutating c; validating := m;
     files := files c; revision := S (revision c); expiring := expiring c |}.

Definition withFiles (m : gmap string File) (c : Cluster) : Cluster :=
  {| secrets := secrets c; mutating := mutating c; validating := validating c;
     files := m; revision := revision c; expiring := expiring c |}.

Definition nextRevision (c : Cluster) : Cluster :=
  {| secrets := secrets c; mutating := mutating c; validating := validating c;
     files := files c; revision := S (revision c); expiring := expiring c |}.

Definition stored (namespace version : string) (v : Secret) : Secret :=
  {| Namespace := namespace; Name := Name v; ResourceVersion := version; Data := Data v |}.

Definition storedConfig (version : string) (config : WebhookConfiguration)
    : WebhookConfiguration :=
  {| ConfigName := ConfigName config; ConfigResourceVersion := version;
     Webhooks := Webhooks config |}.

Definition getConfig (kind : string) (m : gmap string WebhookConfiguration) (name : string)
    : result WebhookConfiguration :=
  match m !! name with
  | Some config => Ok config
  | None => Fail (NotFoundError (kind +:+ " " +:+ name))
  end.

Definition memClient : Interface Cluster :=
  {| SecretsGet namespace name := λ c,
       match secrets c !! (namespace, name) with
       | Some v => (Ok v, c)
       | None => (Fail (NotFoundError ("secrets " +:+ name)), c)
       end;
     SecretsCreate namespace v := λ c,
       match secrets c !! (namespace, Name v) with
       | Some _ => (Fail (ConflictError ("secrets " +:+ Name v)), c)
       | None =>
           let v' := stored namespace (pretty (revision c)) v in
           (Ok v', withSecrets (<[(namespace, Name v) := v']> (secrets c)) c)
       end;
     SecretsUpdate namespace v := λ c,
       match secrets c !! (namespace, Name v) with
       | None => (Fail (NotFoundError ("secrets " +:+ Name v)), c)
       | Some old =>
           if bool_decide (ResourceVersion old = ResourceVersion v) then
             let v' := stored namespace (pretty (revision c)) v in
             (Ok v', withSecrets (<[(namespace, Name v) := v']> (secrets c)) c)
           else (Fail (ConflictError ("secrets " +:+ Name v)), c)
       end;
     MutatingGet name := λ c,
       (getConfig "mutatingwebhookconfigurations" (mutating c) name, c);
     MutatingUpdate config := λ c,
       match mutating c !! ConfigName config with
       | None => (Fail (NotFoundError ("mutatingwebhookconfigurations "
                                       +:+ ConfigName config)), c)
       | Some _ =>
           let config' := storedConfig (pretty (revision c)) config in
           (Ok config', withMutating (<[ConfigName config := config']> (mutating c)) c)
       end;
     ValidatingGet name := λ c,
       (getConfig "validatingwebhookconfigurations" (validating c) name, c);
     ValidatingUpdate config := λ c,
       match validating c !! ConfigName config with
       | None => (Fail (NotFoundError ("validatingwebhookconfigurations "
                                       +:+ ConfigName config)), c)
       | Some _ =>
           let config' := storedConfig (pretty (revision c)) config in
           (Ok config', withValidating (<[ConfigName config := config']> (validating c)) c)
       end |}.

(** A file keeps the permission bits it was created with. *)
Definition memFS : FileSystem Cluster :=
  {| FileExists path := λ c, (Ok (bool_decide (is_Some (files c !! path))), c);
     ReadFile path := λ c,
       match files c !! path with
       | Some f => (Ok (content f), c)
       | None => (Fail (OtherError ("open " +:+ path +:+ ": no such file or directory")), c)
       end;
     WriteFile path data perm := λ c,
       let perm' := match files c !! path with
                    | Some f => mode f
                    | None => perm
                    end in
       (Ok tt, withFiles (<[path := {| content := data; mode := perm' |}]> (files c)) c) |}.

(** Certificates for the runs evaluated below: a certificate names the
    key that signed it, the key it certifies and a serial number. *)
Definition toyCertificate (signer subject : string) (serial : nat) : bytes :=
  signer +:+ "|" +:+ subject +:+ "|" +:+ pretty serial.

Definition toySignedBy (certificate : bytes) (key : string) : Prop :=
  String.prefix (key +:+ "|") certificate = true.

Definition toyParse (keyField certField : string) (v : Secret) : result KeyPair :=
  match Data v !! keyField, Data v !! certField with
  | Some key, Some cert => Ok {| Private := key; Certificate := cert |}
  | None, _ => Fail (OtherError ("missing " +:+ keyField +:+ " secret data"))
  | _, None => Fail (OtherError ("missing " +:+ certField +:+ " secret data"))
  end.

Definition toyPKI : PKI Cluster string :=
  {| CreateCA := λ c,
       let key := "ca-key-" +:+ pretty (revision c) in
       (Ok {| Private := key; Certificate := toyCertificate key key (revision c) |},
        nextRevision c);
     ParseCASecret := toyParse "ca.key" "ca.crt";
     ParseServerSecret := toyParse "tls.key" "tls.crt";
     IsExpiring keys := λ c, (Ok (bool_decide (Certificate keys ∈ expiring c)), c);
     ParseECPrivateKey keys := Ok (Private keys);
     RenewCertificate keys signingKey := λ c,
       (Ok {| Private := Private keys;
              Certificate := toyCertificate signingKey (Private keys) (revision c) |},
        nextRevision c);
     CreateAndSignPair keys hostname := λ c,
       let key := "key-of-" +:+ hostname in
       (Ok {| Private := key;
              Certificate := toyCertificate (Private keys) key (revision c) |},
        nextRevision c);
     GenerateCASecret keys namespace name :=
       {| Namespace := namespace; Name := name; ResourceVersion := "";
          Data := {[ "ca.key" := Private keys; "ca.crt" := Certificate keys ]} |};
     GenerateServerSecret keys namespace name :=
       {| Namespace := namespace; Name := name; ResourceVersion := "";
          Data := {[ "tls.key" := Private keys; "tls.crt" := Certificate keys ]} |} |}.

(** *** Example data *)

Definition exampleEnvironment : WebhookEnvironment :=
  {| CertDir := "/tmp/certs";
     CaSecretName := "postgresql-operator-ca-secret";
     SecretName := "postgresql-operator-webhook-cert";
     ServiceName := "postgresql-operator-webhook-service";
     OperatorNamespace := "postgresql-operator-system";
     MutatingWebhookConfigurationName := "postgresql-operator-mutating-webhook-configuration";
     ValidatingWebhookConfigurationName :=
       "postgresql-operator-validating-webhook-configuration" |}.

(** A cluster where nothing has been set up yet. *)
Definition emptyCluster : Cluster :=
  {| secrets := ∅; mutating := ∅; validating := ∅; files := ∅;
     revision := 1; expiring := [] |}.

Definition exampleCASecret : Secret :=
  {| Namespace := "postgresql-operator-system";
     Name := "postgresql-operator-ca-secret";
     ResourceVersion := "2";
     Data := {[ "ca.key" := "ca-key-1"; "ca.crt" := "ca-key-1|ca-key-1|1" ]} |}.

Definition exampleServerSecret : Secret :=
  {| Namespace := "postgresql-operator-system";
     Name := "postgresql-operator-webhook-cert";
     ResourceVersion := "4";
     Data := {[ "tls.key" := "server-key"; "tls.crt" := "ca-key-1|server-key|3" ]} |}.

(** A cluster that holds both secrets; [expired] lists the certificates
    that have crossed the renewal threshold. *)
Definition settledCluster (expired : list bytes) : Cluster :=
  {| secrets := {[ ("postgresql-operator-system", "postgresql-operator-ca-secret")
                     := exampleCASecret;
                   ("postgresql-operator-system", "postgresql-operator-webhook-cert")
                     := exampleServerSecret ]};
     mutating := ∅; validating := ∅; files := ∅;
     revision := 5; expiring := expired |}.

Definition exampleWebhook (name : string) : Webhook :=
  {| WebhookName := name;
     ClientConfig := {| URL := None;
                        Service := Some "postgresql-operator-webhook-service";
                        CABundle := "" |};
     Rules := ["clusters"];
     FailurePolicy := Some "Fail" |}.

Definition exampleConfiguration (name : string) : WebhookConfiguration :=
  {| ConfigName := name; ConfigResourceVersion := "0";
     Webhooks := [exampleWebhook "mcluster.kb.io"; exampleWebhook "vcluster.kb.io"] |}.

(** A cluster with the two webhook configurations and no secret yet. *)
Definition clusterWithWebhooks : Cluster :=
  {| secrets := ∅;
     mutating := {[ MutatingWebhookConfigurationName exampleEnvironment :=
                      exampleConfiguration
                        (MutatingWebhookConfigurationName exampleEnvironment) ]};
     validating := {[ ValidatingWebhookConfigurationName exampleEnvironment :=
                        exampleConfiguration
                          (ValidatingWebhookConfigurationName exampleEnvironment) ]};
     files := ∅; revision := 1; expiring := [] |}.

(** A client on which the mutating configuration is deleted by someone
    else between the fetch and the update, so that the update is
    answered with NotFound. *)
Definition deletedBeforeUpdate {W} (client : Interface W) : Interface W :=
  {| SecretsGet := SecretsGet client;
     SecretsCreate := SecretsCreate client;
     SecretsUpdate := SecretsUpdate client;
     MutatingGet := MutatingGet client;
     MutatingUpdate config :=
       fail (NotFoundError ("mutatingwebhookconfigurations " +:+ ConfigName config));
     ValidatingGet := ValidatingGet client;
     ValidatingUpdate := ValidatingUpdate client |}.

(** A state that holds the server secret at pointer 0, over a cluster
    with an empty certificate directory. *)
Definition holdingServerSecret : State (Traced Cluster string) :=
  {| world := {| inner := emptyCluster; trace := [] |};
     heap := [exampleServerSecret];
     lines := [] |}.

(** [Setup], observed, over the cluster in memory. *)
Definition observedSetup (client : Interface Cluster) (c : Cluster)
    : result unit * State (Traced Cluster string) :=
  Setup (tracedClient string client) (tracedFS string memFS) (tracedPKI toyPKI)
        map_to_list exampleEnvironment (tracing string c).

(** [Setup] over a cluster whose server certificate is expiring, and its
    first step alone. *)
Definition renewingSetup : result unit * State (Traced Cluster string) :=
  observedSetup memClient (settledCluster ["ca-key-1|server-key|3"]).

Definition renewingSetupFirstStep : result ptr * State (Traced Cluster string) :=
  EnsureRootCACertificate (tracedClient string memClient) (tracedPKI toyPKI)
    (OperatorNamespace exampleEnvironment) (CaSecretName exampleEnvironment)
    (tracing string (settledCluster ["ca-key-1|server-key|3"])).

(** *** Vocabulary for further properties of the package *)

(** A computation that keeps [I] true of the heap and whose calls on
    the collaborators all satisfy [P], whatever it returns. *)
Definition within {W K A} (I : list Secret → Prop) (P : Ext K → Prop)
    (m : M (State (Traced W K)) A) : Prop :=
  ∀ s r s', I (heap s) → m s = (r, s') →
    I (heap s') ∧ ∃ es, trace (world s') = trace (world s) ++ es ∧ Forall P es.

(** The calls on the secret store and on the certificate helpers. *)
Definition onSecretsOrPKI {K} (e : Ext K) : bool :=
  match e with
  | SecretsGetCall _ _ | SecretsCreateCall _ _ | SecretsUpdateCall _ _
  | CreateCACall | IsExpiringCall _ | RenewCertificateCall _ _
  | CreateAndSignPairCall _ _ => true
  | _ => false
  end.

(** The write of the sentinel file, and the writes of a dump of [v] in
    the order a complete dump makes them. *)
Definition sentinelWrite {K} (certDir : string) (v : Secret) : Ext K :=
  WriteFileCall (path_Join certDir "resource") (ResourceVersion v) mode0600.

Definition dumpWrites {K} (rangeOf : gmap string bytes → list (string * bytes))
    (certDir : string) (v : Secret) : list (Ext K) :=
  map (fieldWrite certDir) (rangeOf (Data v)) ++ [sentinelWrite certDir v].

(** A call that publishes the secret [tlsSecret] points to, if any:
    a check of the sentinel, the write of one of its fields or of the
    sentinel into [certDir] with mode 0600, the fetch of a webhook
    configuration, or the update of one whose entries all carry the
    field [tls.crt] of that secret. *)
Definition servedFrom {K} (rangeOf : gmap string bytes → list (string * bytes))
    (certDir : string) (tlsSecret : option Secret) (e : Ext K) : Prop :=
  match e with
  | FileExistsCall path | ReadFileCall path => path = path_Join certDir "resource"
  | WriteFileCall path data perm =>
      perm = mode0600 ∧
      ∃ v, tlsSecret = Some v ∧
           ((path = path_Join certDir "resource" ∧ data = ResourceVersion v) ∨
            ∃ name, (name, data) ∈ rangeOf (Data v) ∧ path = path_Join certDir name)
  | MutatingGetCall _ | ValidatingGetCall _ => True
  | MutatingUpdateCall config | ValidatingUpdateCall config =>
      ∀ entry, entry ∈ Webhooks config →
        ∃ v, tlsSecret = Some v ∧
             CABundle (ClientConfig entry) = default "" (Data v !! "tls.crt")
  | _ => False
  end.

(** The steps of [Setup] after the two secrets have been ensured (lines
    137 to 162). *)
Definition publish {W} (client : Interface W) (fs : FileSystem W)
    (rangeOf : gmap string bytes → list (string * bytes))
    (webhook : WebhookEnvironment) (webhookSecret : ptr) : M (State W) unit :=
  DumpSecretToDir fs rangeOf webhookSecret (CertDir webhook) >>
  let* err := attempt (InjectPublicKeyIntoMutatingWebhook client webhook webhookSecret) in
  match err with
  | Fail err =>
      if IsNotFound err
      then info mutatingNotFound
      else fail err
  | Ok _ => ret tt
  end >>
  let* err := attempt (InjectPublicKeyIntoValidatingWebhook client webhook webhookSecret) in
  match err with
  | Fail err =>
      if IsNotFound err
      then info validatingNotFound
      else fail err
  | Ok _ => ret tt
  end >>
  ret tt.

(** A name that is one path element: not empty, not [.] or [..], and
    without a slash.  The keys of a Kubernetes secret are such names. *)
Definition plainName (name : string) : bool :=
  negb (String.eqb name "") && negb (String.eqb name ".") &&
  negb (String.eqb name "..") &&
  forallb (λ c, negb (Ascii.eqb c slash)) (String.list_ascii_of_string name).

Definition plainKeys (v : Secret) : Prop :=
  map_Forall (λ name _, plainName name = true) (Data v).

(** The secrets a trace hands to the store for update. *)
Definition updates {K} (tr : list (Ext K)) : list Secret :=
  omap (λ e, match e with
             | SecretsUpdateCall _ v => Some v
             | _ => None
             end) tr.

(** Modelled from the spec: what the certificate helpers, which are not
    part of the sources at hand, promise about a renewal.
    [RenewCertificate] reissues the certificate of its receiver signed
    with the key it is handed; [SignedBy certificate key] stands for
    that: the signature on [certificate] was made with the private key
    [key], so it verifies under the public key that belongs to it. *)
Definition renewalSigns {W K} (pki : PKI W K) (SignedBy : bytes → K → Prop) : Prop :=
  ∀ keys signingKey w renewed w',
    RenewCertificate pki keys signingKey w = (Ok renewed, w') →
    SignedBy (Certificate renewed) signingKey.

(** The certificate [leaf] verifies against the authority held in the
    secret [ca]: it is signed with the private key parsed from [ca]. *)
Definition verifiesAgainst {W K} (pki : PKI W K) (SignedBy : bytes → K → Prop)
    (leaf : bytes) (ca : Secret) : Prop :=
  ∃ caPair privateKey,
    ParseCASecret pki ca = Ok caPair ∧
    ParseECPrivateKey pki caPair = Ok privateKey ∧
    SignedBy leaf privateKey.

(** A cluster whose authority key has been rotated (from [ca-key-1] to
    [ca-key-2]) while the server certificate, signed with the old key,
    has crossed the renewal threshold. *)
Definition rotatedCASecret : Secret :=
  {| Namespace := "postgresql-operator-system";
     Name := "postgresql-operator-ca-secret";
     ResourceVersion := "6";
     Data := {[ "ca.key" := "ca-key-2"; "ca.crt" := "ca-key-2|ca-key-2|5" ]} |}.

Definition rotatedCluster : Cluster :=
  {| secrets := {[ ("postgresql-operator-system", "postgresql-operator-ca-secret")
                     := rotatedCASecret;
                   ("postgresql-operator-system", "postgresql-operator-webhook-cert")
                     := exampleServerSecret ]};
     mutating := ∅; validating := ∅; files := ∅;
     revision := 7; expiring := ["ca-key-1|server-key|3"] |}.

Definition rotatedSetup : result unit * State (Traced Cluster string) :=
  observedSetup memClient rotatedCluster.

Definition rotatedSetupFirstStep : result ptr * State (Traced Cluster string) :=
  EnsureRootCACertificate (tracedClient string memClient) (tracedPKI toyPKI)
    (OperatorNamespace exampleEnvironment) (CaSecretName exampleEnvironment)
    (tracing string rotatedCluster).

(** A secret whose [Data] has a field named like the sentinel file. *)
Definition clashingSecret : Secret :=
  {| Namespace := "postgresql-operator-system";
     Name := "postgresql-operator-webhook-cert";
     ResourceVersion := "7";
     Data := {[ "resource" := "not-a-version"; "tls.crt" := "ca-key-1|server-key|3" ]} |}.

(** A file system on which every write to a path selected by [bad]
    fails and changes nothing. *)
Definition readOnlyAt {W} (bad : string → bool) (e : error) (fs : FileSystem W)
    : FileSystem W :=
  {| FileExists := FileExists fs;
     ReadFile := ReadFile fs;
     WriteFile path data perm :=
       if bad path then fail e else WriteFile fs path data perm |}.

Definition diskFull : error := OtherError "no space left on device".

(** A dump of the server secret into a directory where the key file
    cannot be written. *)
Definition failingDump : result unit * State (Traced Cluster string) :=
  DumpSecretToDir
    (tracedFS string
       (readOnlyAt (λ path, bool_decide (path = "/tmp/certs/tls.key")) diskFull memFS))
    map_to_list 0 "/tmp/certs" holdingServerSecret.

(** A configuration that lists no webhook. *)
Definition emptyConfiguration (name : string) : WebhookConfiguration :=
  {| ConfigName := name; ConfigResourceVersion := "0"; Webhooks := [] |}.

Definition clusterWithEmptyWebhooks : Cluster :=
  {| secrets := ∅;
     mutating := {[ MutatingWebhookConfigurationName exampleEnvironment :=
                      emptyConfiguration
                        (MutatingWebhookConfigurationName exampleEnvironment) ]};
     validating := {[ ValidatingWebhookConfigurationName exampleEnvironment :=
                        emptyConfiguration
                          (ValidatingWebhookConfigurationName exampleEnvironment) ]};
     files := ∅; revision := 1; expiring := [] |}.

(** A client whose secret store cannot be reached. *)
Definition connectionRefused : error := OtherError "connection refused".

Definition unreachableStore {W} (client : Interface W) : Interface W :=
  {| SecretsGet _ _ := fail connectionRefused;
     SecretsCreate _ _ := fail connectionRefused;
     SecretsUpdate _ _ := fail connectionRefused;
     MutatingGet := MutatingGet client;
     MutatingUpdate := MutatingUpdate client;
     ValidatingGet := ValidatingGet client;
     ValidatingUpdate := ValidatingUpdate client |}.

End certs.

(** * Properties of the synchroniser *)

Module runner_proofs.
Import runner.

(** ** Loops in the monad *)

Lemma bind_unit {S} (m : M S unit) (s : S) : (m >> ret tt) s = m s.
Proof. unfold bind, ret. destruct (m s) as [[[]|e] s']; reflexivity. Qed.

Lemma forM_app {S A} (l1 l2 : list A) (f : A → M S unit) (s : S) :
  forM_ (l1 ++ l2) f s = (forM_ l1 f >> forM_ l2 f) s.
Proof.
  revert s. induction l1 as [|x l1 IH]; intros s; simpl.
  - reflexivity.
  - unfold bind. destruct (f x s) as [[[]|e] s1]; [|reflexivity].
    rewrite IH. reflexivity.
Qed.

Lemma forM_ext {S A} (l : list A) (f g : A → M S unit) :
  (∀ x s, f x s = g x s) → ∀ s, forM_ l f s = forM_ l g s.
Proof.
  intros Hfg. induction l as [|x l IH]; intros s; simpl; [reflexivity|].
  unfold bind. rewrite Hfg. destruct (g x s) as [[[]|e] s1]; [apply IH|reflexivity].
Qed.

Lemma forM_flat_map {S A B} (l : list A) (h : A → list B) (f : B → M S unit) (s : S) :
  forM_ (flat_map h l) f s = forM_ l (λ x, forM_ (h x) f) s.
Proof.
  revert s. induction l as [|x l IH]; intros s; simpl; [reflexivity|].
  rewrite forM_app. unfold bind.
  destruct (forM_ (h x) f s) as [[[]|e] s1]; [apply IH|reflexivity].
Qed.

(** ** What an observed pass records *)

Section Observed.
Context {W : Type}.
Variables primary local : Manager W.

Lemma record_spec {A} (b : Backend) (o : Op) (m : M W A) (s : Observed W) :
  record b o m s =
    (fst (m (world s)),
     {| world := snd (m (world s));
        calls := calls s ++ [{| backend := b; op := o;
                                outcome := err_of (fst (m (world s))) |}];
        lines := lines s |}).
Proof. unfold record. destruct (m (world s)); reflexivity. Qed.

Lemma perform_observe (b : Backend) (m : Manager W) (o : Op) (s : Observed W) :
  perform (observe b m) o s =
    (fst (perform m o (world s)),
     {| world := snd (perform m o (world s));
        calls := calls s ++ [{| backend := b; op := o;
                                outcome := err_of (fst (perform m o (world s))) |}];
        lines := lines s |}).
Proof.
  destruct o; simpl; try apply record_spec.
  unfold bind. rewrite record_spec.
  destruct (List m podName config (world s)) as [[sl|e] w']; reflexivity.
Qed.

Lemma replay_snoc (cs : list Call) (c : Call) (w : W) :
  replay primary local (cs ++ [c]) w =
    snd (perform (match backend c with Primary => primary | Local => local end)
                 (op c) (replay primary local cs w)).
Proof. unfold replay. rewrite foldl_app. reflexivity. Qed.

(** Running a list of operations against the observed local manager:
    the operations are recorded in order up to the first that fails. *)
Lemma exec_spec (w0 : W) (ops : list Op) :
  ∀ s r s',
    forM_ ops (perform (observe Local local)) s = (r, s') →
    world s = replay primary local (calls s) w0 →
    lines s' = lines s ∧
    world s' = replay primary local (calls s') w0 ∧
    ((r = Ok tt ∧ calls s' = calls s ++ map (ok_call Local) ops) ∨
     (∃ e pre o rest,
        r = Fail e ∧ ops = pre ++ o :: rest ∧
        calls s' = calls s ++ map (ok_call Local) pre ++ [failed_call Local o e])).
Proof.
  induction ops as [|o ops IH]; intros s r s' Hrun Hw; simpl in Hrun.
  - inversion Hrun; subst. split; [done|]. split; [done|]. left.
    by rewrite app_nil_r.
  - unfold bind in Hrun. rewrite perform_observe in Hrun.
    destruct (perform local o (world s)) as [[[]|e] w1] eqn:Hp; simpl in Hrun.
    + apply IH in Hrun as (Hl & Hwd & Hc); simpl.
      * split; [done|]. split; [done|].
        destruct Hc as [[-> Hc]|(e & pre & o' & rest & -> & -> & Hc)].
        -- left. split; [done|]. rewrite Hc. simpl. by rewrite <- app_assoc.
        -- right. exists e, (o :: pre), o', rest. split; [done|]. split; [done|].
           rewrite Hc. simpl. by rewrite <- app_assoc.
      * simpl. rewrite replay_snoc. simpl. rewrite <- Hw, Hp. done.
    + inversion Hrun; subst; simpl. split; [done|]. split.
      * rewrite replay_snoc. simpl. rewrite <- Hw, Hp. done.
      * right. exists e, [], o, ops. done.
Qed.

End Observed.

(** The two loops of a pass perform the operations of [plan], in order. *)
Lemma loops_perform_plan {S} (m : Manager S) (sp sl : ReplicationSlotList) (s : S) :
  (forM_ (Items sp) (λ slot,
     when (negb (Has sl (SlotName slot))) (Create m slot) >> Update m slot) >>
   forM_ (Items sl) (λ slot,
     when (negb (Has sp (SlotName slot))) (Delete m slot))) s
  = forM_ (plan sp sl) (perform m) s.
Proof.
  unfold plan. rewrite forM_app. unfold bind at 1 3.
  rewrite forM_flat_map.
  rewrite (forM_ext (Items sp) _ (λ x, forM_ (upsert sl x) (perform m))).
  - destruct (forM_ (Items sp) _ s) as [[[]|e] s1]; [|reflexivity].
    rewrite forM_flat_map. apply forM_ext. intros x s2.
    unfold prune. destruct (Has sp (SlotName x)); simpl; [reflexivity|].
    by rewrite bind_unit.
  - intros x s2. unfold upsert. destruct (Has sl (SlotName x)); simpl.
    + unfold bind, ret. by destruct (Update m x s2) as [[[]|e] s3].
    + unfold bind, ret. destruct (Create m x s2) as [[[]|e] s3]; [|done].
      by destruct (Update m x s3) as [[[]|e] s4].
Qed.

(** ** Counting the operations of a plan *)

Lemma asked_ok_calls (o : Op) (ops : list Op) :
  asked o (map (ok_call Local) ops) = hits o ops.
Proof.
  unfold asked, hits. induction ops as [|x ops IH]; [reflexivity|].
  simpl. rewrite !filter_cons. simpl.
  destruct (decide (x = o)) as [->|Hne].
  - rewrite decide_True by done. simpl. by rewrite IH.
  - rewrite decide_False; [done|]. by intros [_ ?].
Qed.

Lemma hits_app (o : Op) (l1 l2 : list Op) :
  hits o (l1 ++ l2) = hits o l1 + hits o l2.
Proof. unfold hits. by rewrite list.filter_app, length_app. Qed.

Lemma hits_cons (o x : Op) (ops : list Op) :
  hits o (x :: ops) = (if decide (x = o) then 1 else 0) + hits o ops.
Proof. unfold hits. rewrite filter_cons. by case_decide. Qed.

Lemma occurrences_cons (slot x : ReplicationSlot) (l : list ReplicationSlot) :
  occurrences slot (x :: l) = (if decide (x = slot) then 1 else 0) + occurrences slot l.
Proof. unfold occurrences. rewrite filter_cons. by case_decide. Qed.

Lemma hits_upsert (sl : ReplicationSlotList) (o : Op) (l : list ReplicationSlot) :
  hits o (flat_map (upsert sl) l) =
    match o with
    | OpCreate slot => if Has sl (SlotName slot) then 0 else occurrences slot l
    | OpUpdate slot => occurrences slot l
    | _ => 0
    end.
Proof.
  induction l as [|x l IH].
  - by destruct o; simpl; try destruct (Has sl _).
  - simpl. rewrite hits_app, IH. unfold upsert.
    destruct o as [p c|slot|slot|slot]; destruct (Has sl (SlotName x)) eqn:Hx; simpl;
      rewrite ?hits_cons, ?occurrences_cons; repeat case_decide; simplify_eq/=;
      rewrite ?Hx; try done; destruct (Has sl _); done.
Qed.

Lemma hits_prune (sp : ReplicationSlotList) (o : Op) (l : list ReplicationSlot) :
  hits o (flat_map (prune sp) l) =
    match o with
    | OpDelete slot => if Has sp (SlotName slot) then 0 else occurrences slot l
    | _ => 0
    end.
Proof.
  induction l as [|x l IH].
  - by destruct o; simpl; try destruct (Has sp _).
  - simpl. rewrite hits_app, IH. unfold prune.
    destruct o as [p c|slot|slot|slot]; destruct (Has sp (SlotName x)) eqn:Hx; simpl;
      rewrite ?hits_cons, ?occurrences_cons; repeat case_decide; simplify_eq/=;
      rewrite ?Hx; try done; destruct (Has sp _); done.
Qed.

Lemma hits_plan (sp sl : ReplicationSlotList) (o : Op) :
  hits o (plan sp sl) =
    match o with
    | OpList _ _ => 0
    | OpCreate slot => if Has sl (SlotName slot) then 0 else occurrences slot (Items sp)
    | OpUpdate slot => occurrences slot (Items sp)
    | OpDelete slot => if Has sp (SlotName slot) then 0 else occurrences slot (Items sl)
    end.
Proof.
  unfold plan. rewrite hits_app, hits_upsert, hits_prune.
  destruct o; try done; try by destruct (Has _ _); lia.
Qed.

Section Pass.
Context {W : Type}.
Variables primary local : Manager W.
Variables (podName : string) (config : Config).

(** The shape of every observed pass: it stops at the failing [List], or
    after both lists it performs a prefix of the plan that ends with the
    call that failed, or the whole plan. *)
Lemma pass_shape (w : W) (r : result unit) (s' : Observed W) :
  synchronizeReplicationSlots observe_log
    (observe Primary primary) (observe Local local) podName config (observing w)
    = (r, s') →
  world s' = replay primary local (calls s') w ∧
  ((∃ e, List primary podName config w = (Fail e, world s') ∧
         r = Fail (Errorf "getting replication slot status from primary: " e) ∧
         calls s' = [failed_call Primary (OpList podName config) e]) ∨
   (∃ sp w1,
      List primary podName config w = (Ok sp, w1) ∧
      ((∃ e, List local podName config w1 = (Fail e, world s') ∧
             r = Fail (Errorf "getting replication slot status from local: " e) ∧
             calls s' = [ok_call Primary (OpList podName config);
                         failed_call Local (OpList podName config) e]) ∨
       (∃ sl w2,
          List local podName config w1 = (Ok sl, w2) ∧
          ((r = Ok tt ∧
            calls s' = ok_call Primary (OpList podName config)
                       :: ok_call Local (OpList podName config)
                       :: map (ok_call Local) (plan sp sl)) ∨
           (∃ e pre o rest,
              r = Fail e ∧ plan sp sl = pre ++ o :: rest ∧
              calls s' = ok_call Primary (OpList podName config)
                         :: ok_call Local (OpList podName config)
                         :: map (ok_call Local) pre ++ [failed_call Local o e])))))).
Proof.
  unfold synchronizeReplicationSlots.
  change (List (observe Primary primary) podName config)
    with (record Primary (OpList podName config) (List primary podName config)).
  change (List (observe Local local) podName config)
    with (record Local (OpList podName config) (List local podName config)).
  rewrite record_spec. cbn [fst snd world calls lines observing observe_log err_of app].
  destruct (List primary podName config w) as [[sp|e] w1] eqn:Hp;
    cbn [fst snd world calls lines observing observe_log err_of app].
  - rewrite record_spec. cbn [fst snd world calls lines observing observe_log err_of app].
    destruct (List local podName config w1) as [[sl|e] w2] eqn:Hl;
      cbn [fst snd world calls lines observing observe_log err_of app].
    + rewrite loops_perform_plan. intros Hrun.
      apply (exec_spec primary local w) in Hrun as (_ & Hw & Hc).
      * split; [done|]. right. exists sp, w1. split; [done|]. right.
        exists sl, w2. split; [done|]. simpl in Hc.
        destruct Hc as [[-> ->]|(e & pre & o & rest & -> & Hplan & ->)].
        -- by left.
        -- right. by exists e, pre, o, rest.
      * simpl. unfold replay. simpl. unfold bind. rewrite Hp. simpl. by rewrite Hl.
    + intros [= <- <-]. simpl. split.
      * unfold replay. simpl. unfold bind. rewrite Hp. simpl. by rewrite Hl.
      * right. exists sp, w1. split; [done|]. left. by exists e.
  - intros [= <- <-]. simpl. split.
    + unfold replay. simpl. unfold bind. by rewrite Hp.
    + left. by exists e.
Qed.

(** Every observed pass made a run of successful calls, followed, when
    it failed, by the one call whose error it reports. *)
Lemma pass_calls_split (w : W) (r : result unit) (s' : Observed W) :
  synchronizeReplicationSlots observe_log
    (observe Primary primary) (observe Local local) podName config (observing w)
    = (r, s') →
  ∃ pre, Forall succeeded pre ∧
    ((r = Ok tt ∧ calls s' = pre) ∨
     (∃ c e0, calls s' = pre ++ [c] ∧ outcome c = Some e0 ∧ r = Fail (reported c e0))).
Proof.
  intros Hrun. apply pass_shape in Hrun as [_ Hshape].
  assert (Hoks : ∀ ops, Forall succeeded (map (ok_call Local) ops)).
  { intros ops. apply List.Forall_forall. intros c Hc.
    apply in_map_iff in Hc as (o & <- & _). done. }
  destruct Hshape as [(e & _ & -> & ->)|(sp & w1 & _ & Hshape)].
  { exists []. split; [constructor|]. right.
    by exists (failed_call Primary (OpList podName config) e), e. }
  destruct Hshape as [(e & _ & -> & ->)|(sl & w2 & _ & Hshape)].
  { exists [ok_call Primary (OpList podName config)]. split; [by repeat constructor|].
    right. by exists (failed_call Local (OpList podName config) e), e. }
  destruct Hshape as [[-> ->]|(e & pre & o & rest & -> & Hplan & ->)].
  { eexists. split; [|by left]. by repeat constructor. }
  exists (ok_call Primary (OpList podName config)
          :: ok_call Local (OpList podName config) :: map (ok_call Local) pre).
  split; [by repeat constructor|]. right.
  exists (failed_call Local o e), e. split; [done|]. split; [done|].
  assert (Hin : o ∈ plan sp sl) by (rewrite Hplan; set_solver).
  unfold plan in Hin. apply elem_of_app in Hin as [Hin|Hin];
    rewrite list_elem_of_In in Hin; apply in_flat_map in Hin as (x & _ & Hx).
  - unfold upsert in Hx. destruct (Has sl (SlotName x)); simpl in Hx;
      repeat (destruct Hx as [<-|Hx]; [done|]); done.
  - unfold prune in Hx. destruct (Has sp (SlotName x)); simpl in Hx;
      repeat (destruct Hx as [<-|Hx]; [done|]); done.
Qed.

End Pass.

Lemma failed_call_is_last (pre : list Call) (c : Call) :
  Forall succeeded pre →
  ∀ i c', (pre ++ [c]) !! i = Some c' → outcome c' ≠ None →
          S i = length (pre ++ [c]).
Proof.
  intros Hpre i c' Hi Hfail. rewrite length_app. simpl.
  destruct (decide (i < length pre)) as [Hlt|Hge].
  - rewrite lookup_app_l in Hi by done.
    rewrite Forall_lookup in Hpre. by apply Hpre in Hi.
  - apply lookup_lt_Some in Hi. rewrite length_app in Hi. simpl in Hi. lia.
Qed.

(** ** Convergence over the back ends in memory *)

Lemma named_elem (n : string) (l : list ReplicationSlot) :
  existsb (named n) l = true ↔ n ∈ SlotName <$> l.
Proof.
  rewrite existsb_exists, list_elem_of_fmap. unfold named. split.
  - intros (x & Hx & Hn). apply bool_decide_eq_true in Hn.
    exists x. by rewrite <- list_elem_of_In in Hx.
  - intros (x & -> & Hx). exists x. rewrite <- list_elem_of_In.
    split; [done|]. by apply bool_decide_eq_true.
Qed.

Lemma Has_elem (sl : ReplicationSlotList) (n : string) :
  Has sl n = true ↔ n ∈ SlotName <$> Items sl.
Proof. apply named_elem. Qed.

Lemma perform_mem (o : Op) (db : Databases) :
  ∀ cur', applyMem (localSlots db) o = Some cur' →
          perform (memManager Local) o db = (Ok tt, withSlots Local cur' db).
Proof.
  intros cur'. destruct o as [p c|slot|slot|slot]; simpl.
  - intros [= <-]. by destruct db.
  - destruct (existsb _ _); [done|]. by intros [= <-].
  - destruct (existsb _ _); [|done]. by intros [= <-].
  - destruct (existsb _ _); [|done]. by intros [= <-].
Qed.

Lemma exec_mem (ops : list Op) :
  ∀ (s : Observed Databases) cur',
    applyAll (localSlots (world s)) ops = Some cur' →
    ∃ s', forM_ ops (perform (observe Local (memManager Local))) s = (Ok tt, s') ∧
          world s' = withSlots Local cur' (world s).
Proof.
  induction ops as [|o ops IH]; intros s cur' Hall; simpl in Hall.
  - inversion Hall; subst. exists s. split; [done|]. by destruct (world s).
  - destruct (applyMem (localSlots (world s)) o) as [cur1|] eqn:Ho; [|done].
    simpl. unfold bind. rewrite perform_observe.
    rewrite (perform_mem o (world s) cur1 Ho). simpl.
    edestruct (IH {| world := withSlots Local cur1 (world s);
                     calls := calls s ++ [{| backend := Local; op := o; outcome := None |}];
                     lines := lines s |} cur') as (s' & Hrun & Hw); [done|].
    exists s'. split; [done|]. by rewrite Hw.
Qed.

Lemma applyAll_app (cur : list ReplicationSlot) (ops1 ops2 : list Op) :
  applyAll cur (ops1 ++ ops2) =
    match applyAll cur ops1 with
    | Some cur' => applyAll cur' ops2
    | None => None
    end.
Proof.
  revert cur. induction ops1 as [|o ops1 IH]; intros cur; simpl; [done|].
  destruct (applyMem cur o); [apply IH|done].
Qed.

(** Writing [x] over the slots of its name keeps the names, and makes
    every slot agree with the primary slots seen so far. *)
Lemma overwrite_names (x : ReplicationSlot) (cur : list ReplicationSlot) :
  SlotName <$> map (λ y, if named (SlotName x) y then x else y) cur = SlotName <$> cur.
Proof.
  change (map (λ y, if named (SlotName x) y then x else y) cur)
    with ((λ y, if named (SlotName x) y then x else y) <$> cur).
  rewrite <- list_fmap_compose. apply list_fmap_ext. intros i y _. simpl.
  unfold named. by case_bool_decide.
Qed.

Lemma overwrite_agrees (x : ReplicationSlot) (cur curX seen : list ReplicationSlot) :
  (∀ y, y ∈ curX → y ∈ cur ∨ y = x) →
  SlotName x ∉ SlotName <$> seen →
  (∀ y z, y ∈ cur → z ∈ seen → SlotName y = SlotName z → y = z) →
  ∀ y z, y ∈ map (λ y, if named (SlotName x) y then x else y) curX →
         z ∈ seen ++ [x] → SlotName y = SlotName z → y = z.
Proof.
  intros HcurX Hfresh Hagree y z Hy Hz Hname.
  rewrite list_elem_of_In in Hy. apply in_map_iff in Hy as (y0 & <- & Hy0).
  rewrite <- list_elem_of_In in Hy0.
  apply elem_of_app in Hz as [Hz|Hz%list_elem_of_singleton].
  - unfold named in *. case_bool_decide as Hn.
    + destruct Hfresh. rewrite Hname. by apply list_elem_of_fmap_2.
    + destruct (HcurX y0 Hy0) as [Hcur| ->]; [by eapply Hagree|done].
  - subst z. unfold named in *. case_bool_decide as Hn; [done|]. by destruct Hn.
Qed.

Lemma upserts_mem (sl : ReplicationSlotList) (todo : list ReplicationSlot) :
  ∀ (seen cur : list ReplicationSlot),
    NoDup (SlotName <$> (seen ++ todo)) →
    SlotName <$> cur =
      (SlotName <$> Items sl) ++
      (SlotName <$> filter (λ x, Has sl (SlotName x) = false) seen) →
    (∀ y z, y ∈ cur → z ∈ seen → SlotName y = SlotName z → y = z) →
    ∃ cur',
      applyAll cur (flat_map (upsert sl) todo) = Some cur' ∧
      SlotName <$> cur' =
        (SlotName <$> Items sl) ++
        (SlotName <$> filter (λ x, Has sl (SlotName x) = false) (seen ++ todo)) ∧
      (∀ y z, y ∈ cur' → z ∈ seen ++ todo → SlotName y = SlotName z → y = z).
Proof.
  induction todo as [|x todo IH]; intros seen cur Hnd Hnames Hagree.
  - exists cur. by rewrite app_nil_r.
  - assert (Hfresh : SlotName x ∉ SlotName <$> seen).
    { rewrite fmap_app in Hnd. apply NoDup_app in Hnd as (_ & Hdisj & _).
      intros Hin. apply (Hdisj _ Hin). simpl. left. }
    assert (∃ cur1,
              applyAll cur (upsert sl x) = Some cur1 ∧
              SlotName <$> cur1 =
                (SlotName <$> Items sl) ++
                (SlotName <$> filter (λ x, Has sl (SlotName x) = false) (seen ++ [x])) ∧
              (∀ y z, y ∈ cur1 → z ∈ seen ++ [x] → SlotName y = SlotName z → y = z))
      as (cur1 & Hrun1 & Hnames1 & Hagree1).
    { unfold upsert. rewrite list.filter_app.
      destruct (Has sl (SlotName x)) eqn:Hhas; simpl.
      - assert (Hex : existsb (named (SlotName x)) cur = true).
        { apply named_elem. rewrite Hnames. apply elem_of_app. left.
          by apply Has_elem. }
        rewrite Hex. eexists. split; [reflexivity|]. split.
        + rewrite overwrite_names, Hnames. rewrite filter_cons_False by congruence.
          by rewrite filter_nil, app_nil_r.
        + apply (overwrite_agrees x cur cur seen); auto.
      - assert (Hex : existsb (named (SlotName x)) cur = false).
        { apply not_true_is_false. rewrite named_elem, Hnames.
          intros [Hin|Hin]%elem_of_app.
          - apply Has_elem in Hin. congruence.
          - apply Hfresh. apply list_elem_of_fmap in Hin as (z & -> & Hz).
            apply list_elem_of_filter in Hz as [_ Hz]. by apply list_elem_of_fmap_2. }
        rewrite Hex.
        assert (Hex' : existsb (named (SlotName x)) (cur ++ [x]) = true).
        { apply named_elem. rewrite fmap_app. apply elem_of_app. right. simpl. left. }
        rewrite Hex'. eexists. split; [reflexivity|]. split.
        + rewrite overwrite_names, fmap_app, Hnames.
          rewrite filter_cons_True by done. rewrite filter_nil.
          by rewrite fmap_app, <- app_assoc.
        + apply (overwrite_agrees x cur (cur ++ [x]) seen); auto.
          intros y [Hy|Hy%list_elem_of_singleton]%elem_of_app; auto. }
    destruct (IH (seen ++ [x]) cur1) as (cur' & Hrun & Hnames' & Hagree').
    + by rewrite <- app_assoc.
    + done.
    + done.
    + exists cur'. simpl. rewrite applyAll_app, Hrun1.
      rewrite <- app_assoc in Hnames', Hagree'. done.
Qed.

Lemma prunes_mem (sp : ReplicationSlotList) (cur1 todo : list ReplicationSlot) :
  ∀ (seen cur : list ReplicationSlot),
    NoDup (SlotName <$> (seen ++ todo)) →
    (∀ n, n ∈ SlotName <$> (seen ++ todo) → n ∈ SlotName <$> cur1) →
    (∀ y, y ∈ cur ↔
          y ∈ cur1 ∧ ¬ (SlotName y ∈ SlotName <$> seen ∧ Has sp (SlotName y) = false)) →
    NoDup (SlotName <$> cur) →
    ∃ cur',
      applyAll cur (flat_map (prune sp) todo) = Some cur' ∧
      (∀ y, y ∈ cur' ↔
            y ∈ cur1 ∧
            ¬ (SlotName y ∈ SlotName <$> (seen ++ todo) ∧ Has sp (SlotName y) = false)) ∧
      NoDup (SlotName <$> cur').
Proof.
  induction todo as [|x todo IH]; intros seen cur Hnd Hsub Hkept Hnames.
  - exists cur. by rewrite app_nil_r.
  - assert (Hfresh : SlotName x ∉ SlotName <$> seen).
    { rewrite fmap_app in Hnd. apply NoDup_app in Hnd as (_ & Hdisj & _).
      intros Hin. apply (Hdisj _ Hin). simpl. left. }
    assert (∃ cur2,
              applyAll cur (prune sp x) = Some cur2 ∧
              (∀ y, y ∈ cur2 ↔
                    y ∈ cur1 ∧
                    ¬ (SlotName y ∈ SlotName <$> (seen ++ [x])
                       ∧ Has sp (SlotName y) = false)) ∧
              NoDup (SlotName <$> cur2))
      as (cur2 & Hrun2 & Hkept2 & Hnames2).
    { unfold prune. destruct (Has sp (SlotName x)) eqn:Hhas; simpl.
      - exists cur. split; [done|]. split; [|done].
        intros y. rewrite Hkept, fmap_app, elem_of_app. simpl.
        rewrite list_elem_of_singleton. split.
        + intros [Hy Hnot]. split; [done|]. intros [[Hin|Heq] Hf]; [by apply Hnot|].
          congruence.
        + intros [Hy Hnot]. split; [done|]. intros [Hin Hf]. apply Hnot. auto.
      - assert (Hex : existsb (named (SlotName x)) cur = true).
        { apply named_elem.
          assert (Hin : SlotName x ∈ SlotName <$> cur1).
          { apply Hsub. rewrite fmap_app. apply elem_of_app. right. simpl. left. }
          apply list_elem_of_fmap in Hin as (y & Hn & Hy).
          rewrite Hn. apply list_elem_of_fmap_2. apply Hkept. split; [done|].
          intros [Hin _]. apply Hfresh. by rewrite Hn. }
        rewrite Hex. eexists. split; [reflexivity|]. split.
        + intros y. rewrite list_elem_of_filter, Hkept, fmap_app, elem_of_app. simpl.
          rewrite list_elem_of_singleton. split.
          * intros (Hne & Hy & Hnot). split; [done|].
            intros [[Hin|Heq] Hf]; [by apply Hnot|done].
          * intros [Hy Hnot]. split; [|split; [done|]].
            -- intros Heq. apply Hnot. split; [by right|]. by rewrite Heq.
            -- intros [Hin Hf]. apply Hnot. auto.
        + eapply sublist_NoDup; [exact Hnames|].
          apply fmap_sublist, sublist_filter. }
    destruct (IH (seen ++ [x]) cur2) as (cur' & Hrun & Hkept' & Hnames').
    + by rewrite <- app_assoc.
    + intros n Hn. apply Hsub. by rewrite <- app_assoc in Hn.
    + done.
    + done.
    + exists cur'. simpl. rewrite applyAll_app, Hrun2.
      split; [done|]. split; [|done].
      intros y. rewrite Hkept'. by rewrite <- app_assoc.
Qed.

(** Over back ends in memory whose slot names are unique, a pass
    succeeds, leaves the primary as it was, and leaves on the replica
    the slots of the primary. *)
Lemma pass_converges_in_memory (podName : string) (config : Config) (db : Databases) :
  NoDup (SlotName <$> primarySlots db) →
  NoDup (SlotName <$> localSlots db) →
  ∃ s',
    synchronizeReplicationSlots observe_log
      (observe Primary (memManager Primary)) (observe Local (memManager Local))
      podName config (observing db) = (Ok tt, s') ∧
    primarySlots (world s') = primarySlots db ∧
    localSlots (world s') ≡ₚ primarySlots db.
Proof.
  intros HndP HndL.
  set (sp := {| Items := primarySlots db |}).
  set (sl := {| Items := localSlots db |}).
  destruct (upserts_mem sl (primarySlots db) [] (localSlots db))
    as (cur1 & Hrun1 & Hnames1 & Hagree1).
  { done. }
  { simpl. by rewrite app_nil_r. }
  { intros y z _ Hz. by apply not_elem_of_nil in Hz. }
  simpl in Hnames1, Hagree1.
  assert (Hnd1 : NoDup (SlotName <$> cur1)).
  { rewrite Hnames1. apply NoDup_app. split; [done|]. split.
    - intros n Hn Hn'. apply list_elem_of_fmap in Hn' as (z & -> & Hz).
      apply list_elem_of_filter in Hz as [Hz _]. apply (Has_elem sl) in Hn. congruence.
    - eapply sublist_NoDup; [exact HndP|]. apply fmap_sublist, sublist_filter. }
  destruct (prunes_mem sp cur1 (localSlots db) [] cur1)
    as (cur2 & Hrun2 & Hkept2 & Hnd2).
  { done. }
  { intros n Hn. rewrite Hnames1. apply elem_of_app. by left. }
  { intros y. split; [|by intros [? _]]. intros Hy. split; [done|].
    intros [Hin _]. by apply not_elem_of_nil in Hin. }
  { done. }
  simpl in Hkept2.
  assert (Hplan : applyAll (localSlots db) (plan sp sl) = Some cur2).
  { unfold plan. change (Items sp) with (primarySlots db).
    change (Items sl) with (localSlots db). by rewrite applyAll_app, Hrun1. }
  unfold synchronizeReplicationSlots.
  change (List (observe Primary (memManager Primary)) podName config)
    with (record Primary (OpList podName config) (List (memManager Primary) podName config)).
  change (List (observe Local (memManager Local)) podName config)
    with (record Local (OpList podName config) (List (memManager Local) podName config)).
  rewrite record_spec. cbn [fst snd world calls lines observing observe_log err_of app].
  cbn [List memManager fst snd slotsOf].
  rewrite record_spec. cbn [fst snd world calls lines observing observe_log err_of app].
  cbn [List memManager fst snd slotsOf].
  fold sp sl. rewrite loops_perform_plan.
  edestruct (exec_mem (plan sp sl)) as (s' & Hrun & Hw); [|exists s'; split; [exact Hrun|]].
  { exact Hplan. }
  rewrite Hw. simpl. split; [done|].
  apply NoDup_Permutation.
  - by eapply NoDup_fmap_1.
  - by eapply NoDup_fmap_1.
  - intros y. rewrite Hkept2. split.
    + intros [Hy Hnot].
      assert (Hn : SlotName y ∈ SlotName <$> cur1) by by apply list_elem_of_fmap_2.
      rewrite Hnames1 in Hn. apply elem_of_app in Hn as [Hn|Hn].
      * destruct (Has sp (SlotName y)) eqn:Hhas; [|by destruct Hnot].
        apply Has_elem in Hhas. apply list_elem_of_fmap in Hhas as (z & Hname & Hz).
        by rewrite (Hagree1 y z Hy Hz Hname).
      * apply list_elem_of_fmap in Hn as (z & Hname & Hz).
        apply list_elem_of_filter in Hz as [_ Hz].
        by rewrite (Hagree1 y z Hy Hz Hname).
    + intros Hy.
      assert (Hn : SlotName y ∈ SlotName <$> cur1).
      { rewrite Hnames1. apply elem_of_app.
        destruct (Has sl (SlotName y)) eqn:Hhas.
        - left. by apply (Has_elem sl).
        - right. apply list_elem_of_fmap_2. by apply list_elem_of_filter. }
      apply list_elem_of_fmap in Hn as (y' & Hname & Hy').
      rewrite <- (Hagree1 y' y Hy' Hy (eq_sym Hname)). split; [done|].
      intros [_ Hf]. rewrite <- Hname in Hf.
      assert (Has sp (SlotName y) = true)
        by (apply (Has_elem sp); simpl; by apply list_elem_of_fmap_2).
      congruence.
Qed.

(** ** Claims about one pass *)

(** C1.  Whatever two lists the [List] calls of a pass return, a pass
    that runs to its end asks the local manager, in this order: for each
    item of the primary list a [Create] if its name is missing in the
    local list, then an [Update]; then for each item of the local list a
    [Delete] if its name is missing in the primary list.  So [Create] is
    asked once per primary item with a name missing locally, [Update]
    once per primary item, [Delete] once per local item with a name
    missing on the primary, and nothing else is asked.  Over back ends
    in memory with unique slot names a pass succeeds and leaves on the
    replica the slots of the primary; with primary slots A, B and local
    slots B, C it makes one [Create] (A), two [Update]s (A, B) and one
    [Delete] (C), and leaves the local slots A and B. *)
Theorem pass_creates_updates_deletes :
  (∀ (W : Type) (primary local : Manager W) (podName : string) (config : Config)
     (w w1 w2 : W) (sp sl : ReplicationSlotList) (s' : Observed W),
     List primary podName config w = (Ok sp, w1) →
     List local podName config w1 = (Ok sl, w2) →
     synchronizeReplicationSlots observe_log
       (observe Primary primary) (observe Local local) podName config (observing w)
       = (Ok tt, s') →
     calls s' = ok_call Primary (OpList podName config)
                :: ok_call Local (OpList podName config)
                :: map (ok_call Local) (plan sp sl) ∧
     (∀ slot, asked (OpCreate slot) (calls s') =
                if Has sl (SlotName slot) then 0 else occurrences slot (Items sp)) ∧
     (∀ slot, asked (OpUpdate slot) (calls s') = occurrences slot (Items sp)) ∧
     (∀ slot, asked (OpDelete slot) (calls s') =
                if Has sp (SlotName slot) then 0 else occurrences slot (Items sl))) ∧
  (∀ (podName : string) (config : Config) (db : Databases),
     NoDup (SlotName <$> primarySlots db) →
     NoDup (SlotName <$> localSlots db) →
     ∃ s',
       synchronizeReplicationSlots observe_log
         (observe Primary (memManager Primary)) (observe Local (memManager Local))
         podName config (observing db) = (Ok tt, s') ∧
       primarySlots (world s') = primarySlots db ∧
       localSlots (world s') ≡ₚ primarySlots db) ∧
  (∃ s',
     synchronizeReplicationSlots observe_log
       (observe Primary (memManager Primary)) (observe Local (memManager Local))
       "pod-1" (haConfig true 30) (observing exampleDatabases) = (Ok tt, s') ∧
     primarySlots (world s') = [slotA; slotB] ∧
     localSlots (world s') ≡ₚ [slotA; slotB] ∧
     calls s' = [ok_call Primary (OpList "pod-1" (haConfig true 30));
                 ok_call Local (OpList "pod-1" (haConfig true 30));
                 ok_call Local (OpCreate slotA);
                 ok_call Local (OpUpdate slotA);
                 ok_call Local (OpUpdate slotB);
                 ok_call Local (OpDelete slotC)]).
Proof.
  split.
  - intros W primary local podName config w w1 w2 sp sl s' Hp Hl Hrun.
    apply pass_shape in Hrun as [_ Hshape].
    destruct Hshape as [(e & _ & [=] & _)|(sp' & w1' & Hp' & Hshape)].
    rewrite Hp in Hp'. simplify_eq.
    destruct Hshape as [(e & _ & [=] & _)|(sl' & w2' & Hl' & Hshape)].
    rewrite Hl in Hl'. simplify_eq.
    destruct Hshape as [[_ Hc]|(e & pre & o & rest & [=] & _)].
    rewrite Hc. split; [done|].
    assert (Hask : ∀ o, (∀ p c, o ≠ OpList p c) →
              asked o (ok_call Primary (OpList podName config)
                       :: ok_call Local (OpList podName config)
                       :: map (ok_call Local) (plan sp' sl')) = hits o (plan sp' sl')).
    { intros o Ho. rewrite <- asked_ok_calls. unfold asked at 1.
      rewrite !filter_cons. rewrite !decide_False; [done|..].
      - simpl. intros [_ ?]. by eapply Ho.
      - simpl. by intros [? _]. }
    repeat split; intros slot; rewrite Hask by done; by rewrite hits_plan.
  - split; [apply pass_converges_in_memory|].
    eexists. split; [vm_compute; reflexivity|]. simpl.
    split; [done|]. split; [|done]. apply Permutation_swap.
Qed.

Lemma pass_creates_updates_deletes_witness :
  asked (OpCreate slotA)
    (calls (snd (synchronizeReplicationSlots observe_log
                   (observe Primary (memManager Primary)) (observe Local (memManager Local))
                   "pod-1" (haConfig true 30) (observing exampleDatabases)))) = 1 ∧
  asked (OpUpdate slotB)
    (calls (snd (synchronizeReplicationSlots observe_log
                   (observe Primary (memManager Primary)) (observe Local (memManager Local))
                   "pod-1" (haConfig true 30) (observing exampleDatabases)))) = 1 ∧
  asked (OpDelete slotC)
    (calls (snd (synchronizeReplicationSlots observe_log
                   (observe Primary (memManager Primary)) (observe Local (memManager Local))
                   "pod-1" (haConfig true 30) (observing exampleDatabases)))) = 1 ∧
  ∃ s',
    synchronizeReplicationSlots observe_log
      (observe Primary (memManager Primary)) (observe Local (memManager Local))
      "pod-1" (haConfig true 30) (observing exampleDatabases) = (Ok tt, s') ∧
    primarySlots (world s') = primarySlots exampleDatabases ∧
    localSlots (world s') ≡ₚ primarySlots exampleDatabases.
Proof.
  pose proof (proj1 pass_creates_updates_deletes Databases
                (memManager Primary) (memManager Local) "pod-1" (haConfig true 30)
                exampleDatabases exampleDatabases exampleDatabases
                {| Items := [slotA; slotB] |} {| Items := [staleB; slotC] |}
                (snd (synchronizeReplicationSlots observe_log
                   (observe Primary (memManager Primary)) (observe Local (memManager Local))
                   "pod-1" (haConfig true 30) (observing exampleDatabases)))
                eq_refl eq_refl eq_refl) as (_ & Hc & Hu & Hd).
  split; [|split; [|split]].
  - rewrite (Hc slotA). reflexivity.
  - rewrite (Hu slotB). reflexivity.
  - rewrite (Hd slotC). reflexivity.
  - apply (proj1 (proj2 pass_creates_updates_deletes) "pod-1" (haConfig true 30)
             exampleDatabases).
    + apply (bool_decide_unpack _). vm_compute. exact I.
    + apply (bool_decide_unpack _). vm_compute. exact I.
Defined.

(** C7.  In every observed pass a call that returned an error is the
    last call the pass made (so nothing is done after it, a rollback
    included); the pass fails exactly when its last call failed and
    returns that error (wrapped in a message for the two [List] calls);
    the back ends are left as the calls made so far left them.  In the
    loop, a failing pass is logged and the goroutine goes back to the
    [select] with its configuration, interval and ticker, where it can
    receive again. *)
Theorem pass_error_aborts_pass_only :
  (∀ (W : Type) (primary local : Manager W) (podName : string) (config : Config)
     (w : W) (r : result unit) (s' : Observed W),
     synchronizeReplicationSlots observe_log
       (observe Primary primary) (observe Local local) podName config (observing w)
       = (r, s') →
     (∀ i c, calls s' !! i = Some c → outcome c ≠ None → S i = length (calls s')) ∧
     (∀ e, r = Fail e ↔
           ∃ c e0, list.last (calls s') = Some c ∧ outcome c = Some e0 ∧ e = reported c e0) ∧
     world s' = replay primary local (calls s') w) ∧
  (∀ (S : Type) (log : LogLine → S → S) (primary local : Manager S)
     (PodName : string) (GetUpdateInterval : Config → Z)
     (config : Config) (updateInterval : Z) (ticker ticker' : Ticker)
     (s s1 : S) (err : error),
     disabled config = false →
     (if bool_decide (updateInterval ≠ GetUpdateInterval config)
      then Reset ticker (GetUpdateInterval config) else Some ticker) = Some ticker' →
     synchronizeReplicationSlots log primary local PodName config
       (log (LogTrace "Synchronizing") s) = (Fail err, s1) →
     iteration log primary local PodName GetUpdateInterval config updateInterval ticker s
       = (Selecting config (GetUpdateInterval config) ticker',
          log (LogError err "synchronizing replication slots") s1) ∧
     (∀ ev s2, ev ≠ TickElapsed ∨ running ticker' = true →
       is_Some (step log primary local PodName GetUpdateInterval
                  (Selecting config (GetUpdateInterval config) ticker') ev s2))).
Proof.
  split.
  - intros W primary local podName config w r s' Hrun.
    pose proof (pass_shape _ _ _ _ _ _ _ Hrun) as [Hw _].
    apply pass_calls_split in Hrun as (pre & Hpre & Hcases).
    split; [|split; [|done]].
    + intros i c Hi Hfail.
      destruct Hcases as [[_ Hc]|(c0 & e0 & Hc & _ & _)]; rewrite Hc in Hi |- *.
      * rewrite Forall_lookup in Hpre. by apply Hpre in Hi.
      * by eapply failed_call_is_last.
    + intros e. destruct Hcases as [[-> Hc]|(c0 & e0 & Hc & Hout & ->)]; rewrite Hc.
      * split; [done|]. intros (c & e0 & Hlast & Hout & _).
        apply last_Some in Hlast as [l' ->].
        apply Forall_app in Hpre as [_ Hpre]. apply Forall_inv in Hpre.
        unfold succeeded in Hpre. congruence.
      * rewrite last_snoc. split.
        -- intros [= <-]. by exists c0, e0.
        -- intros (c & e1 & [= <-] & Hout' & ->). congruence.
  - intros S log primary local PodName GetUpdateInterval config updateInterval
      ticker ticker' s s1 err Hen Hreset Hpass.
    split.
    + unfold iteration. rewrite Hen, Hreset. cbv zeta. by rewrite Hpass.
    + intros ev s2 Hev. destruct ev as [|c|]; simpl; [eauto..|].
      destruct Hev as [?| ->]; [done|eauto].
Qed.

Lemma pass_error_aborts_pass_only_witness :
  fst failingPass = Fail connectionLost ∧
  localSlots (world (snd failingPass)) = [staleB; slotC; slotA].
Proof.
  destruct (proj1 pass_error_aborts_pass_only Databases
              (memManager Primary) (failingOn isUpdate connectionLost (memManager Local))
              "pod-1" (haConfig true 30) exampleDatabases
              (fst failingPass) (snd failingPass) eq_refl)
    as (_ & Hfail & Hworld).
  split.
  - apply Hfail.
    exists (failed_call Local (OpUpdate slotA) connectionLost), connectionLost.
    vm_compute. done.
  - rewrite Hworld. vm_compute. reflexivity.
Defined.

(** ** Claims about the event loop *)

(** C2.  Once a configuration that disables replication has stopped the
    ticker, a configuration that enables it again with the interval that
    was in effect does not restart the ticker: the pass triggered by its
    arrival runs, the ticker stays stopped, and no tick can be received
    afterwards.  A configuration that enables it with another (positive)
    interval does restart the ticker, with that period. *)
Theorem stopped_ticker_not_restarted
    {S : Type} (log : LogLine → S → S) (primary local : Manager S)
    (PodName : string) (GetUpdateInterval : Config → Z)
    (previous off on : Config) (updateInterval : Z) (ticker : Ticker) (s : S) :
  disabled off = true →
  disabled on = false →
  GetUpdateInterval on = updateInterval →
  step log primary local PodName GetUpdateInterval
    (Selecting previous updateInterval ticker) (ConfigPushed off) s
    = Some (Selecting off updateInterval (Stop ticker), s) ∧
  (∃ s', step log primary local PodName GetUpdateInterval
           (Selecting off updateInterval (Stop ticker)) (ConfigPushed on) s
         = Some (Selecting on updateInterval (Stop ticker), s')) ∧
  (∀ s', step log primary local PodName GetUpdateInterval
           (Selecting on updateInterval (Stop ticker)) TickElapsed s' = None) ∧
  (∀ other,
     disabled other = false →
     GetUpdateInterval other ≠ updateInterval →
     (0 < GetUpdateInterval other)%Z →
     ∃ s', step log primary local PodName GetUpdateInterval
             (Selecting off updateInterval (Stop ticker)) (ConfigPushed other) s
           = Some (Selecting other (GetUpdateInterval other)
                     {| period := GetUpdateInterval other; running := true |}, s')).
Proof.
  intros Hoff Hon Hint. split; [|split; [|split]].
  - simpl. unfold iteration. by rewrite Hoff.
  - simpl. unfold iteration. rewrite Hon, Hint.
    rewrite bool_decide_false by (intros ?; done). cbv zeta.
    destruct (synchronizeReplicationSlots _ _ _ _ _ _) as [[[]|e] s']; eauto.
  - done.
  - intros other Hen Hne Hpos. simpl. unfold iteration. rewrite Hen.
    rewrite bool_decide_true by done. unfold Reset.
    rewrite bool_decide_false by lia. cbv zeta.
    destruct (synchronizeReplicationSlots _ _ _ _ _ _) as [[[]|e] s']; eauto.
Qed.

Lemma stopped_ticker_not_restarted_witness :
  run observe_log (observe Primary (memManager Primary)) (observe Local (memManager Local))
      "pod-1" intervalOf WaitingForConfig
      [ConfigPushed (haConfig true 30); ConfigPushed (haConfig false 30);
       ConfigPushed (haConfig true 30); TickElapsed]
      (observing exampleDatabases) = None ∧
  ∀ s', step observe_log
          (observe Primary (memManager Primary)) (observe Local (memManager Local))
          "pod-1" intervalOf
          (Selecting (haConfig true 30) 30 {| period := 30; running := false |})
          TickElapsed s' = None.
Proof.
  split; [vm_compute; reflexivity|].
  apply (stopped_ticker_not_restarted observe_log
           (observe Primary (memManager Primary)) (observe Local (memManager Local))
           "pod-1" intervalOf (haConfig true 30) (haConfig false 30) (haConfig true 30)
           30 {| period := 30; running := true |} (observing exampleDatabases));
    reflexivity.
Defined.

(** C3.  At the [select] of the loop cancellation is received: the
    ticker is stopped, the final message is logged and the goroutine
    returns.  Before the first configuration the goroutine receives
    from the channel of configurations only: cancellation is not
    received there, and a goroutine that ever terminates has received a
    configuration first. *)
Theorem cancellation_not_received_before_first_config
    {S : Type} (log : LogLine → S → S) (primary local : Manager S)
    (PodName : string) (GetUpdateInterval : Config → Z) :
  (∀ config updateInterval ticker s,
     step log primary local PodName GetUpdateInterval
       (Selecting config updateInterval ticker) CtxDone s
     = Some (Terminated (Stop ticker), log (LogInfo "Terminated slot Replicator loop") s)) ∧
  (∀ s, step log primary local PodName GetUpdateInterval WaitingForConfig CtxDone s = None) ∧
  (∀ evs s, run log primary local PodName GetUpdateInterval
              WaitingForConfig (CtxDone :: evs) s = None) ∧
  (∀ evs s ticker s',
     run log primary local PodName GetUpdateInterval WaitingForConfig evs s
       = Some (Terminated ticker, s') →
     ∃ config evs', evs = ConfigPushed config :: evs').
Proof.
  split; [done|]. split; [done|]. split; [done|].
  intros [|[|config|] evs] s ticker s' Hrun; try done. by exists config, evs.
Qed.

Lemma cancellation_not_received_before_first_config_witness :
  ∃ config evs',
    [ConfigPushed (haConfig true 30); CtxDone] = ConfigPushed config :: evs'.
Proof.
  apply (proj2 (proj2 (proj2 (cancellation_not_received_before_first_config
                                observe_log
                                (observe Primary (memManager Primary))
                                (observe Local (memManager Local))
                                "pod-1" intervalOf)))
           [ConfigPushed (haConfig true 30); CtxDone] (observing exampleDatabases)
           {| period := 30; running := false |}
           (observe_log (LogInfo "Terminated slot Replicator loop")
              (observing exampleDatabases))).
  reflexivity.
Defined.

End runner_proofs.

(** * Properties of the PKI coordinator *)

Module certs_proofs.
Import certs.

(** ** Sequencing *)

Lemma bind_Ok {S A B} (m : M S A) (k : A → M S B) (s s1 : S) (a : A) :
  m s = (Ok a, s1) → bind m k s = k a s1.
Proof. intros H. unfold bind. by rewrite H. Qed.

Lemma bind_Fail {S A B} (m : M S A) (k : A → M S B) (s s1 : S) (e : error) :
  m s = (Fail e, s1) → bind m k s = (Fail e, s1).
Proof. intros H. unfold bind. by rewrite H. Qed.

Lemma attempt_eq {S A} (m : M S A) (s s1 : S) (r : result A) :
  m s = (r, s1) → attempt m s = (Ok r, s1).
Proof. intros H. unfold attempt. by rewrite H. Qed.

Lemma call_eq {W A} (m : M W A) (s : State W) (r : result A) (w : W) :
  m (world s) = (r, w) →
  call m s = (r, {| world := w; heap := heap s; lines := lines s |}).
Proof. intros H. unfold call. by rewrite H. Qed.

Lemma traced_eq {W K A} (e : Ext K) (m : M W A) (t : Traced W K) (r : result A) (w : W) :
  m (inner t) = (r, w) →
  traced e m t = (r, {| inner := w; trace := trace t ++ [e] |}).
Proof. intros H. unfold traced. by rewrite H. Qed.

(** ** Claims about [Setup] *)

(** C4, as the code has it.  [Setup] runs [EnsureRootCACertificate],
    [EnsureCertificate] on the secret the first returned,
    [DumpSecretToDir] on the secret the second returned, then the
    injection into the mutating and into the validating configuration.
    The first step that fails ends the run with its error, in the state
    that step left, except that a NotFound error returned by either
    injection (whichever of its calls it comes from) is logged and the
    run goes on.  An injection whose fetch fails returns the error of
    the fetch without having called update.  On a cluster with neither
    configuration [Setup] succeeds, with both secrets stored, the server
    secret dumped and the two messages logged. *)
Theorem Setup_runs_steps_in_order :
  (∀ (W K : Type) (client : Interface W) (fs : FileSystem W) (pki : PKI W K)
     (rangeOf : gmap string bytes → list (string * bytes))
     (webhook : WebhookEnvironment) (s : State W),
     (∀ e s1,
        EnsureRootCACertificate client pki (OperatorNamespace webhook)
          (CaSecretName webhook) s = (Fail e, s1) →
        Setup client fs pki rangeOf webhook s = (Fail e, s1)) ∧
     (∀ caSecret s1,
        EnsureRootCACertificate client pki (OperatorNamespace webhook)
          (CaSecretName webhook) s = (Ok caSecret, s1) →
        (∀ e s2,
           EnsureCertificate client pki webhook caSecret s1 = (Fail e, s2) →
           Setup client fs pki rangeOf webhook s = (Fail e, s2)) ∧
        (∀ webhookSecret s2,
           EnsureCertificate client pki webhook caSecret s1 = (Ok webhookSecret, s2) →
           (∀ e s3,
              DumpSecretToDir fs rangeOf webhookSecret (CertDir webhook) s2 = (Fail e, s3) →
              Setup client fs pki rangeOf webhook s = (Fail e, s3)) ∧
           (∀ s3 r4 s4,
              DumpSecretToDir fs rangeOf webhookSecret (CertDir webhook) s2 = (Ok tt, s3) →
              InjectPublicKeyIntoMutatingWebhook client webhook webhookSecret s3 = (r4, s4) →
              (aborts r4 = true → Setup client fs pki rangeOf webhook s = (r4, s4)) ∧
              (aborts r4 = false →
               ∀ r5 s5,
                 InjectPublicKeyIntoValidatingWebhook client webhook webhookSecret
                   (skipped mutatingNotFound r4 s4) = (r5, s5) →
                 (aborts r5 = true → Setup client fs pki rangeOf webhook s = (r5, s5)) ∧
                 (aborts r5 = false →
                  Setup client fs pki rangeOf webhook s
                    = (Ok tt, skipped validatingNotFound r5 s5)))))) ∧
     (∀ tlsSecret e w1,
        MutatingGet client (MutatingWebhookConfigurationName webhook) (world s)
          = (Fail e, w1) →
        InjectPublicKeyIntoMutatingWebhook client webhook tlsSecret s
          = (Fail e, {| world := w1; heap := heap s; lines := lines s |})) ∧
     (∀ tlsSecret e w1,
        ValidatingGet client (ValidatingWebhookConfigurationName webhook) (world s)
          = (Fail e, w1) →
        InjectPublicKeyIntoValidatingWebhook client webhook tlsSecret s
          = (Fail e, {| world := w1; heap := heap s; lines := lines s |}))) ∧
  (fst (observedSetup memClient emptyCluster) = Ok tt ∧
   lines (snd (observedSetup memClient emptyCluster))
     = [LogInfo mutatingNotFound; LogInfo validatingNotFound] ∧
   (let c := inner (world (snd (observedSetup memClient emptyCluster))) in
    is_Some (secrets c !! (OperatorNamespace exampleEnvironment,
                           CaSecretName exampleEnvironment)) ∧
    is_Some (secrets c !! (OperatorNamespace exampleEnvironment,
                           SecretName exampleEnvironment)) ∧
    dom (files c) = {[ "/tmp/certs/tls.crt"; "/tmp/certs/tls.key";
                       "/tmp/certs/resource" ]} ∧
    mutating c = ∅ ∧ validating c = ∅)).
Proof.
  split.
  - intros W K client fs pki rangeOf webhook s. split; [|split; [|split]].
    + intros e s1 H1. unfold Setup. by rewrite (bind_Fail _ _ _ _ _ H1).
    + intros caSecret s1 H1. split.
      * intros e s2 H2. unfold Setup. rewrite (bind_Ok _ _ _ _ _ H1).
        by rewrite (bind_Fail _ _ _ _ _ H2).
      * intros webhookSecret s2 H2. split.
        -- intros e s3 H3. unfold Setup. rewrite (bind_Ok _ _ _ _ _ H1).
           rewrite (bind_Ok _ _ _ _ _ H2). by rewrite (bind_Fail _ _ _ _ _ H3).
        -- intros s3 r4 s4 H3 H4.
           assert (Hgo : Setup client fs pki rangeOf webhook s =
             (match r4 with
              | Fail err => if IsNotFound err then info mutatingNotFound else fail err
              | Ok _ => ret tt
              end >>
              let* err := attempt (InjectPublicKeyIntoValidatingWebhook
                                     client webhook webhookSecret) in
              match err with
              | Fail err => if IsNotFound err then info validatingNotFound else fail err
              | Ok _ => ret tt
              end >> ret tt) s4).
           { unfold Setup. rewrite (bind_Ok _ _ _ _ _ H1).
             rewrite (bind_Ok _ _ _ _ _ H2). rewrite (bind_Ok _ _ _ _ _ H3).
             by rewrite (bind_Ok _ _ _ _ _ (attempt_eq _ _ _ _ H4)). }
           split.
           ++ intros Hab. rewrite Hgo. destruct r4 as [[]|e]; [done|]. simpl in Hab.
              destruct (IsNotFound e); [done|]. reflexivity.
           ++ intros Hok r5 s5 H5.
              assert (Hgo' : Setup client fs pki rangeOf webhook s =
                (match r5 with
                 | Fail err => if IsNotFound err then info validatingNotFound else fail err
                 | Ok _ => ret tt
                 end >> ret tt) s5).
              { rewrite Hgo. destruct r4 as [[]|e]; simpl in Hok, H5 |- *.
                - unfold bind at 1. unfold ret at 1.
                  by rewrite (bind_Ok _ _ _ _ _ (attempt_eq _ _ _ _ H5)).
                - destruct (IsNotFound e); [|done].
                  unfold bind at 1. unfold info at 1.
                  by rewrite (bind_Ok _ _ _ _ _ (attempt_eq _ _ _ _ H5)). }
              split.
              ** intros Hab. rewrite Hgo'. destruct r5 as [[]|e]; [done|].
                 simpl in Hab. destruct (IsNotFound e); [done|]. reflexivity.
              ** intros Hok5. rewrite Hgo'. destruct r5 as [[]|e]; [done|].
                 simpl in Hok5 |- *. destruct (IsNotFound e); [|done]. reflexivity.
    + intros tlsSecret e w1 Hget. unfold InjectPublicKeyIntoMutatingWebhook.
      by rewrite (bind_Fail _ _ _ _ _ (call_eq _ _ _ _ Hget)).
    + intros tlsSecret e w1 Hget. unfold InjectPublicKeyIntoValidatingWebhook.
      by rewrite (bind_Fail _ _ _ _ _ (call_eq _ _ _ _ Hget)).
  - split; [vm_compute; reflexivity|]. split; [vm_compute; reflexivity|].
    cbv zeta. split; [vm_compute; eauto|]. split; [vm_compute; eauto|].
    split; [vm_compute; reflexivity|]. split; vm_compute; reflexivity.
Qed.

Lemma Setup_runs_steps_in_order_witness :
  fst (Setup memClient memFS toyPKI map_to_list exampleEnvironment (starting emptyCluster))
    = Ok tt.
Proof.
  pose (s0 := starting emptyCluster).
  pose (s1 := snd (EnsureRootCACertificate memClient toyPKI
                     (OperatorNamespace exampleEnvironment)
                     (CaSecretName exampleEnvironment) s0)).
  pose (s2 := snd (EnsureCertificate memClient toyPKI exampleEnvironment 1 s1)).
  pose (s3 := snd (DumpSecretToDir memFS map_to_list 3 (CertDir exampleEnvironment) s2)).
  pose (i4 := InjectPublicKeyIntoMutatingWebhook memClient exampleEnvironment 3 s3).
  pose (i5 := InjectPublicKeyIntoValidatingWebhook memClient exampleEnvironment 3
                (skipped mutatingNotFound (fst i4) (snd i4))).
  destruct (proj1 Setup_runs_steps_in_order Cluster string memClient memFS toyPKI
              map_to_list exampleEnvironment s0) as (_ & H & _ & _).
  assert (H1 : EnsureRootCACertificate memClient toyPKI
                 (OperatorNamespace exampleEnvironment)
                 (CaSecretName exampleEnvironment) s0 = (Ok 1, s1))
    by (vm_compute; reflexivity).
  destruct (H 1 s1 H1) as [_ H2].
  assert (H2' : EnsureCertificate memClient toyPKI exampleEnvironment 1 s1 = (Ok 3, s2))
    by (vm_compute; reflexivity).
  destruct (H2 3 s2 H2') as [_ H3].
  assert (H3' : DumpSecretToDir memFS map_to_list 3 (CertDir exampleEnvironment) s2
                = (Ok tt, s3)) by (vm_compute; reflexivity).
  assert (H4' : i4 = (fst i4, snd i4)) by (vm_compute; reflexivity).
  destruct (H3 s3 (fst i4) (snd i4) H3' H4') as [_ H4].
  assert (Hok4 : aborts (fst i4) = false) by (vm_compute; reflexivity).
  assert (H5' : i5 = (fst i5, snd i5)) by (vm_compute; reflexivity).
  destruct (H4 Hok4 (fst i5) (snd i5) H5') as [_ H5].
  assert (Hok5 : aborts (fst i5) = false) by (vm_compute; reflexivity).
  fold s0. rewrite (H5 Hok5). reflexivity.
Defined.

(** C4, as stated, fails: a NotFound error that does not come from a
    fetch is skipped as well.  With a mutating configuration that is
    fetched and then gone when the update arrives, [Setup] logs the
    message, goes on to the validating configuration and succeeds. *)
Lemma Setup_skips_not_found_from_update :
  fst (MutatingGet (deletedBeforeUpdate memClient)
         (MutatingWebhookConfigurationName exampleEnvironment) clusterWithWebhooks)
    = Ok (exampleConfiguration (MutatingWebhookConfigurationName exampleEnvironment)) ∧
  (∀ config c, fst (MutatingUpdate (deletedBeforeUpdate memClient) config c)
               = Fail (NotFoundError ("mutatingwebhookconfigurations "
                                      +:+ ConfigName config))) ∧
  fst (observedSetup (deletedBeforeUpdate memClient) clusterWithWebhooks) = Ok tt ∧
  lines (snd (observedSetup (deletedBeforeUpdate memClient) clusterWithWebhooks))
    = [LogInfo mutatingNotFound] ∧
  ∃ updatedM updatedV,
    drop 10 (trace (world (snd (observedSetup (deletedBeforeUpdate memClient)
                                  clusterWithWebhooks))))
    = [MutatingGetCall (MutatingWebhookConfigurationName exampleEnvironment);
       MutatingUpdateCall updatedM;
       ValidatingGetCall (ValidatingWebhookConfigurationName exampleEnvironment);
       ValidatingUpdateCall updatedV].
Proof.
  split; [vm_compute; reflexivity|]. split; [reflexivity|].
  split; [vm_compute; reflexivity|]. split; [vm_compute; reflexivity|].
  eexists _, _. vm_compute. reflexivity.
Qed.

(** ** Claims about the injection *)

Lemma injectCABundle_lookup (bundle : bytes) (config : WebhookConfiguration)
    (i : nat) (entry : Webhook) :
  Webhooks config !! i = Some entry →
  Webhooks (injectCABundle bundle config) !! i = Some (setCABundle bundle entry).
Proof.
  intros Hi. unfold injectCABundle. simpl.
  change (map (setCABundle bundle) (Webhooks config))
    with (setCABundle bundle <$> Webhooks config).
  by rewrite list_lookup_fmap, Hi.
Qed.

(** C5, as the code has it.  Both injections fetch the named
    configuration, overwrite the [CABundle] of every entry of its list
    with the bytes of the field [tls.crt] of the secret they are given
    (empty when the field is missing) and hand the result to update; the
    name of the configuration, the number and order of the entries and
    every other field of an entry are as fetched. *)
Theorem injection_overwrites_every_bundle
    {W : Type} (client : Interface W) (webhook : WebhookEnvironment)
    (tlsSecret : ptr) (v : Secret) (s : State W) (config : WebhookConfiguration) (w1 : W) :
  heap s !! tlsSecret = Some v →
  (MutatingGet client (MutatingWebhookConfigurationName webhook) (world s)
     = (Ok config, w1) →
   InjectPublicKeyIntoMutatingWebhook client webhook tlsSecret s
     = injected (MutatingUpdate client)
         (injectCABundle (default "" (Data v !! "tls.crt")) config) w1 s) ∧
  (ValidatingGet client (ValidatingWebhookConfigurationName webhook) (world s)
     = (Ok config, w1) →
   InjectPublicKeyIntoValidatingWebhook client webhook tlsSecret s
     = injected (ValidatingUpdate client)
         (injectCABundle (default "" (Data v !! "tls.crt")) config) w1 s) ∧
  ConfigName (injectCABundle (default "" (Data v !! "tls.crt")) config)
    = ConfigName config ∧
  ConfigResourceVersion (injectCABundle (default "" (Data v !! "tls.crt")) config)
    = ConfigResourceVersion config ∧
  length (Webhooks (injectCABundle (default "" (Data v !! "tls.crt")) config))
    = length (Webhooks config) ∧
  (∀ i entry,
     Webhooks config !! i = Some entry →
     ∃ entry',
       Webhooks (injectCABundle (default "" (Data v !! "tls.crt")) config) !! i
         = Some entry' ∧
       CABundle (ClientConfig entry') = default "" (Data v !! "tls.crt") ∧
       WebhookName entry' = WebhookName entry ∧
       URL (ClientConfig entry') = URL (ClientConfig entry) ∧
       Service (ClientConfig entry') = Service (ClientConfig entry) ∧
       Rules entry' = Rules entry ∧
       FailurePolicy entry' = FailurePolicy entry).
Proof.
  intros Hv.
  assert (∃ bundle,
            bundleFor tlsSecret config {| world := w1; heap := heap s; lines := lines s |}
              = (Ok bundle, {| world := w1; heap := heap s; lines := lines s |}) ∧
            injectCABundle bundle config
              = injectCABundle (default "" (Data v !! "tls.crt")) config)
    as (bundle & Hbundle & Hsame).
  { unfold bundleFor, injectCABundle.
    destruct (Webhooks config) as [|entry entries]; [by exists ""|].
    exists (default "" (Data v !! "tls.crt")). split; [|done].
    unfold bind, deref, ret. simpl. by rewrite Hv. }
  split; [|split; [|split; [|split; [|split]]]].
  - intros Hget. unfold InjectPublicKeyIntoMutatingWebhook.
    rewrite (bind_Ok _ _ _ _ _ (call_eq _ _ _ _ Hget)).
    rewrite (bind_Ok _ _ _ _ _ Hbundle). rewrite Hsame.
    unfold bind, call, injected, ret. simpl.
    by destruct (MutatingUpdate client _ w1) as [[c|e] w2].
  - intros Hget. unfold InjectPublicKeyIntoValidatingWebhook.
    rewrite (bind_Ok _ _ _ _ _ (call_eq _ _ _ _ Hget)).
    rewrite (bind_Ok _ _ _ _ _ Hbundle). rewrite Hsame.
    unfold bind, call, injected, ret. simpl.
    by destruct (ValidatingUpdate client _ w1) as [[c|e] w2].
  - done.
  - done.
  - simpl. by rewrite length_map.
  - intros i entry Hi. exists (setCABundle (default "" (Data v !! "tls.crt")) entry).
    split; [by apply injectCABundle_lookup|]. done.
Qed.

Lemma injection_overwrites_every_bundle_witness :
  ∃ entry',
    Webhooks (injectCABundle "server-certificate"
                (exampleConfiguration "webhooks")) !! 1 = Some entry' ∧
    CABundle (ClientConfig entry') = "server-certificate" ∧
    WebhookName entry' = "vcluster.kb.io".
Proof.
  destruct (injection_overwrites_every_bundle memClient exampleEnvironment 0
              {| Namespace := "postgresql-operator-system";
                 Name := "postgresql-operator-webhook-cert";
                 ResourceVersion := "7";
                 Data := {[ "tls.crt" := "server-certificate" ]} |}
              {| world := clusterWithWebhooks;
                 heap := [{| Namespace := "postgresql-operator-system";
                             Name := "postgresql-operator-webhook-cert";
                             ResourceVersion := "7";
                             Data := {[ "tls.crt" := "server-certificate" ]} |}];
                 lines := [] |}
              (exampleConfiguration "webhooks") clusterWithWebhooks eq_refl)
    as (_ & _ & _ & _ & _ & H).
  destruct (H 1 (exampleWebhook "vcluster.kb.io") eq_refl)
    as (entry' & H1 & H2 & H3 & _).
  exists entry'. split; [exact H1|]. split; [exact H2|exact H3].
Defined.

(** C5, as stated, fails: what ends up in the bundles is the
    certificate of the webhook server ([tls.crt] of the server secret),
    which is not the certificate of the authority ([ca.crt] of the CA
    secret). *)
Lemma injected_bundle_is_not_the_ca_certificate :
  ∃ config entry caSecret serverSecret,
    mutating (inner (world (snd (observedSetup memClient clusterWithWebhooks))))
      !! MutatingWebhookConfigurationName exampleEnvironment = Some config ∧
    Webhooks config !! 0 = Some entry ∧
    secrets (inner (world (snd (observedSetup memClient clusterWithWebhooks))))
      !! (OperatorNamespace exampleEnvironment, CaSecretName exampleEnvironment)
      = Some caSecret ∧
    secrets (inner (world (snd (observedSetup memClient clusterWithWebhooks))))
      !! (OperatorNamespace exampleEnvironment, SecretName exampleEnvironment)
      = Some serverSecret ∧
    Data serverSecret !! "tls.crt" = Some (CABundle (ClientConfig entry)) ∧
    Data caSecret !! "ca.crt" ≠ Some (CABundle (ClientConfig entry)).
Proof.
  eexists _, _, _, _.
  split; [vm_compute; reflexivity|]. split; [vm_compute; reflexivity|].
  split; [vm_compute; reflexivity|]. split; [vm_compute; reflexivity|].
  split; [vm_compute; reflexivity|]. vm_compute. discriminate.
Qed.

(** ** Claims about the dump *)

Section Dump.
Context {W K : Type}.
Variable fs : FileSystem W.
Variable certDir : string.

Lemma writes_traced (l : list (string * bytes)) :
  ∀ (s s' : State (Traced W K)),
    forM_ l (λ '(name, content),
      call (WriteFile (tracedFS K fs) (path_Join certDir name) content mode0600)) s
      = (Ok tt, s') →
    heap s' = heap s ∧ lines s' = lines s ∧
    trace (world s') = trace (world s) ++ map (fieldWrite certDir) l.
Proof.
  induction l as [|[name content] l IH]; intros s s' Hrun; simpl in Hrun.
  - inversion Hrun; subst. by rewrite app_nil_r.
  - unfold bind in Hrun.
    destruct (call _ s) as [[[]|e] s1] eqn:Hcall; [|done].
    apply IH in Hrun as (Hh & Hl & Ht).
    unfold call in Hcall. simpl in Hcall. unfold traced in Hcall.
    destruct (WriteFile fs _ _ _ _) as [r w1]. simplify_eq/=.
    rewrite Hh, Hl, Ht. by rewrite <- app_assoc.
Qed.

Variable rangeOf : gmap string bytes → list (string * bytes).

(** The run of [DumpSecretToDir], by what the checks of the sentinel
    return. *)
Lemma dump_cases (secret : ptr) (v : Secret) (s : State (Traced W K)) :
  heap s !! secret = Some v →
  let sentinel := path_Join certDir "resource" in
  let after (w : W) (es : list (Ext K)) : State (Traced W K) :=
    {| world := {| inner := w; trace := trace (world s) ++ es |};
       heap := heap s; lines := lines s |} in
  let writeAll :=
    forM_ (rangeOf (Data v)) (λ '(name, content),
      call (WriteFile (tracedFS K fs) (path_Join certDir name) content mode0600)) >>
    call (WriteFile (tracedFS K fs) sentinel (ResourceVersion v) mode0600) in
  DumpSecretToDir (tracedFS K fs) rangeOf secret certDir s =
    match FileExists fs sentinel (inner (world s)) with
    | (Fail e, w1) => (Fail e, after w1 [FileExistsCall sentinel])
    | (Ok false, w1) => writeAll (after w1 [FileExistsCall sentinel])
    | (Ok true, w1) =>
        match ReadFile fs sentinel w1 with
        | (Fail e, w2) =>
            (Fail e, after w2 [FileExistsCall sentinel; ReadFileCall sentinel])
        | (Ok oldVersion, w2) =>
            if bool_decide (oldVersion = ResourceVersion v)
            then (Ok tt, after w2 [FileExistsCall sentinel; ReadFileCall sentinel])
            else writeAll (after w2 [FileExistsCall sentinel; ReadFileCall sentinel])
        end
    end.
Proof.
  intros Hv sentinel after writeAll. unfold DumpSecretToDir.
  fold sentinel. unfold bind at 1. unfold call at 1. simpl. unfold traced at 1.
  destruct (FileExists fs sentinel (inner (world s))) as [[ex|e] w1]; [|done].
  destruct ex.
  - unfold bind at 1 2. unfold call at 1. simpl. unfold traced at 1. simpl.
    destruct (ReadFile fs sentinel w1) as [[old|e] w2]; [|by rewrite <- app_assoc].
    unfold bind at 1. unfold deref at 1. simpl. rewrite Hv.
    unfold ret at 1. rewrite <- app_assoc. simpl.
    destruct (bool_decide (old = ResourceVersion v)); [done|].
    unfold bind at 1. unfold deref at 1. simpl. by rewrite Hv.
  - unfold bind at 1. unfold ret at 1.
    unfold bind at 1. unfold deref at 1. simpl. by rewrite Hv.
Qed.

Lemma writeAll_traced (v : Secret) (s0 s' : State (Traced W K)) :
  (forM_ (rangeOf (Data v)) (λ '(name, content),
     call (WriteFile (tracedFS K fs) (path_Join certDir name) content mode0600)) >>
   call (WriteFile (tracedFS K fs) (path_Join certDir "resource")
           (ResourceVersion v) mode0600)) s0 = (Ok tt, s') →
  heap s' = heap s0 ∧ lines s' = lines s0 ∧
  trace (world s') =
    trace (world s0) ++ map (fieldWrite certDir) (rangeOf (Data v)) ++
    [WriteFileCall (path_Join certDir "resource") (ResourceVersion v) mode0600].
Proof.
  unfold bind.
  destruct (forM_ _ _ s0) as [[[]|e] s1] eqn:Hloop; [|done].
  apply writes_traced in Hloop as (Hh & Hl & Ht).
  unfold call. simpl. unfold traced.
  destruct (WriteFile fs _ _ _ _) as [r w1]. intros [= -> <-]. simpl.
  rewrite Hh, Hl, Ht. by rewrite <- app_assoc.
Qed.

End Dump.

(** On the file system in memory every write succeeds. *)
Lemma writes_mem {K} (certDir : string) (l : list (string * bytes)) :
  ∀ s : State (Traced Cluster K),
    ∃ s', forM_ l (λ '(name, content),
            call (WriteFile (tracedFS K memFS) (path_Join certDir name) content mode0600)) s
          = (Ok tt, s') ∧ heap s' = heap s.
Proof.
  induction l as [|[name content] l IH]; intros s; simpl.
  - by exists s.
  - assert (∃ s1, call (WriteFile (tracedFS K memFS) (path_Join certDir name)
                           content mode0600) s = (Ok tt, s1) ∧ heap s1 = heap s)
      as (s1 & Hcall & Hh1).
    { unfold call. simpl. unfold traced. simpl. eexists. split; [reflexivity|done]. }
    destruct (IH s1) as (s' & Hrun & Hh). exists s'.
    rewrite (bind_Ok _ _ _ _ _ Hcall). split; [done|congruence].
Qed.

Lemma writeAll_mem {K} (certDir : string) (rangeOf : gmap string bytes → list (string * bytes))
    (v : Secret) (s0 : State (Traced Cluster K)) :
  ∃ s',
    (forM_ (rangeOf (Data v)) (λ '(name, content),
       call (WriteFile (tracedFS K memFS) (path_Join certDir name) content mode0600)) >>
     call (WriteFile (tracedFS K memFS) (path_Join certDir "resource")
             (ResourceVersion v) mode0600)) s0 = (Ok tt, s') ∧
    heap s' = heap s0 ∧
    content <$> files (inner (world s')) !! path_Join certDir "resource"
      = Some (ResourceVersion v).
Proof.
  destruct (writes_mem certDir (rangeOf (Data v)) s0) as (s1 & Hloop & Hh).
  unfold bind. rewrite Hloop. unfold call. simpl. unfold traced. simpl.
  eexists. split; [reflexivity|]. simpl. split; [done|].
  by rewrite lookup_insert_eq.
Qed.

(** On the file system in memory a dump succeeds and leaves the
    sentinel at the version of the secret. *)
Lemma dump_mem {K} (certDir : string) (rangeOf : gmap string bytes → list (string * bytes))
    (secret : ptr) (v : Secret) (s : State (Traced Cluster K)) :
  heap s !! secret = Some v →
  ∃ s',
    DumpSecretToDir (tracedFS K memFS) rangeOf secret certDir s = (Ok tt, s') ∧
    heap s' = heap s ∧
    content <$> files (inner (world s')) !! path_Join certDir "resource"
      = Some (ResourceVersion v).
Proof.
  intros Hv. rewrite (dump_cases memFS certDir rangeOf secret v s Hv). simpl.
  destruct (files (inner (world s)) !! path_Join certDir "resource") as [f|] eqn:Hf.
  - rewrite bool_decide_true by eauto.
    destruct (bool_decide (content f = ResourceVersion v)) eqn:Hcur.
    + apply bool_decide_eq_true in Hcur. eexists. split; [reflexivity|]. simpl.
      split; [done|]. by rewrite Hf, <- Hcur.
    + edestruct (writeAll_mem (K:=K) certDir rangeOf v) as (s' & Hrun & Hh & Hc).
      exists s'. split; [exact Hrun|]. split; [exact Hh|exact Hc].
  - rewrite bool_decide_false by (by intros [? ?]).
    edestruct (writeAll_mem (K:=K) certDir rangeOf v) as (s' & Hrun & Hh & Hc).
    exists s'. split; [exact Hrun|]. split; [exact Hh|exact Hc].
Qed.

(** C6.  A dump whose sentinel check finds the file [resource] with the
    [ResourceVersion] of the secret returns without having written a
    file.  Otherwise a dump that succeeds has written, after the checks,
    one file per data field, named after the field, holding its content,
    with mode 0600, and then the sentinel with the [ResourceVersion],
    also with mode 0600; every field is written once, whatever order
    [range] takes.  Over the file system in memory, a dump followed by a
    dump of a secret with the same [ResourceVersion] writes nothing the
    second time and leaves the sentinel at that version. *)
Theorem dump_writes_unless_sentinel_is_current :
  (∀ (W K : Type) (fs : FileSystem W)
     (rangeOf : gmap string bytes → list (string * bytes)) (certDir : string)
     (secret : ptr) (v : Secret) (s s' : State (Traced W K)) (r : result unit),
     (∀ m, rangeOf m ≡ₚ map_to_list m) →
     heap s !! secret = Some v →
     DumpSecretToDir (tracedFS K fs) rangeOf secret certDir s = (r, s') →
     (∀ w1 w2,
        FileExists fs (path_Join certDir "resource") (inner (world s)) = (Ok true, w1) →
        ReadFile fs (path_Join certDir "resource") w1 = (Ok (ResourceVersion v), w2) →
        r = Ok tt ∧ inner (world s') = w2 ∧
        trace (world s') = trace (world s) ++
          [FileExistsCall (path_Join certDir "resource");
           ReadFileCall (path_Join certDir "resource")]) ∧
     (r = Ok tt →
      (¬ ∃ w1 w2,
         FileExists fs (path_Join certDir "resource") (inner (world s)) = (Ok true, w1) ∧
         ReadFile fs (path_Join certDir "resource") w1 = (Ok (ResourceVersion v), w2)) →
      ∃ checks,
        Forall (λ e, isWrite e = false) checks ∧
        trace (world s') = trace (world s) ++ checks ++
          map (fieldWrite certDir) (rangeOf (Data v)) ++
          [WriteFileCall (path_Join certDir "resource") (ResourceVersion v) mode0600]) ∧
     NoDup (rangeOf (Data v)).*1 ∧
     (∀ name content,
        (name, content) ∈ rangeOf (Data v) ↔ Data v !! name = Some content)) ∧
  (∀ (K : Type) (rangeOf : gmap string bytes → list (string * bytes)) (certDir : string)
     (secret secret2 : ptr) (v v2 : Secret) (s : State (Traced Cluster K)),
     heap s !! secret = Some v →
     heap s !! secret2 = Some v2 →
     ResourceVersion v2 = ResourceVersion v →
     ∃ s1 s2,
       DumpSecretToDir (tracedFS K memFS) rangeOf secret certDir s = (Ok tt, s1) ∧
       DumpSecretToDir (tracedFS K memFS) rangeOf secret2 certDir s1 = (Ok tt, s2) ∧
       trace (world s2) = trace (world s1) ++
         [FileExistsCall (path_Join certDir "resource");
          ReadFileCall (path_Join certDir "resource")] ∧
       files (inner (world s2)) = files (inner (world s1)) ∧
       content <$> files (inner (world s2)) !! path_Join certDir "resource"
         = Some (ResourceVersion v)).
Proof.
  split.
  - intros W K fs rangeOf certDir secret v s s' r Hrange Hv Hrun.
    rewrite (dump_cases fs certDir rangeOf secret v s Hv) in Hrun.
    cbv zeta in Hrun. split; [|split; [|split]].
    + intros w1 w2 Hex Hread. rewrite Hex, Hread in Hrun.
      rewrite bool_decide_true in Hrun by done. by simplify_eq/=.
    + intros -> Hstale.
      destruct (FileExists fs _ (inner (world s))) as [[[]|e] w1] eqn:Hex; [| |done].
      * destruct (ReadFile fs _ w1) as [[old|e] w2] eqn:Hread; [|done].
        case_bool_decide as Hold.
        { subst old. destruct Hstale. by exists w1, w2. }
        apply writeAll_traced in Hrun as (_ & _ & Ht). simpl in Ht.
        exists [FileExistsCall (path_Join certDir "resource");
                ReadFileCall (path_Join certDir "resource")].
        split; [by repeat constructor|]. by rewrite Ht, <- app_assoc.
      * apply writeAll_traced in Hrun as (_ & _ & Ht). simpl in Ht.
        exists [FileExistsCall (path_Join certDir "resource")].
        split; [by repeat constructor|]. by rewrite Ht, <- app_assoc.
    + rewrite (Hrange (Data v)). apply NoDup_fst_map_to_list.
    + intros name content. rewrite (Hrange (Data v)). apply elem_of_map_to_list.
  - intros K rangeOf certDir secret secret2 v v2 s Hv Hv2 Hsame.
    destruct (dump_mem certDir rangeOf secret v s Hv) as (s1 & Hrun1 & Hh & Hc).
    exists s1. rewrite <- Hh in Hv2.
    rewrite (dump_cases memFS certDir rangeOf secret2 v2 s1 Hv2). simpl.
    destruct (files (inner (world s1)) !! path_Join certDir "resource")
      as [f|] eqn:Hf; [|done].
    simpl in Hc. injection Hc as Hc.
    rewrite bool_decide_true by eauto.
    rewrite bool_decide_true by congruence.
    eexists. split; [exact Hrun1|]. split; [reflexivity|]. simpl.
    split; [done|]. split; [done|]. by rewrite Hf, <- Hc.
Qed.

Lemma dump_writes_unless_sentinel_is_current_witness :
  (NoDup (map_to_list (Data exampleServerSecret)).*1 ∧
   ∀ name content,
     (name, content) ∈ map_to_list (Data exampleServerSecret)
     ↔ Data exampleServerSecret !! name = Some content) ∧
  ∃ s1 s2,
    DumpSecretToDir (tracedFS string memFS) map_to_list 0 "/tmp/certs" holdingServerSecret
      = (Ok tt, s1) ∧
    DumpSecretToDir (tracedFS string memFS) map_to_list 0 "/tmp/certs" s1 = (Ok tt, s2) ∧
    trace (world s2) = trace (world s1) ++
      [FileExistsCall (path_Join "/tmp/certs" "resource");
       ReadFileCall (path_Join "/tmp/certs" "resource")] ∧
    files (inner (world s2)) = files (inner (world s1)) ∧
    content <$> files (inner (world s2)) !! path_Join "/tmp/certs" "resource" = Some "4".
Proof.
  split.
  - assert (Hrun : DumpSecretToDir (tracedFS string memFS) map_to_list 0 "/tmp/certs"
                     holdingServerSecret
                   = (fst (DumpSecretToDir (tracedFS string memFS) map_to_list 0
                             "/tmp/certs" holdingServerSecret),
                      snd (DumpSecretToDir (tracedFS string memFS) map_to_list 0
                             "/tmp/certs" holdingServerSecret)))
      by (vm_compute; reflexivity).
    destruct (proj1 dump_writes_unless_sentinel_is_current Cluster string memFS
                map_to_list "/tmp/certs" 0 exampleServerSecret holdingServerSecret _ _
                (λ m, reflexivity _) eq_refl Hrun) as (_ & _ & Hnodup & Hfields).
    split; [exact Hnodup|exact Hfields].
  - apply (proj2 dump_writes_unless_sentinel_is_current string map_to_list "/tmp/certs"
             0 0 exampleServerSecret exampleServerSecret holdingServerSecret);
      reflexivity.
Defined.

(** ** The heap *)

Section HeapFacts.
Context {W : Type}.

Lemma deref_last (w : W) (h : list Secret) (ls : list LogLine) (v : Secret) :
  deref (length h) {| world := w; heap := h ++ [v]; lines := ls |}
    = (Ok v, {| world := w; heap := h ++ [v]; lines := ls |}).
Proof. unfold deref. simpl. by rewrite list_lookup_middle. Qed.

Lemma setData_last (w : W) (h : list Secret) (ls : list LogLine) (v : Secret)
    (key : string) (value : bytes) :
  setData (length h) key value {| world := w; heap := h ++ [v]; lines := ls |}
    = (Ok tt, {| world := w; heap := h ++ [withData key value v]; lines := ls |}).
Proof.
  unfold setData. simpl. rewrite list_lookup_middle by done.
  rewrite insert_app_r_alt by done. by rewrite Nat.sub_diag.
Qed.

Lemma deref_valid (secret : ptr) (v : Secret) (s : State W) :
  heap s !! secret = Some v → deref secret s = (Ok v, s).
Proof. intros Hv. unfold deref. by rewrite Hv. Qed.

End HeapFacts.

(** ** Renewal, by cases *)

Section Renewal.
Context {W K : Type}.
Variable client : Interface W.
Variable pki : PKI W K.

Lemma renewCACertificate_cases (secret : ptr) (v : Secret) (s : State W) :
  heap s !! secret = Some v →
  renewCACertificate client pki secret s
    = renewal client pki (ParseCASecret pki) "ca.crt" Ok secret v s.
Proof.
  intros Hv. unfold renewCACertificate, renewal.
  rewrite (bind_Ok _ _ _ _ _ (deref_valid _ _ _ Hv)).
  unfold bind at 1. unfold lift at 1.
  destruct (ParseCASecret pki v) as [keys|e]; [|done].
  unfold bind at 1. unfold call at 1.
  destruct (IsExpiring pki keys (world s)) as [[[]|e] w1]; [| |done].
  - simpl. unfold bind at 1. unfold lift at 1.
    destruct (ParseECPrivateKey pki keys) as [privateKey|e]; [|done].
    unfold bind at 1. unfold call at 1. simpl.
    destruct (RenewCertificate pki keys privateKey w1) as [[renewed|e] w2]; [|done].
    unfold bind at 1. unfold setData at 1. simpl. rewrite Hv.
    unfold bind at 1. unfold deref at 1. simpl.
    rewrite list_lookup_insert_eq by (by eapply lookup_lt_Some).
    unfold bind at 1. unfold call at 1. simpl.
    destruct (SecretsUpdate client (Namespace v) _ w2) as [[updated|e] w3]; [|done].
    unfold bind, new, ret. simpl. by rewrite length_insert.
  - done.
Qed.

Lemma renewServerCertificate_cases (caSecret : Secret) (secret : ptr) (v : Secret)
    (s : State W) :
  heap s !! secret = Some v →
  renewServerCertificate client pki caSecret secret s
    = renewal client pki (ParseServerSecret pki) "tls.crt"
        (λ _, ParseCASecret pki caSecret) secret v s.
Proof.
  intros Hv. unfold renewServerCertificate, renewal.
  rewrite (bind_Ok _ _ _ _ _ (deref_valid _ _ _ Hv)).
  unfold bind at 1. unfold lift at 1.
  destruct (ParseServerSecret pki v) as [keys|e]; [|done].
  unfold bind at 1. unfold call at 1.
  destruct (IsExpiring pki keys (world s)) as [[[]|e] w1]; [| |done].
  - simpl. unfold bind at 1. unfold lift at 1.
    destruct (ParseCASecret pki caSecret) as [caPair|e]; [|done].
    unfold bind at 1. unfold lift at 1.
    destruct (ParseECPrivateKey pki caPair) as [privateKey|e]; [|done].
    unfold bind at 1. unfold call at 1. simpl.
    destruct (RenewCertificate pki keys privateKey w1) as [[renewed|e] w2]; [|done].
    unfold bind at 1. unfold setData at 1. simpl. rewrite Hv.
    unfold bind at 1. unfold deref at 1. simpl.
    rewrite list_lookup_insert_eq by (by eapply lookup_lt_Some).
    unfold bind at 1. unfold call at 1. simpl.
    destruct (SecretsUpdate client (Namespace v) _ w2) as [[updated|e] w3]; [|done].
    unfold bind, new, ret. simpl. by rewrite length_insert.
  - done.
Qed.

Lemma EnsureRootCACertificate_found (namespace name : string) (s : State W)
    (v : Secret) (w1 : W) :
  SecretsGet client namespace name (world s) = (Ok v, w1) →
  EnsureRootCACertificate client pki namespace name s =
    match renewal client pki (ParseCASecret pki) "ca.crt" Ok (length (heap s)) v
            {| world := w1; heap := heap s ++ [v]; lines := lines s |} with
    | (Ok _, s') => (Ok (length (heap s)), s')
    | (Fail e, s') => (Fail e, s')
    end.
Proof.
  intros Hget. unfold EnsureRootCACertificate.
  rewrite (bind_Ok _ _ _ _ _ (attempt_eq _ _ _ _ (call_eq _ _ _ _ Hget))).
  unfold bind at 1. unfold new at 1. simpl.
  unfold bind at 1. rewrite (renewCACertificate_cases _ v).
  - by destruct (renewal _ _ _ _ _ _ _ _) as [[p|e] s'].
  - simpl. by apply list_lookup_middle.
Qed.

Lemma EnsureCertificate_found (webhook : WebhookEnvironment) (caSecret : ptr)
    (ca : Secret) (s : State W) (v : Secret) (w1 : W) :
  heap s !! caSecret = Some ca →
  SecretsGet client (OperatorNamespace webhook) (SecretName webhook) (world s)
    = (Ok v, w1) →
  EnsureCertificate client pki webhook caSecret s =
    renewal client pki (ParseServerSecret pki) "tls.crt"
      (λ _, ParseCASecret pki ca) (length (heap s)) v
      {| world := w1; heap := heap s ++ [v]; lines := lines s |}.
Proof.
  intros Hca Hget. unfold EnsureCertificate.
  rewrite (bind_Ok _ _ _ _ _ (attempt_eq _ _ _ _ (call_eq _ _ _ _ Hget))).
  unfold bind at 1. unfold new at 1. simpl.
  erewrite (bind_Ok (deref caSecret)).
  - apply renewServerCertificate_cases. simpl. by apply list_lookup_middle.
  - apply deref_valid. simpl. by apply lookup_app_l_Some.
Qed.

End Renewal.

(** ** Claims about the two ensure functions *)

Section Ensure.
Context {W K : Type}.
Variable client : Interface W.
Variable pki : PKI W K.

Lemma ensure_ca_unexpired (namespace name : string) (s : State (Traced W K))
    (v : Secret) (w1 w2 : W) (keys : KeyPair) :
  SecretsGet client namespace name (inner (world s)) = (Ok v, w1) →
  ParseCASecret pki v = Ok keys →
  IsExpiring pki keys w1 = (Ok false, w2) →
  EnsureRootCACertificate (tracedClient K client) (tracedPKI pki) namespace name s
    = (Ok (length (heap s)),
       after s w2 [SecretsGetCall namespace name; IsExpiringCall keys] [v]).
Proof.
  intros Hget Hparse Hexp.
  rewrite (EnsureRootCACertificate_found (tracedClient K client) (tracedPKI pki)
             namespace name s v _ (traced_eq _ _ _ _ _ Hget)).
  unfold renewal. simpl. rewrite Hparse. unfold traced. simpl. rewrite Hexp.
  unfold after. by rewrite <- app_assoc.
Qed.

Lemma ensure_server_unexpired (webhook : WebhookEnvironment) (caSecret : ptr)
    (ca : Secret) (s : State (Traced W K)) (v : Secret) (w1 w2 : W) (keys : KeyPair) :
  heap s !! caSecret = Some ca →
  SecretsGet client (OperatorNamespace webhook) (SecretName webhook) (inner (world s))
    = (Ok v, w1) →
  ParseServerSecret pki v = Ok keys →
  IsExpiring pki keys w1 = (Ok false, w2) →
  EnsureCertificate (tracedClient K client) (tracedPKI pki) webhook caSecret s
    = (Ok (length (heap s)),
       after s w2 [SecretsGetCall (OperatorNamespace webhook) (SecretName webhook);
                   IsExpiringCall keys] [v]).
Proof.
  intros Hca Hget Hparse Hexp.
  rewrite (EnsureCertificate_found (tracedClient K client) (tracedPKI pki)
             webhook caSecret ca s v _ Hca (traced_eq _ _ _ _ _ Hget)).
  unfold renewal. simpl. rewrite Hparse. unfold traced. simpl. rewrite Hexp.
  unfold after. by rewrite <- app_assoc.
Qed.

End Ensure.

(** C8.  When the secret exists and its certificate is not expiring,
    [EnsureRootCACertificate] and [EnsureCertificate] call the store
    once, for the fetch, ask whether the certificate is expiring, and
    return a pointer to the secret as fetched: no update is issued.
    Called twice over a store and a clock that answer the same both
    times, they return the same contents both times. *)
Theorem ensure_returns_unexpired_secret_as_fetched
    {W K : Type} (client : Interface W) (pki : PKI W K) :
  (∀ namespace name (s : State (Traced W K)) v w1 w2 keys,
     SecretsGet client namespace name (inner (world s)) = (Ok v, w1) →
     ParseCASecret pki v = Ok keys →
     IsExpiring pki keys w1 = (Ok false, w2) →
     EnsureRootCACertificate (tracedClient K client) (tracedPKI pki) namespace name s
       = (Ok (length (heap s)),
          after s w2 [SecretsGetCall namespace name; IsExpiringCall keys] [v])) ∧
  (∀ webhook caSecret ca (s : State (Traced W K)) v w1 w2 keys,
     heap s !! caSecret = Some ca →
     SecretsGet client (OperatorNamespace webhook) (SecretName webhook) (inner (world s))
       = (Ok v, w1) →
     ParseServerSecret pki v = Ok keys →
     IsExpiring pki keys w1 = (Ok false, w2) →
     EnsureCertificate (tracedClient K client) (tracedPKI pki) webhook caSecret s
       = (Ok (length (heap s)),
          after s w2 [SecretsGetCall (OperatorNamespace webhook) (SecretName webhook);
                      IsExpiringCall keys] [v])) ∧
  (∀ namespace name (s : State (Traced W K)) v keys,
     SecretsGet client namespace name (inner (world s)) = (Ok v, inner (world s)) →
     ParseCASecret pki v = Ok keys →
     IsExpiring pki keys (inner (world s)) = (Ok false, inner (world s)) →
     ∃ s1 s2,
       EnsureRootCACertificate (tracedClient K client) (tracedPKI pki) namespace name s
         = (Ok (length (heap s)), s1) ∧
       EnsureRootCACertificate (tracedClient K client) (tracedPKI pki) namespace name s1
         = (Ok (S (length (heap s))), s2) ∧
       heap s2 !! length (heap s) = Some v ∧
       heap s2 !! S (length (heap s)) = Some v ∧
       inner (world s2) = inner (world s) ∧
       trace (world s2) = trace (world s) ++
         [SecretsGetCall namespace name; IsExpiringCall keys;
          SecretsGetCall namespace name; IsExpiringCall keys]) ∧
  (∀ webhook caSecret ca (s : State (Traced W K)) v keys,
     heap s !! caSecret = Some ca →
     SecretsGet client (OperatorNamespace webhook) (SecretName webhook) (inner (world s))
       = (Ok v, inner (world s)) →
     ParseServerSecret pki v = Ok keys →
     IsExpiring pki keys (inner (world s)) = (Ok false, inner (world s)) →
     ∃ s1 s2,
       EnsureCertificate (tracedClient K client) (tracedPKI pki) webhook caSecret s
         = (Ok (length (heap s)), s1) ∧
       EnsureCertificate (tracedClient K client) (tracedPKI pki) webhook caSecret s1
         = (Ok (S (length (heap s))), s2) ∧
       heap s2 !! length (heap s) = Some v ∧
       heap s2 !! S (length (heap s)) = Some v ∧
       inner (world s2) = inner (world s) ∧
       trace (world s2) = trace (world s) ++
         [SecretsGetCall (OperatorNamespace webhook) (SecretName webhook);
          IsExpiringCall keys;
          SecretsGetCall (OperatorNamespace webhook) (SecretName webhook);
          IsExpiringCall keys]).
Proof.
  split; [|split; [|split]].
  - intros. eapply ensure_ca_unexpired; eassumption.
  - intros. eapply ensure_server_unexpired; eassumption.
  - intros namespace name s v keys Hget Hparse Hexp.
    eexists _, _.
    split; [by apply (ensure_ca_unexpired client pki namespace name s v
                        (inner (world s)) (inner (world s)) keys)|].
    split.
    + rewrite (ensure_ca_unexpired client pki namespace name _ v
                 (inner (world s)) (inner (world s)) keys) by done.
      simpl. by rewrite length_app, Nat.add_1_r.
    + simpl. rewrite <- !app_assoc. simpl.
      split; [by apply list_lookup_middle|].
      split; [|done].
      replace (S (length (heap s))) with (length (heap s ++ [v]))
        by (rewrite length_app; simpl; lia).
      change (heap s ++ [v; v]) with (heap s ++ [v] ++ [v]).
      rewrite (app_assoc (heap s) [v] [v]). by apply list_lookup_middle.
  - intros webhook caSecret ca s v keys Hca Hget Hparse Hexp.
    eexists _, _.
    split; [by apply (ensure_server_unexpired client pki webhook caSecret ca s v
                        (inner (world s)) (inner (world s)) keys)|].
    split.
    + rewrite (ensure_server_unexpired client pki webhook caSecret ca _ v
                 (inner (world s)) (inner (world s)) keys); try done.
      * simpl. by rewrite length_app, Nat.add_1_r.
      * simpl. by apply lookup_app_l_Some.
    + simpl. rewrite <- !app_assoc. simpl.
      split; [by apply list_lookup_middle|].
      split; [|done].
      replace (S (length (heap s))) with (length (heap s ++ [v]))
        by (rewrite length_app; simpl; lia).
      change (heap s ++ [v; v]) with (heap s ++ [v] ++ [v]).
      rewrite (app_assoc (heap s) [v] [v]). by apply list_lookup_middle.
Qed.

Lemma ensure_returns_unexpired_secret_as_fetched_witness :
  ∃ s1 s2,
    EnsureRootCACertificate (tracedClient string memClient) (tracedPKI toyPKI)
      "postgresql-operator-system" "postgresql-operator-ca-secret"
      (tracing string (settledCluster [])) = (Ok 0, s1) ∧
    EnsureRootCACertificate (tracedClient string memClient) (tracedPKI toyPKI)
      "postgresql-operator-system" "postgresql-operator-ca-secret" s1 = (Ok 1, s2) ∧
    heap s2 !! 0 = Some exampleCASecret ∧
    heap s2 !! 1 = Some exampleCASecret ∧
    inner (world s2) = settledCluster [].
Proof.
  edestruct (proj1 (proj2 (proj2 (ensure_returns_unexpired_secret_as_fetched
                                    memClient toyPKI)))
               "postgresql-operator-system" "postgresql-operator-ca-secret"
               (tracing string (settledCluster [])))
    as (s1 & s2 & H1 & H2 & H3 & H4 & H5 & _).
  - vm_compute. reflexivity.
  - vm_compute. reflexivity.
  - vm_compute. reflexivity.
  - exists s1, s2. split; [exact H1|]. split; [exact H2|].
    split; [exact H3|]. split; [exact H4|exact H5].
Defined.

(** C10.  When the CA secret exists and is expiring, and the renewal
    and the update of the store succeed, [EnsureRootCACertificate]
    returns the pointer to the object it fetched, not the one the
    update returned: that object holds the renewed certificate in
    [ca.crt], its [ca.key] as fetched, and the [ResourceVersion] it was
    fetched with; the record the update returned is allocated next to
    it and is not returned. *)
Theorem renewed_ca_is_returned_through_the_fetched_object
    {W K : Type} (client : Interface W) (pki : PKI W K)
    (namespace name : string) (s : State (Traced W K))
    (v updated : Secret) (w1 w2 w3 w4 : W) (keys renewed : KeyPair) (privateKey : K) :
  SecretsGet client namespace name (inner (world s)) = (Ok v, w1) →
  ParseCASecret pki v = Ok keys →
  IsExpiring pki keys w1 = (Ok true, w2) →
  ParseECPrivateKey pki keys = Ok privateKey →
  RenewCertificate pki keys privateKey w2 = (Ok renewed, w3) →
  SecretsUpdate client (Namespace v) (withData "ca.crt" (Certificate renewed) v) w3
    = (Ok updated, w4) →
  EnsureRootCACertificate (tracedClient K client) (tracedPKI pki) namespace name s
    = (Ok (length (heap s)),
       after s w4
         [SecretsGetCall namespace name; IsExpiringCall keys;
          RenewCertificateCall keys privateKey;
          SecretsUpdateCall (Namespace v) (withData "ca.crt" (Certificate renewed) v)]
         [withData "ca.crt" (Certificate renewed) v; updated]) ∧
  (heap s ++ [withData "ca.crt" (Certificate renewed) v; updated]) !! length (heap s)
    = Some (withData "ca.crt" (Certificate renewed) v) ∧
  (heap s ++ [withData "ca.crt" (Certificate renewed) v; updated]) !! S (length (heap s))
    = Some updated ∧
  Data (withData "ca.crt" (Certificate renewed) v) !! "ca.crt"
    = Some (Certificate renewed) ∧
  Data (withData "ca.crt" (Certificate renewed) v) !! "ca.key" = Data v !! "ca.key" ∧
  ResourceVersion (withData "ca.crt" (Certificate renewed) v) = ResourceVersion v.
Proof.
  intros Hget Hparse Hexp Hkey Hrenew Hupdate.
  split; [|split; [|split; [|split; [|split]]]].
  - rewrite (EnsureRootCACertificate_found (tracedClient K client) (tracedPKI pki)
               namespace name s v _ (traced_eq _ _ _ _ _ Hget)).
    unfold renewal. simpl. rewrite Hparse. unfold traced. simpl. rewrite Hexp, Hkey.
    simpl. rewrite Hrenew. simpl. rewrite Hupdate. unfold after.
    rewrite insert_app_r_alt by done. rewrite Nat.sub_diag. simpl.
    by rewrite <- !app_assoc.
  - by apply list_lookup_middle.
  - change (heap s ++ [withData "ca.crt" (Certificate renewed) v; updated])
      with (heap s ++ [withData "ca.crt" (Certificate renewed) v] ++ [updated]).
    rewrite app_assoc. apply list_lookup_middle.
    rewrite length_app. simpl. lia.
  - simpl. by rewrite lookup_insert_eq.
  - simpl. by rewrite lookup_insert_ne.
  - done.
Qed.

Lemma renewed_ca_is_returned_through_the_fetched_object_witness :
  ∃ s',
    EnsureRootCACertificate (tracedClient string memClient) (tracedPKI toyPKI)
      "postgresql-operator-system" "postgresql-operator-ca-secret"
      (tracing string (settledCluster ["ca-key-1|ca-key-1|1"])) = (Ok 0, s') ∧
    ResourceVersion <$> heap s' !! 0 = Some "2" ∧
    ResourceVersion <$> heap s' !! 1 = Some "6" ∧
    ResourceVersion <$> secrets (inner (world s'))
                          !! ("postgresql-operator-system", "postgresql-operator-ca-secret")
      = Some "6".
Proof.
  edestruct (renewed_ca_is_returned_through_the_fetched_object memClient toyPKI
               "postgresql-operator-system" "postgresql-operator-ca-secret"
               (tracing string (settledCluster ["ca-key-1|ca-key-1|1"])))
    as (Hrun & _).
  - vm_compute. reflexivity.
  - vm_compute. reflexivity.
  - vm_compute. reflexivity.
  - vm_compute. reflexivity.
  - vm_compute. reflexivity.
  - vm_compute. reflexivity.
  - eexists. split; [exact Hrun|].
    split; [vm_compute; reflexivity|]. split; vm_compute; reflexivity.
Defined.

(** ** Which steps renew certificates *)

Section Quiet.
Context {W K : Type}.

Lemma renewals_app (tr1 tr2 : list (Ext K)) :
  renewals (tr1 ++ tr2) = renewals tr1 ++ renewals tr2.
Proof. unfold renewals. apply omap_app. Qed.

Lemma quiet_bind {A B} (m : M (State (Traced W K)) A) (k : A → M (State (Traced W K)) B) :
  quiet m → (∀ a, quiet (k a)) → quiet (bind m k).
Proof.
  intros Hm Hk s r s' Hrun. unfold bind in Hrun.
  destruct (m s) as [[a|e] s1] eqn:Hms.
  - apply Hk in Hrun. apply Hm in Hms. congruence.
  - inversion Hrun; subst. by apply Hm in Hms.
Qed.

Lemma quiet_ret {A} (a : A) : quiet (W:=W) (K:=K) (ret a).
Proof. by intros s r s' [= <- <-]. Qed.

Lemma quiet_fail {A} (e : error) : quiet (W:=W) (K:=K) (A:=A) (fail e).
Proof. by intros s r s' [= <- <-]. Qed.

Lemma quiet_info (msg : string) : quiet (W:=W) (K:=K) (info msg).
Proof. by intros s r s' [= <- <-]. Qed.

Lemma quiet_deref (p : ptr) : quiet (W:=W) (K:=K) (deref p).
Proof.
  intros s r s'. unfold deref. destruct (heap s !! p); by intros [= <- <-].
Qed.

Lemma quiet_new (v : Secret) : quiet (W:=W) (K:=K) (new v).
Proof. by intros s r s' [= <- <-]. Qed.

Lemma quiet_call {A} (e : Ext K) (m : M W A) :
  renewals [e] = [] → quiet (call (traced e m)).
Proof.
  intros He s r s'. unfold call, traced.
  destruct (m (inner (world s))) as [r0 w1]. intros [= <- <-]. simpl.
  by rewrite renewals_app, He, app_nil_r.
Qed.

Lemma quiet_attempt {A} (m : M (State (Traced W K)) A) : quiet m → quiet (attempt m).
Proof.
  intros Hm s r s'. unfold attempt. destruct (m s) as [r0 s1] eqn:Hms.
  intros [= <- <-]. by apply Hm in Hms.
Qed.

Lemma quiet_forM {A} (l : list A) (f : A → M (State (Traced W K)) unit) :
  (∀ x, quiet (f x)) → quiet (forM_ l f).
Proof.
  intros Hf. induction l as [|x l IH]; simpl.
  - apply quiet_ret.
  - apply quiet_bind; [apply Hf|]. intros _. apply IH.
Qed.

Lemma quiet_bundleFor (tlsSecret : ptr) (config : WebhookConfiguration) :
  quiet (W:=W) (K:=K) (bundleFor tlsSecret config).
Proof.
  unfold bundleFor. destruct (Webhooks config); [apply quiet_ret|].
  apply quiet_bind; [apply quiet_deref|]. intros v. apply quiet_ret.
Qed.

Variable client : Interface W.
Variable fs : FileSystem W.
Variable rangeOf : gmap string bytes → list (string * bytes).

Lemma quiet_Dump (secret : ptr) (certDir : string) :
  quiet (DumpSecretToDir (tracedFS K fs) rangeOf secret certDir).
Proof.
  unfold DumpSecretToDir.
  apply quiet_bind; [by apply quiet_call|]. intros oldVersionExist.
  apply quiet_bind.
  - destruct oldVersionExist; [|apply quiet_ret].
    apply quiet_bind; [by apply quiet_call|]. intros old.
    apply quiet_bind; [apply quiet_deref|]. intros v. apply quiet_ret.
  - intros current. destruct current; [apply quiet_ret|].
    apply quiet_bind; [apply quiet_deref|]. intros v.
    apply quiet_bind; [|intros _; by apply quiet_call].
    apply quiet_forM. intros [name content]. by apply quiet_call.
Qed.

Lemma quiet_InjectMutating (webhook : WebhookEnvironment) (tlsSecret : ptr) :
  quiet (InjectPublicKeyIntoMutatingWebhook (tracedClient K client) webhook tlsSecret).
Proof.
  unfold InjectPublicKeyIntoMutatingWebhook.
  apply quiet_bind; [by apply quiet_call|]. intros config.
  apply quiet_bind; [apply quiet_bundleFor|]. intros bundle.
  apply quiet_bind; [by apply quiet_call|]. intros _. apply quiet_ret.
Qed.

Lemma quiet_InjectValidating (webhook : WebhookEnvironment) (tlsSecret : ptr) :
  quiet (InjectPublicKeyIntoValidatingWebhook (tracedClient K client) webhook tlsSecret).
Proof.
  unfold InjectPublicKeyIntoValidatingWebhook.
  apply quiet_bind; [by apply quiet_call|]. intros config.
  apply quiet_bind; [apply quiet_bundleFor|]. intros bundle.
  apply quiet_bind; [by apply quiet_call|]. intros _. apply quiet_ret.
Qed.

End Quiet.

Section Leaf.
Context {W K : Type}.
Variable client : Interface W.
Variable pki : PKI W K.

(** A renewal does not shrink the heap. *)
Lemma renewal_heap (parse : Secret → result KeyPair) (field : string)
    (keySource : KeyPair → result KeyPair) (secret : ptr) (v : Secret)
    (s s' : State W) (r : result ptr) :
  renewal client pki parse field keySource secret v s = (r, s') →
  length (heap s) ≤ length (heap s').
Proof.
  unfold renewal. intros Hrun.
  repeat case_match; simplify_eq/=; rewrite ?length_app, ?length_insert; lia.
Qed.

(** The pointer [EnsureRootCACertificate] returns is allocated. *)
Lemma EnsureRootCACertificate_valid (namespace name : string) (s s1 : State W) (p : ptr) :
  EnsureRootCACertificate client pki namespace name s = (Ok p, s1) →
  is_Some (heap s1 !! p).
Proof.
  intros Hrun. apply lookup_lt_is_Some.
  destruct (SecretsGet client namespace name (world s)) as [[v|e] w1] eqn:Hget.
  - rewrite (EnsureRootCACertificate_found client pki _ _ _ _ _ Hget) in Hrun.
    destruct (renewal _ _ _ _ _ _ _ _) as [[q|e] s0] eqn:Hren; [|done].
    apply renewal_heap in Hren. simpl in Hren. rewrite length_app in Hren.
    simpl in Hren. simplify_eq. lia.
  - unfold EnsureRootCACertificate in Hrun.
    rewrite (bind_Ok _ _ _ _ _ (attempt_eq _ _ _ _ (call_eq _ _ _ _ Hget))) in Hrun.
    destruct (IsNotFound e); [|done]. simpl in Hrun.
    unfold bind, call, new, deref, ret in Hrun. simpl in Hrun.
    destruct (CreateCA pki w1) as [[keys|e'] w2]; [|done]. simpl in Hrun.
    rewrite list_lookup_middle in Hrun by done. simpl in Hrun.
    destruct (SecretsCreate client namespace
                (GenerateCASecret pki keys namespace name) w2)
      as [[created|e'] w3]; [|done].
    simplify_eq/=. rewrite !length_app. simpl. lia.
Qed.

(** During [EnsureCertificate] a certificate is renewed at most once,
    and with the key parsed from the secret at [caSecret]. *)
Lemma EnsureCertificate_renewals (webhook : WebhookEnvironment) (caSecret : ptr)
    (ca : Secret) (s s' : State (Traced W K)) (r : result ptr) :
  heap s !! caSecret = Some ca →
  EnsureCertificate (tracedClient K client) (tracedPKI pki) webhook caSecret s = (r, s') →
  renewals (trace (world s')) = renewals (trace (world s)) ∨
  ∃ leaf caPair privateKey,
    ParseCASecret pki ca = Ok caPair ∧
    ParseECPrivateKey pki caPair = Ok privateKey ∧
    renewals (trace (world s')) = renewals (trace (world s)) ++ [(leaf, privateKey)].
Proof.
  intros Hca Hrun.
  destruct (SecretsGet client (OperatorNamespace webhook) (SecretName webhook)
              (inner (world s))) as [[v|e] w1] eqn:Hget.
  - rewrite (EnsureCertificate_found (tracedClient K client) (tracedPKI pki)
               webhook caSecret ca s v _ Hca (traced_eq _ _ _ _ _ Hget)) in Hrun.
    unfold renewal in Hrun. simpl in Hrun. unfold traced in Hrun. simpl in Hrun.
    destruct (ParseServerSecret pki v) as [leaf|e];
      [|simplify_eq/=; left; by rewrite renewals_app, app_nil_r].
    destruct (IsExpiring pki leaf w1) as [[[]|e] w2];
      [| simplify_eq/=; left; by rewrite !renewals_app, !app_nil_r
       | simplify_eq/=; left; by rewrite !renewals_app, !app_nil_r].
    destruct (ParseCASecret pki ca) as [caPair|e] eqn:Hpair;
      [|simplify_eq/=; left; by rewrite !renewals_app, !app_nil_r].
    destruct (ParseECPrivateKey pki caPair) as [privateKey|e] eqn:Hkey;
      [|simplify_eq/=; left; by rewrite !renewals_app, !app_nil_r].
    right. exists leaf, caPair, privateKey. split; [done|]. split; [done|].
    simpl in Hrun.
    destruct (RenewCertificate pki leaf privateKey w2) as [[renewed|e] w3];
      [|simplify_eq/=; by rewrite !renewals_app, !app_nil_r].
    simpl in Hrun.
    destruct (SecretsUpdate client _ _ w3) as [[updated|e] w4];
      simplify_eq/=; by rewrite !renewals_app, !app_nil_r.
  - assert (Hget' : SecretsGet (tracedClient K client) (OperatorNamespace webhook)
                      (SecretName webhook) (world s)
                    = (Fail e, {| inner := w1;
                                  trace := trace (world s) ++
                                    [SecretsGetCall (OperatorNamespace webhook)
                                       (SecretName webhook)] |}))
      by exact (traced_eq _ _ _ _ _ Hget).
    unfold EnsureCertificate in Hrun.
    rewrite (bind_Ok _ _ _ _ _ (attempt_eq _ _ _ _ (call_eq _ _ _ _ Hget'))) in Hrun.
    left.
    assert (Hq : quiet (W:=W) (K:=K)
              (if negb (IsNotFound e) then fail e else
               let* ca := deref caSecret in
               let* caPair := lift (ParseCASecret (tracedPKI pki) ca) in
               let* webhookPair := call (CreateAndSignPair (tracedPKI pki) caPair
                 (ServiceName webhook +:+ "." +:+ OperatorNamespace webhook +:+ ".svc")) in
               let* secret := new (GenerateServerSecret (tracedPKI pki) webhookPair
                                     (OperatorNamespace webhook) (SecretName webhook)) in
               let* v := deref secret in
               let* created := call (SecretsCreate (tracedClient K client)
                                       (OperatorNamespace webhook) v) in
               let* createdSecret := new created in
               ret createdSecret)).
    { destruct (negb (IsNotFound e)); [apply quiet_fail|].
      apply quiet_bind; [apply quiet_deref|]. intros ca'.
      apply quiet_bind.
      { unfold lift. by intros s0 r0 s0' [= <- <-]. }
      intros caPair. apply quiet_bind; [by apply quiet_call|]. intros webhookPair.
      apply quiet_bind; [apply quiet_new|]. intros secret.
      apply quiet_bind; [apply quiet_deref|]. intros v.
      apply quiet_bind; [by apply quiet_call|]. intros created.
      apply quiet_bind; [apply quiet_new|]. intros createdSecret. apply quiet_ret. }
    apply Hq in Hrun. rewrite Hrun. simpl. by rewrite renewals_app, app_nil_r.
Qed.

End Leaf.

End certs_proofs.

(** * Further properties of the synchroniser *)

Module runner_extra.
Import runner runner_proofs.

Section Calls.
Context {W : Type}.
Variables primary local : Manager W.
Variables (podName : string) (config : Config).

(** Every observed pass starts with the [List] on the primary; all later
    calls go to the local manager and are its [List] or operations of
    the plan for the two lists. *)
Lemma pass_calls_within (w : W) (r : result unit) (s' : Observed W) :
  synchronizeReplicationSlots observe_log
    (observe Primary primary) (observe Local local) podName config (observing w)
    = (r, s') →
  ∃ out rest planned,
    calls s' = {| backend := Primary; op := OpList podName config; outcome := out |}
               :: rest ∧
    (∀ c, c ∈ rest → backend c = Local ∧
                     (op c = OpList podName config ∨ op c ∈ planned)) ∧
    (planned = [] ∨
     ∃ sp w1 sl w2,
       List primary podName config w = (Ok sp, w1) ∧
       List local podName config w1 = (Ok sl, w2) ∧
       planned = plan sp sl).
Proof.
  intros Hrun. apply pass_shape in Hrun as [_ Hshape].
  assert (Hoks : ∀ (ops planned : list Op) (c : Call),
            (∀ o, o ∈ ops → o ∈ planned) →
            c ∈ map (ok_call Local) ops →
            backend c = Local ∧ (op c = OpList podName config ∨ op c ∈ planned)).
  { intros ops planned c Hsub Hc. rewrite list_elem_of_In in Hc.
    apply in_map_iff in Hc as (o & <- & Ho). rewrite <- list_elem_of_In in Ho.
    split; [done|]. right. by apply Hsub. }
  destruct Hshape as [(e & _ & _ & ->)|(sp & w1 & Hp & Hshape)].
  { exists (Some e), [], []. split; [done|]. split; [|by left].
    intros c Hc. by apply not_elem_of_nil in Hc. }
  destruct Hshape as [(e & _ & _ & ->)|(sl & w2 & Hl & Hshape)].
  { exists None, [failed_call Local (OpList podName config) e], [].
    split; [done|]. split; [|by left].
    intros c Hc. apply list_elem_of_singleton in Hc. subst c. split; [done|]. by left. }
  destruct Hshape as [[_ ->]|(e & pre & o & rest & _ & Hplan & ->)].
  - exists None, (ok_call Local (OpList podName config) :: map (ok_call Local) (plan sp sl)),
      (plan sp sl).
    split; [done|]. split; [|right; by exists sp, w1, sl, w2].
    intros c Hc. apply elem_of_cons in Hc as [Hc|Hc]; [subst c; split; [done|by left]|].
    by apply (Hoks (plan sp sl)).
  - exists None,
      (ok_call Local (OpList podName config)
       :: map (ok_call Local) pre ++ [failed_call Local o e]),
      (plan sp sl).
    split; [done|]. split; [|right; by exists sp, w1, sl, w2].
    intros c Hc. apply elem_of_cons in Hc as [Hc|Hc]; [subst c; split; [done|by left]|].
    apply elem_of_app in Hc as [Hc|Hc].
    + apply (Hoks pre); [|done]. intros o' Ho'. rewrite Hplan.
      apply elem_of_app. by left.
    + apply list_elem_of_singleton in Hc. subst c. split; [done|].
      right. rewrite Hplan. apply elem_of_app. right. by left.
Qed.

End Calls.

(** What the operations of a plan are about. *)
Lemma plan_elem (sp sl : ReplicationSlotList) (o : Op) :
  o ∈ plan sp sl →
  (∃ x, x ∈ Items sp ∧ (o = OpUpdate x ∨ (o = OpCreate x ∧ Has sl (SlotName x) = false))) ∨
  (∃ x, x ∈ Items sl ∧ o = OpDelete x ∧ Has sp (SlotName x) = false).
Proof.
  unfold plan. intros [Ho|Ho]%elem_of_app;
    rewrite list_elem_of_In in Ho; apply in_flat_map in Ho as (x & Hx & Ho);
    rewrite <- list_elem_of_In in Hx.
  - left. exists x. split; [done|]. unfold upsert in Ho.
    destruct (Has sl (SlotName x)); simpl in Ho.
    + destruct Ho as [<-|[]]. by left.
    + destruct Ho as [<-|[<-|[]]]; [by right|by left].
  - right. exists x. split; [done|]. unfold prune in Ho.
    destruct (Has sp (SlotName x)); simpl in Ho; [done|].
    by destruct Ho as [<-|[]].
Qed.

(** X1.  Whatever happens in a pass, the primary is asked exactly once,
    for its list: no [Create], [Update] or [Delete] ever goes to the
    primary, and no second [List]. *)
Theorem pass_asks_primary_only_to_list
    {W : Type} (primary local : Manager W) (podName : string) (config : Config) (w : W) :
  ∃ out,
    filter (λ c, backend c = Primary)
      (calls (snd (synchronizeReplicationSlots observe_log
                     (observe Primary primary) (observe Local local)
                     podName config (observing w))))
    = [{| backend := Primary; op := OpList podName config; outcome := out |}].
Proof.
  destruct (synchronizeReplicationSlots _ _ _ _ _ _) as [r s'] eqn:Hrun.
  apply pass_calls_within in Hrun as (out & rest & planned & Hcalls & Hrest & _).
  exists out. simpl. rewrite Hcalls. rewrite filter_cons_True by done. f_equal.
  clear Hcalls. induction rest as [|c rest IH]; [done|].
  rewrite filter_cons_False.
  - apply IH. intros c' Hc'. apply Hrest. by right.
  - destruct (Hrest c) as [Hb _]; [by left|]. simpl. congruence.
Qed.

(** X2.  In one pass no slot name is both deleted and created or
    updated: a [Delete] is only asked for a name the primary list does
    not have, a [Create] or an [Update] only for a slot of the primary
    list. *)
Theorem pass_never_deletes_what_it_upserts
    {W : Type} (primary local : Manager W) (podName : string) (config : Config) (w : W)
    (c1 c2 : Call) (x y : ReplicationSlot) :
  c1 ∈ calls (snd (synchronizeReplicationSlots observe_log
                     (observe Primary primary) (observe Local local)
                     podName config (observing w))) →
  c2 ∈ calls (snd (synchronizeReplicationSlots observe_log
                     (observe Primary primary) (observe Local local)
                     podName config (observing w))) →
  op c1 = OpDelete x →
  op c2 = OpCreate y ∨ op c2 = OpUpdate y →
  SlotName x ≠ SlotName y.
Proof.
  destruct (synchronizeReplicationSlots _ _ _ _ _ _) as [r s'] eqn:Hrun.
  apply pass_calls_within in Hrun as (out & rest & planned & Hcalls & Hrest & Hplanned).
  simpl. rewrite Hcalls. intros H1 H2 Hdel Hup.
  assert (Hin : ∀ c o, c ∈ {| backend := Primary; op := OpList podName config;
                               outcome := out |} :: rest →
                       op c = o → (∀ p cfg, o ≠ OpList p cfg) → o ∈ planned).
  { intros c o Hc Ho Hnl. apply elem_of_cons in Hc as [Hc|Hc].
    - subst c. simpl in Ho. by destruct (Hnl podName config).
    - destruct (Hrest c Hc) as [_ [Hl|Hp]]; [|by rewrite <- Ho].
      rewrite Ho in Hl. by destruct (Hnl podName config). }
  destruct Hplanned as [->|(sp & w1 & sl & w2 & _ & _ & ->)].
  { apply (Hin c1 (OpDelete x)) in H1; [|done..]. by apply not_elem_of_nil in H1. }
  apply (Hin c1 (OpDelete x)) in H1; [|done..].
  apply plan_elem in H1 as [(x' & _ & [?|[? _]])|(x' & _ & [= <-] & Hnot)]; [done..|].
  assert (Hy : y ∈ Items sp).
  { destruct Hup as [Hup|Hup].
    - apply (Hin c2 (OpCreate y)) in H2; [|done..].
      apply plan_elem in H2 as [(y' & Hy' & [?|[[= <-] _]])|(y' & _ & ? & _)]; done.
    - apply (Hin c2 (OpUpdate y)) in H2; [|done..].
      apply plan_elem in H2 as [(y' & Hy' & [[= <-]|[? _]])|(y' & _ & ? & _)]; done. }
  intros Heq. rewrite Heq in Hnot.
  assert (Has sp (SlotName y) = true) by (apply Has_elem; by apply list_elem_of_fmap_2).
  congruence.
Qed.

Lemma pass_never_deletes_what_it_upserts_witness :
  SlotName slotC ≠ SlotName slotA.
Proof.
  apply (pass_never_deletes_what_it_upserts
           (memManager Primary) (memManager Local) "pod-1" (haConfig true 30)
           exampleDatabases
           (ok_call Local (OpDelete slotC)) (ok_call Local (OpCreate slotA))).
  - apply (bool_decide_unpack _). vm_compute. exact I.
  - apply (bool_decide_unpack _). vm_compute. exact I.
  - reflexivity.
  - left. reflexivity.
Defined.

(** ** A replica that already names the slots of the primary *)

Lemma upserts_same_names (sl : ReplicationSlotList) (l : list ReplicationSlot) :
  (∀ x, x ∈ l → Has sl (SlotName x) = true) →
  flat_map (upsert sl) l = map OpUpdate l.
Proof.
  induction l as [|x l IH]; intros Hl; [done|]. simpl.
  rewrite IH by (intros y Hy; apply Hl; by right).
  unfold upsert. rewrite (Hl x) by by left. reflexivity.
Qed.

Lemma prunes_same_names (sp : ReplicationSlotList) (l : list ReplicationSlot) :
  (∀ x, x ∈ l → Has sp (SlotName x) = true) →
  flat_map (prune sp) l = [].
Proof.
  induction l as [|x l IH]; intros Hl; [done|]. simpl.
  rewrite IH by (intros y Hy; apply Hl; by right).
  unfold prune. rewrite (Hl x) by by left. reflexivity.
Qed.

Lemma plan_same_names (sp sl : ReplicationSlotList) :
  sameNames sp sl → plan sp sl = map OpUpdate (Items sp).
Proof.
  intros [Hp Hl]. unfold plan.
  rewrite upserts_same_names, prunes_same_names by done. apply app_nil_r.
Qed.

(** X3.  When the two lists name the same slots, the pass asks the
    local manager for nothing but an [Update] per slot of the primary
    list: no [Create], no [Delete]; a pass that runs to its end has made
    exactly the two [List] calls and these [Update]s, in the order of
    the primary list. *)
Theorem pass_over_same_names_only_updates
    {W : Type} (primary local : Manager W) (podName : string) (config : Config)
    (w w1 w2 : W) (sp sl : ReplicationSlotList) (r : result unit) (s' : Observed W) :
  List primary podName config w = (Ok sp, w1) →
  List local podName config w1 = (Ok sl, w2) →
  sameNames sp sl →
  synchronizeReplicationSlots observe_log
    (observe Primary primary) (observe Local local) podName config (observing w)
    = (r, s') →
  (∀ c, c ∈ calls s' →
        op c = OpList podName config ∨ ∃ x, x ∈ Items sp ∧ op c = OpUpdate x) ∧
  (r = Ok tt →
   calls s' = ok_call Primary (OpList podName config)
              :: ok_call Local (OpList podName config)
              :: map (λ x, ok_call Local (OpUpdate x)) (Items sp)).
Proof.
  intros Hp Hl Hsame Hrun.
  pose proof (pass_shape _ _ _ _ _ _ _ Hrun) as [_ Hshape].
  apply plan_same_names in Hsame.
  destruct Hshape as [(e & Hp' & _)|(sp' & w1' & Hp' & Hshape)]; [congruence|].
  rewrite Hp in Hp'. injection Hp' as <- <-.
  destruct Hshape as [(e & Hl' & _)|(sl' & w2' & Hl' & Hshape)]; [congruence|].
  rewrite Hl in Hl'. injection Hl' as <- <-.
  rewrite Hsame in Hshape.
  assert (Hups : ∀ (l : list ReplicationSlot) (c : Call),
            c ∈ map (ok_call Local) (map OpUpdate l) →
            ∃ x, x ∈ l ∧ op c = OpUpdate x).
  { intros l c Hc. rewrite list_elem_of_In in Hc.
    apply in_map_iff in Hc as (o & <- & Ho). apply in_map_iff in Ho as (x & <- & Hx).
    exists x. by rewrite list_elem_of_In. }
  destruct Hshape as [[-> Hcalls]|(e & pre & o & rest & -> & Hplan & Hcalls)];
    rewrite Hcalls.
  - split; [|intros _; by rewrite map_map].
    intros c Hc. apply elem_of_cons in Hc as [Hc|Hc]; [subst c; by left|].
    apply elem_of_cons in Hc as [Hc|Hc]; [subst c; by left|].
    right. by apply Hups.
  - split; [|done].
    assert (Hsplit : Items sp = firstn (length pre) (Items sp)
                                ++ skipn (length pre) (Items sp))
      by (symmetry; apply firstn_skipn).
    assert (Hpre : pre = map OpUpdate (firstn (length pre) (Items sp))).
    { rewrite <- firstn_map, Hplan. by rewrite firstn_app, Nat.sub_diag, firstn_all,
        firstn_O, app_nil_r. }
    assert (Ho : ∃ x, x ∈ Items sp ∧ o = OpUpdate x).
    { assert (Hin : o ∈ map OpUpdate (Items sp))
        by (rewrite Hplan; apply elem_of_app; right; by left).
      rewrite list_elem_of_In in Hin. apply in_map_iff in Hin as (x & <- & Hx).
      exists x. by rewrite list_elem_of_In. }
    intros c Hc. apply elem_of_cons in Hc as [Hc|Hc]; [subst c; by left|].
    apply elem_of_cons in Hc as [Hc|Hc]; [subst c; by left|].
    right. apply elem_of_app in Hc as [Hc|Hc].
    + rewrite Hpre in Hc. apply Hups in Hc as (x & Hx & Hop).
      exists x. split; [|done]. rewrite Hsplit. apply elem_of_app. by left.
    + apply list_elem_of_singleton in Hc. subst c. exact Ho.
Qed.

Lemma pass_over_same_names_only_updates_witness :
  calls (snd (synchronizeReplicationSlots observe_log
                (observe Primary (memManager Primary)) (observe Local (memManager Local))
                "pod-1" (haConfig true 30) (observing syncedDatabases)))
  = [ok_call Primary (OpList "pod-1" (haConfig true 30));
     ok_call Local (OpList "pod-1" (haConfig true 30));
     ok_call Local (OpUpdate slotA); ok_call Local (OpUpdate slotB)].
Proof.
  refine (proj2 (pass_over_same_names_only_updates
           (memManager Primary) (memManager Local) "pod-1" (haConfig true 30)
           syncedDatabases syncedDatabases syncedDatabases
           {| Items := [slotA; slotB] |} {| Items := [staleB; slotA] |}
           (Ok tt) _ eq_refl eq_refl _ _) eq_refl).
  - split; intros x Hx; simpl in Hx;
      repeat (apply elem_of_cons in Hx as [Hx|Hx]; [subst x; reflexivity|]);
      by apply not_elem_of_nil in Hx.
  - vm_compute. reflexivity.
Defined.

(** ** A second pass over back ends in memory *)

Lemma names_determine (l : list ReplicationSlot) (x y : ReplicationSlot) :
  NoDup (SlotName <$> l) → x ∈ l → y ∈ l → SlotName x = SlotName y → x = y.
Proof.
  induction l as [|a l IH]; intros Hnd Hx Hy Hname; [by apply not_elem_of_nil in Hx|].
  rewrite fmap_cons in Hnd. apply NoDup_cons in Hnd as [Ha Hnd].
  apply elem_of_cons in Hx as [Hx|Hx]; apply elem_of_cons in Hy as [Hy|Hy]; subst.
  - done.
  - destruct Ha. rewrite Hname. by apply list_elem_of_fmap_2.
  - destruct Ha. rewrite <- Hname. by apply list_elem_of_fmap_2.
  - by apply IH.
Qed.

(** Updating slots the instance already holds changes nothing. *)
Lemma updates_keep (cur l : list ReplicationSlot) :
  NoDup (SlotName <$> cur) →
  (∀ x, x ∈ l → x ∈ cur) →
  applyAll cur (map OpUpdate l) = Some cur.
Proof.
  intros Hnd. induction l as [|x l IH]; intros Hl; [done|]. simpl.
  assert (Hx : x ∈ cur) by (apply Hl; by left).
  assert (Hex : existsb (named (SlotName x)) cur = true)
    by (apply named_elem; by apply list_elem_of_fmap_2).
  rewrite Hex.
  assert (Hsame : map (λ y, if named (SlotName x) y then x else y) cur = cur).
  { rewrite <- (map_id cur) at 2. apply map_ext_in. intros y Hy.
    rewrite <- list_elem_of_In in Hy. unfold named. case_bool_decide as Hn; [|done].
    symmetry. by apply (names_determine cur). }
  rewrite Hsame. apply IH. intros y Hy. apply Hl. by right.
Qed.

(** A pass over the back ends in memory whose plan goes through. *)
Lemma pass_mem (podName : string) (config : Config) (db : Databases)
    (cur' : list ReplicationSlot) :
  applyAll (localSlots db)
    (plan {| Items := primarySlots db |} {| Items := localSlots db |}) = Some cur' →
  ∃ s',
    synchronizeReplicationSlots observe_log
      (observe Primary (memManager Primary)) (observe Local (memManager Local))
      podName config (observing db) = (Ok tt, s') ∧
    world s' = withSlots Local cur' db ∧
    calls s' = ok_call Primary (OpList podName config)
               :: ok_call Local (OpList podName config)
               :: map (ok_call Local)
                    (plan {| Items := primarySlots db |} {| Items := localSlots db |}).
Proof.
  intros Hplan.
  set (sp := {| Items := primarySlots db |}) in *.
  set (sl := {| Items := localSlots db |}) in *.
  assert (Hrun : ∃ s',
    synchronizeReplicationSlots observe_log
      (observe Primary (memManager Primary)) (observe Local (memManager Local))
      podName config (observing db) = (Ok tt, s') ∧
    world s' = withSlots Local cur' db).
  { unfold synchronizeReplicationSlots.
    change (List (observe Primary (memManager Primary)) podName config)
      with (record Primary (OpList podName config) (List (memManager Primary) podName config)).
    change (List (observe Local (memManager Local)) podName config)
      with (record Local (OpList podName config) (List (memManager Local) podName config)).
    rewrite record_spec. cbn [fst snd world calls lines observing observe_log err_of app].
    cbn [List memManager fst snd slotsOf].
    rewrite record_spec. cbn [fst snd world calls lines observing observe_log err_of app].
    cbn [List memManager fst snd slotsOf].
    fold sp sl. rewrite loops_perform_plan.
    edestruct (exec_mem (plan sp sl)) as (s' & Hrun & Hw); [|exists s'; split; [exact Hrun|]].
    { exact Hplan. }
    by rewrite Hw. }
  destruct Hrun as (s' & Hrun & Hw). exists s'. split; [done|]. split; [done|].
  apply pass_shape in Hrun as [_ Hshape].
  destruct Hshape as [(e & _ & ? & _)|(sp' & w1 & Hp & Hshape)]; [done|].
  simpl in Hp. injection Hp as <- <-.
  destruct Hshape as [(e & _ & ? & _)|(sl' & w2 & Hl & Hshape)]; [done|].
  simpl in Hl. injection Hl as <- <-.
  destruct Hshape as [[_ Hcalls]|(e & pre & o & rest & ? & _)]; done.
Qed.

(** X4.  Over back ends in memory with unique slot names a pass is
    idempotent: a second pass right after the first succeeds, makes no
    [Create] and no [Delete], only the [Update]s of the primary slots,
    and leaves both back ends exactly as the first pass left them. *)
Theorem second_pass_changes_nothing_in_memory
    (podName : string) (config : Config) (db : Databases) :
  NoDup (SlotName <$> primarySlots db) →
  NoDup (SlotName <$> localSlots db) →
  ∃ s1 s2,
    synchronizeReplicationSlots observe_log
      (observe Primary (memManager Primary)) (observe Local (memManager Local))
      podName config (observing db) = (Ok tt, s1) ∧
    synchronizeReplicationSlots observe_log
      (observe Primary (memManager Primary)) (observe Local (memManager Local))
      podName config (observing (world s1)) = (Ok tt, s2) ∧
    world s2 = world s1 ∧
    calls s2 = ok_call Primary (OpList podName config)
               :: ok_call Local (OpList podName config)
               :: map (λ x, ok_call Local (OpUpdate x)) (primarySlots db).
Proof.
  intros HndP HndL.
  destruct (pass_converges_in_memory podName config db HndP HndL)
    as (s1 & Hrun1 & Hprim & Hperm).
  exists s1.
  set (db1 := world s1) in *.
  assert (Hsame : sameNames {| Items := primarySlots db1 |} {| Items := localSlots db1 |}).
  { split; intros x Hx; simpl in Hx; apply Has_elem; simpl;
      apply list_elem_of_fmap_2.
    - rewrite Hperm. by rewrite <- Hprim.
    - rewrite Hprim. by rewrite <- Hperm. }
  assert (Hplan : applyAll (localSlots db1)
            (plan {| Items := primarySlots db1 |} {| Items := localSlots db1 |})
          = Some (localSlots db1)).
  { rewrite (plan_same_names _ _ Hsame). simpl. apply updates_keep.
    - by rewrite Hperm.
    - intros x Hx. rewrite Hperm. by rewrite <- Hprim. }
  destruct (pass_mem podName config db1 _ Hplan) as (s2 & Hrun2 & Hw2 & Hcalls2).
  exists s2. split; [done|]. split; [done|]. split.
  - rewrite Hw2. by destruct db1.
  - rewrite Hcalls2, (plan_same_names _ _ Hsame). simpl. by rewrite map_map, Hprim.
Qed.

Lemma second_pass_changes_nothing_in_memory_witness :
  ∃ s1 s2,
    synchronizeReplicationSlots observe_log
      (observe Primary (memManager Primary)) (observe Local (memManager Local))
      "pod-1" (haConfig true 30) (observing exampleDatabases) = (Ok tt, s1) ∧
    synchronizeReplicationSlots observe_log
      (observe Primary (memManager Primary)) (observe Local (memManager Local))
      "pod-1" (haConfig true 30) (observing (world s1)) = (Ok tt, s2) ∧
    world s2 = world s1 ∧
    calls s2 = ok_call Primary (OpList "pod-1" (haConfig true 30))
               :: ok_call Local (OpList "pod-1" (haConfig true 30))
               :: map (λ x, ok_call Local (OpUpdate x)) (primarySlots exampleDatabases).
Proof.
  apply (second_pass_changes_nothing_in_memory "pod-1" (haConfig true 30) exampleDatabases).
  - apply (bool_decide_unpack _). vm_compute. exact I.
  - apply (bool_decide_unpack _). vm_compute. exact I.
Defined.

(** ** The loop *)

(** X5.  While replication is disabled the loop touches neither back
    end: from a phase that is not reconciling, whatever sequence of
    ticks, cancellations and configurations that keep replication
    disabled is received, no call is made on either manager, the back
    ends stay as they were, and the loop is still not reconciling. *)
Theorem disabled_loop_makes_no_call
    {W : Type} (primary local : Manager W) (PodName : string)
    (GetUpdateInterval : Config → Z) (evs : list Event) :
  ∀ (ph ph' : Phase) (s s' : Observed W),
    idle ph →
    Forall keepsDisabled evs →
    run observe_log (observe Primary primary) (observe Local local)
      PodName GetUpdateInterval ph evs s = Some (ph', s') →
    calls s' = calls s ∧ world s' = world s ∧ idle ph'.
Proof.
  induction evs as [|ev evs IH]; intros ph ph' s s' Hidle Hevs Hrun; simpl in Hrun.
  - by injection Hrun as <- <-.
  - apply Forall_cons in Hevs as [Hev Hevs].
    destruct (step _ _ _ _ _ ph ev s) as [[ph1 s1]|] eqn:Hstep; [|done].
    assert (Hone : calls s1 = calls s ∧ world s1 = world s ∧ idle ph1).
    { destruct ph as [|config updateInterval ticker|ticker|];
        destruct ev as [|config'|]; simpl in Hstep, Hidle, Hev; try done.
      - destruct (NewTicker _); by injection Hstep as <- <-.
      - by injection Hstep as <- <-.
      - unfold iteration in Hstep. rewrite Hev in Hstep. by injection Hstep as <- <-.
      - destruct (running ticker); [|done].
        unfold iteration in Hstep. rewrite Hidle in Hstep. by injection Hstep as <- <-. }
    destruct Hone as (Hc1 & Hw1 & Hidle1).
    destruct (IH ph1 ph' s1 s' Hidle1 Hevs Hrun) as (Hc & Hw & Hidle').
    split; [congruence|]. split; [congruence|done].
Qed.

Lemma disabled_loop_makes_no_call_witness :
  ∃ s',
    run observe_log (observe Primary (memManager Primary)) (observe Local (memManager Local))
      "pod-1" intervalOf WaitingForConfig
      [ConfigPushed (haConfig false 30); TickElapsed; ConfigPushed None; CtxDone]
      (observing exampleDatabases)
    = Some (Terminated {| period := 30; running := false |}, s') ∧
    calls s' = [] ∧ world s' = exampleDatabases.
Proof.
  eexists. split; [vm_compute; reflexivity|].
  refine (let H := disabled_loop_makes_no_call
            (memManager Primary) (memManager Local) "pod-1" intervalOf
            [ConfigPushed (haConfig false 30); TickElapsed; ConfigPushed None; CtxDone]
            WaitingForConfig _ (observing exampleDatabases) _ I _ _ in
          conj (proj1 H) (proj1 (proj2 H))).
  - repeat constructor.
  - vm_compute. reflexivity.
Defined.

Lemma iteration_tracks {S : Type} (log : LogLine → S → S) (primary local : Manager S)
    (PodName : string) (GetUpdateInterval : Config → Z)
    (config : Config) (updateInterval : Z) (ticker : Ticker) (s : S) :
  period ticker = updateInterval →
  (0 < updateInterval)%Z →
  tracks GetUpdateInterval
    (fst (iteration log primary local PodName GetUpdateInterval
            config updateInterval ticker s)).
Proof.
  intros Hper Hpos. unfold iteration.
  destruct (disabled config) eqn:Hdis; [simpl; by repeat split|].
  case_bool_decide as Hne.
  - unfold Reset. case_bool_decide as Hle; [done|]. cbv zeta.
    destruct (synchronizeReplicationSlots _ _ _ _ _ _) as [[[]|e] s1]; simpl;
      (split; [done|split; [lia|done]]).
  - cbv zeta.
    destruct (synchronizeReplicationSlots _ _ _ _ _ _) as [[[]|e] s1]; simpl;
      (split; [congruence|split; [lia|done]]).
Qed.

Lemma step_tracks {S : Type} (log : LogLine → S → S) (primary local : Manager S)
    (PodName : string) (GetUpdateInterval : Config → Z)
    (ph ph' : Phase) (ev : Event) (s s' : S) :
  tracks GetUpdateInterval ph →
  step log primary local PodName GetUpdateInterval ph ev s = Some (ph', s') →
  tracks GetUpdateInterval ph'.
Proof.
  intros Htr Hstep.
  destruct ph as [|config updateInterval ticker|ticker|];
    destruct ev as [|config'|]; simpl in Hstep; try done.
  - unfold NewTicker in Hstep. case_bool_decide as Hle.
    + by injection Hstep as <- <-.
    + injection Hstep as <- <-. simpl. split; [done|]. split; [lia|done].
  - by injection Hstep as <- <-.
  - destruct Htr as (Hper & Hpos & _).
    pose proof (iteration_tracks log primary local PodName GetUpdateInterval
                  config' updateInterval ticker s Hper Hpos) as Hit.
    destruct (iteration _ _ _ _ _ config' updateInterval ticker s) as [ph1 s1].
    by injection Hstep as <- <-.
  - destruct Htr as (Hper & Hpos & _).
    destruct (running ticker); [|done].
    pose proof (iteration_tracks log primary local PodName GetUpdateInterval
                  config updateInterval ticker s Hper Hpos) as Hit.
    destruct (iteration _ _ _ _ _ config updateInterval ticker s) as [ph1 s1].
    by injection Hstep as <- <-.
Qed.

(** X6.  At every receive of the goroutine the ticker ticks at the
    interval held in [updateInterval], that interval is positive, and a
    ticker that is running ticks at the interval of the configuration
    in force; a goroutine that has returned has stopped its ticker. *)
Theorem running_ticker_follows_configuration
    {S : Type} (log : LogLine → S → S) (primary local : Manager S)
    (PodName : string) (GetUpdateInterval : Config → Z)
    (evs : list Event) (s s' : S) (ph' : Phase) :
  run log primary local PodName GetUpdateInterval WaitingForConfig evs s = Some (ph', s') →
  tracks GetUpdateInterval ph'.
Proof.
  assert (Hgen : ∀ ph s0, tracks GetUpdateInterval ph →
            run log primary local PodName GetUpdateInterval ph evs s0 = Some (ph', s') →
            tracks GetUpdateInterval ph').
  { induction evs as [|ev evs IH]; intros ph s0 Htr Hrun; simpl in Hrun.
    - by injection Hrun as <- <-.
    - destruct (step _ _ _ _ _ ph ev s0) as [[ph1 s1]|] eqn:Hstep; [|done].
      eapply IH; [|exact Hrun]. by eapply step_tracks. }
  by apply Hgen.
Qed.

Lemma running_ticker_follows_configuration_witness :
  tracks intervalOf (Selecting (haConfig true 10) 10 {| period := 10; running := true |}).
Proof.
  refine (running_ticker_follows_configuration observe_log
            (observe Primary (memManager Primary)) (observe Local (memManager Local))
            "pod-1" intervalOf
            [ConfigPushed (haConfig true 30); TickElapsed; ConfigPushed (haConfig true 10)]
            (observing exampleDatabases) _ _ _).
  vm_compute. reflexivity.
Defined.

(** ** The calls of the loop *)

Section Frame.
Context {W : Type}.
Variables primary local : Manager W.

(** What an observed computation does after [s0] is what it does from
    scratch over the back ends of [s0], appended to [s0]. *)
Lemma forM_following (ops : list Op) :
  ∀ s0 s : Observed W,
    forM_ ops (perform (observe Local local)) (following s0 s) =
      (fst (forM_ ops (perform (observe Local local)) s),
       following s0 (snd (forM_ ops (perform (observe Local local)) s))).
Proof.
  induction ops as [|o ops IH]; intros s0 s; [done|].
  simpl. unfold bind. rewrite !perform_observe.
  cbn [world calls lines following].
  destruct (perform local o (world s)) as [[[]|e] w1]; cbn [fst snd err_of].
  - rewrite <- IH. unfold following. cbn [world calls lines]. by rewrite app_assoc.
  - unfold following. cbn [world calls lines]. by rewrite app_assoc.
Qed.

Lemma pass_following (podName : string) (config : Config) (s0 : Observed W) :
  synchronizeReplicationSlots observe_log
    (observe Primary primary) (observe Local local) podName config s0 =
    (fst (synchronizeReplicationSlots observe_log
            (observe Primary primary) (observe Local local) podName config
            (observing (world s0))),
     following s0
       (snd (synchronizeReplicationSlots observe_log
               (observe Primary primary) (observe Local local) podName config
               (observing (world s0))))).
Proof.
  unfold synchronizeReplicationSlots.
  change (List (observe Primary primary) podName config)
    with (record Primary (OpList podName config) (List primary podName config)).
  change (List (observe Local local) podName config)
    with (record Local (OpList podName config) (List local podName config)).
  rewrite !record_spec. cbn [world calls lines observing app].
  destruct (List primary podName config (world s0)) as [[sp|e] w1]; cbn [fst snd err_of].
  2: { unfold following. cbn [world calls lines]. by rewrite app_nil_r. }
  rewrite ?record_spec. cbn [world calls lines observing observe_log app].
  destruct (List local podName config w1) as [[sl|e] w2]; cbn [fst snd err_of].
  2: { unfold following. cbn [world calls lines]. by rewrite <- app_assoc. }
  rewrite !loops_perform_plan.
  rewrite <- forM_following. f_equal.
  unfold following, observe_log. cbn [world calls lines].
  by rewrite <- !app_assoc.
Qed.

End Frame.

(** X7.  Whatever the loop receives, the calls it adds ask the primary
    for nothing but its list, and every [List] it makes, on either
    manager, is for the pod of this instance and under a configuration
    that enables replication. *)
Theorem loop_lists_only_when_enabled
    {W : Type} (primary local : Manager W) (PodName : string)
    (GetUpdateInterval : Config → Z) (evs : list Event) :
  ∀ (ph ph' : Phase) (s s' : Observed W),
    run observe_log (observe Primary primary) (observe Local local)
      PodName GetUpdateInterval ph evs s = Some (ph', s') →
    ∃ added,
      calls s' = calls s ++ added ∧
      ∀ c, c ∈ added →
           (backend c = Primary → ∃ config, op c = OpList PodName config) ∧
           (∀ podName config, op c = OpList podName config →
                              podName = PodName ∧ disabled config = false).
Proof.
  assert (Hpass : ∀ config (s : Observed W),
            disabled config = false →
            ∃ added,
              calls (snd (synchronizeReplicationSlots observe_log
                       (observe Primary primary) (observe Local local) PodName config s))
              = calls s ++ added ∧
              ∀ c, c ∈ added →
                   (backend c = Primary → ∃ config, op c = OpList PodName config) ∧
                   (∀ podName config, op c = OpList podName config →
                                      podName = PodName ∧ disabled config = false)).
  { intros config s Hen. rewrite pass_following. cbn [snd following calls].
    destruct (synchronizeReplicationSlots _ _ _ _ _ (observing (world s)))
      as [r s1] eqn:Hrun.
    apply pass_calls_within in Hrun as (out & rest & planned & Hcalls & Hrest & Hplanned).
    exists (calls s1). split; [done|]. rewrite Hcalls.
    intros c Hc. apply elem_of_cons in Hc as [Hc|Hc].
    { subst c. simpl. split; [by exists config|]. by intros p cfg [= <- <-]. }
    destruct (Hrest c Hc) as [Hb Hop]. split; [congruence|].
    intros p cfg Hlist. destruct Hop as [Hop|Hop]; [rewrite Hop in Hlist; by injection Hlist as <- <-|].
    rewrite Hlist in Hop.
    destruct Hplanned as [->|(sp & w1 & sl & w2 & _ & _ & ->)];
      [by apply not_elem_of_nil in Hop|].
    apply plan_elem in Hop as [(x & _ & [?|[? _]])|(x & _ & ? & _)]; done. }
  assert (Hiter : ∀ config updateInterval ticker (s : Observed W),
            ∃ added,
              calls (snd (iteration observe_log (observe Primary primary)
                            (observe Local local) PodName GetUpdateInterval
                            config updateInterval ticker s))
              = calls s ++ added ∧
              ∀ c, c ∈ added →
                   (backend c = Primary → ∃ config, op c = OpList PodName config) ∧
                   (∀ podName config, op c = OpList podName config →
                                      podName = PodName ∧ disabled config = false)).
  { intros config updateInterval ticker s. unfold iteration.
    destruct (disabled config) eqn:Hen.
    { exists []. simpl. split; [by rewrite app_nil_r|]. intros c Hc.
      by apply not_elem_of_nil in Hc. }
    destruct (if bool_decide _ then _ else _) as [ticker'|].
    2: { exists []. simpl. split; [by rewrite app_nil_r|]. intros c Hc.
         by apply not_elem_of_nil in Hc. }
    cbv zeta.
    destruct (Hpass config (observe_log (LogTrace "Synchronizing") s) Hen)
      as (added & Hcalls & Hadded).
    exists added. split; [|done].
    destruct (synchronizeReplicationSlots _ _ _ _ _ _) as [[[]|e] s1]; exact Hcalls. }
  induction evs as [|ev evs IH]; intros ph ph' s s' Hrun; simpl in Hrun.
  - injection Hrun as <- <-. exists []. split; [by rewrite app_nil_r|].
    intros c Hc. by apply not_elem_of_nil in Hc.
  - destruct (step _ _ _ _ _ ph ev s) as [[ph1 s1]|] eqn:Hstep; [|done].
    assert (Hone : ∃ added,
              calls s1 = calls s ++ added ∧
              ∀ c, c ∈ added →
                   (backend c = Primary → ∃ config, op c = OpList PodName config) ∧
                   (∀ podName config, op c = OpList podName config →
                                      podName = PodName ∧ disabled config = false)).
    { assert (Hnone : calls s1 = calls s → ∃ added,
              calls s1 = calls s ++ added ∧
              ∀ c, c ∈ added →
                   (backend c = Primary → ∃ config, op c = OpList PodName config) ∧
                   (∀ podName config, op c = OpList podName config →
                                      podName = PodName ∧ disabled config = false)).
      { intros ->. exists []. split; [by rewrite app_nil_r|].
        intros c Hc. by apply not_elem_of_nil in Hc. }
      destruct ph as [|config updateInterval ticker|ticker|];
        destruct ev as [|config'|]; simpl in Hstep; try done.
      - apply Hnone. destruct (NewTicker _); by injection Hstep as <- <-.
      - apply Hnone. by injection Hstep as <- <-.
      - destruct (Hiter config' updateInterval ticker s) as (added & Hc & Hadded).
        injection Hstep as Hstep. rewrite Hstep in Hc. by exists added.
      - destruct (running ticker); [|done].
        destruct (Hiter config updateInterval ticker s) as (added & Hc & Hadded).
        injection Hstep as Hstep. rewrite Hstep in Hc. by exists added. }
    destruct Hone as (added1 & Hc1 & Hadded1).
    destruct (IH ph1 ph' s1 s' Hrun) as (added2 & Hc2 & Hadded2).
    exists (added1 ++ added2). split; [by rewrite Hc2, Hc1, app_assoc|].
    intros c Hc. apply elem_of_app in Hc as [Hc|Hc]; auto.
Qed.

Lemma loop_lists_only_when_enabled_witness :
  ∃ added,
    calls (snd (default (Crashed, observing exampleDatabases)
      (run observe_log (observe Primary (memManager Primary))
         (observe Local (memManager Local)) "pod-1" intervalOf WaitingForConfig
         [ConfigPushed (haConfig true 30); TickElapsed; ConfigPushed (haConfig false 30)]
         (observing exampleDatabases))))
    = [] ++ added ∧
    ∀ c, c ∈ added →
         (backend c = Primary → ∃ config, op c = OpList "pod-1" config) ∧
         (∀ podName config, op c = OpList podName config →
                            podName = "pod-1" ∧ disabled config = false).
Proof.
  refine (loop_lists_only_when_enabled (memManager Primary) (memManager Local)
            "pod-1" intervalOf
            [ConfigPushed (haConfig true 30); TickElapsed; ConfigPushed (haConfig false 30)]
            WaitingForConfig _ (observing exampleDatabases) _ _).
  vm_compute. reflexivity.
Defined.

End runner_extra.

(** * Further properties of the webhook PKI coordinator *)

Module certs_extra.
Import certs certs_proofs.

(** ** Computations confined to a set of calls *)

Section Within.
Context {W K : Type}.
Implicit Types (I : list Secret → Prop) (P : Ext K → Prop).

Lemma within_ret {A} I P (a : A) : within (W:=W) I P (ret a).
Proof.
  intros s r s' HI Hrun. unfold ret in Hrun. injection Hrun as <- <-.
  split; [done|]. exists []. by rewrite app_nil_r.
Qed.

Lemma within_fail {A} I P (e : error) : within (W:=W) (A:=A) I P (fail e).
Proof.
  intros s r s' HI Hrun. unfold fail in Hrun. injection Hrun as <- <-.
  split; [done|]. exists []. by rewrite app_nil_r.
Qed.

Lemma within_lift {A} I P (x : result A) : within (W:=W) I P (lift x).
Proof.
  intros s r s' HI Hrun. unfold lift in Hrun. injection Hrun as <- <-.
  split; [done|]. exists []. by rewrite app_nil_r.
Qed.

Lemma within_info I P (msg : string) : within (W:=W) I P (info msg).
Proof.
  intros s r s' HI Hrun. unfold info in Hrun. injection Hrun as <- <-.
  split; [done|]. exists []. by rewrite app_nil_r.
Qed.

Lemma within_deref I P (p : ptr) : within (W:=W) I P (deref p).
Proof.
  intros s r s' HI Hrun. unfold deref in Hrun.
  destruct (heap s !! p); injection Hrun as <- <-;
    (split; [done|]; exists []; by rewrite app_nil_r).
Qed.

Lemma within_new P (v : Secret) : within (W:=W) (λ _, True) P (new v).
Proof.
  intros s r s' HI Hrun. unfold new in Hrun. injection Hrun as <- <-.
  split; [done|]. exists []. by rewrite app_nil_r.
Qed.

Lemma within_setData P (p : ptr) (key : string) (value : bytes) :
  within (W:=W) (λ _, True) P (setData p key value).
Proof.
  intros s r s' HI Hrun. unfold setData in Hrun.
  destruct (heap s !! p); injection Hrun as <- <-;
    (split; [done|]; exists []; by rewrite app_nil_r).
Qed.

Lemma within_call {A} I P (e : Ext K) (m : M W A) :
  P e → within I P (call (traced e m)).
Proof.
  intros HP s r s' HI Hrun. unfold call, traced in Hrun.
  destruct (m (inner (world s))) as [r0 w]. injection Hrun as <- <-. simpl.
  split; [done|]. exists [e]. split; [done|]. by constructor.
Qed.

Lemma within_bind {A B} I P (m : M (State (Traced W K)) A)
    (k : A → M (State (Traced W K)) B) :
  within I P m → (∀ a, within I P (k a)) → within I P (bind m k).
Proof.
  intros Hm Hk s r s' HI Hrun. unfold bind in Hrun.
  destruct (m s) as [[a|e] s1] eqn:Hms.
  - destruct (Hm _ _ _ HI Hms) as (HI1 & es1 & Ht1 & HP1).
    destruct (Hk a _ _ _ HI1 Hrun) as (HI' & es2 & Ht2 & HP2).
    split; [done|]. exists (es1 ++ es2). rewrite Ht2, Ht1, app_assoc.
    split; [done|]. by apply Forall_app.
  - injection Hrun as <- <-. by apply (Hm _ _ _ HI Hms).
Qed.

(** Over a heap that stays [h], what is read through [p] is [h !! p]. *)
Lemma within_bind_deref {B} (h : list Secret) P (p : ptr)
    (k : Secret → M (State (Traced W K)) B) :
  (∀ v, h !! p = Some v → within (eq h) P (k v)) →
  within (eq h) P (bind (deref p) k).
Proof.
  intros Hk s r s' HI Hrun. unfold bind, deref in Hrun.
  destruct (heap s !! p) as [v|] eqn:Hv.
  - refine (Hk v _ s r s' HI Hrun). by rewrite HI.
  - injection Hrun as <- <-. split; [done|]. exists []. by rewrite app_nil_r.
Qed.

Lemma within_attempt {A} I P (m : M (State (Traced W K)) A) :
  within I P m → within I P (attempt m).
Proof.
  intros Hm s r s' HI Hrun. unfold attempt in Hrun.
  destruct (m s) as [r0 s0] eqn:Hms. injection Hrun as <- <-.
  by apply (Hm _ _ _ HI Hms).
Qed.

Lemma within_forM {A} I P (l : list A) (f : A → M (State (Traced W K)) unit) :
  (∀ x, x ∈ l → within I P (f x)) → within I P (forM_ l f).
Proof.
  induction l as [|x l IH]; intros Hf; simpl; [apply within_ret|].
  apply within_bind; [apply Hf; by left|]. intros _. apply IH.
  intros y Hy. apply Hf. by right.
Qed.

Variable client : Interface W.
Variable fs : FileSystem W.
Variable pki : PKI W K.
Variable rangeOf : gmap string bytes → list (string * bytes).

(** The two ensure functions call the secret store and the certificate
    helpers only. *)
Lemma within_renewCACertificate (secret : ptr) :
  within (λ _, True) (λ e, onSecretsOrPKI e = true)
    (renewCACertificate (tracedClient K client) (tracedPKI pki) secret).
Proof.
  unfold renewCACertificate.
  apply within_bind; [apply within_deref|]. intros v.
  apply within_bind; [apply within_lift|]. intros pair0.
  apply within_bind; [by apply within_call|]. intros expiring.
  destruct (negb expiring); [apply within_ret|].
  apply within_bind; [apply within_lift|]. intros privateKey.
  apply within_bind; [by apply within_call|]. intros pair1.
  apply within_bind; [apply within_setData|]. intros _.
  apply within_bind; [apply within_deref|]. intros v'.
  apply within_bind; [by apply within_call|]. intros updated.
  apply within_bind; [apply within_new|]. intros updatedSecret. apply within_ret.
Qed.

Lemma within_renewServerCertificate (caSecret : Secret) (secret : ptr) :
  within (λ _, True) (λ e, onSecretsOrPKI e = true)
    (renewServerCertificate (tracedClient K client) (tracedPKI pki) caSecret secret).
Proof.
  unfold renewServerCertificate.
  apply within_bind; [apply within_deref|]. intros v.
  apply within_bind; [apply within_lift|]. intros pair0.
  apply within_bind; [by apply within_call|]. intros expiring.
  destruct (negb expiring); [apply within_ret|].
  apply within_bind; [apply within_lift|]. intros caPair.
  apply within_bind; [apply within_lift|]. intros privateKey.
  apply within_bind; [by apply within_call|]. intros pair1.
  apply within_bind; [apply within_setData|]. intros _.
  apply within_bind; [apply within_deref|]. intros v'.
  apply within_bind; [by apply within_call|]. intros updated.
  apply within_bind; [apply within_new|]. intros updatedSecret. apply within_ret.
Qed.

Lemma within_EnsureRootCACertificate (namespace name : string) :
  within (λ _, True) (λ e, onSecretsOrPKI e = true)
    (EnsureRootCACertificate (tracedClient K client) (tracedPKI pki) namespace name).
Proof.
  unfold EnsureRootCACertificate.
  apply within_bind; [apply within_attempt; by apply within_call|]. intros [v|err].
  - apply within_bind; [apply within_new|]. intros secret.
    apply within_bind; [apply within_renewCACertificate|]. intros _. apply within_ret.
  - destruct (negb (IsNotFound err)); [apply within_fail|].
    apply within_bind; [by apply within_call|]. intros pair0.
    apply within_bind; [apply within_new|]. intros secret.
    apply within_bind; [apply within_deref|]. intros v.
    apply within_bind; [by apply within_call|]. intros created.
    apply within_bind; [apply within_new|]. intros createdSecret. apply within_ret.
Qed.

Lemma within_EnsureCertificate (webhook : WebhookEnvironment) (caSecret : ptr) :
  within (λ _, True) (λ e, onSecretsOrPKI e = true)
    (EnsureCertificate (tracedClient K client) (tracedPKI pki) webhook caSecret).
Proof.
  unfold EnsureCertificate.
  apply within_bind; [apply within_attempt; by apply within_call|]. intros [v|err].
  - apply within_bind; [apply within_new|]. intros secret.
    apply within_bind; [apply within_deref|]. intros ca.
    apply within_renewServerCertificate.
  - destruct (negb (IsNotFound err)); [apply within_fail|].
    apply within_bind; [apply within_deref|]. intros ca.
    apply within_bind; [apply within_lift|]. intros caPair.
    apply within_bind; [by apply within_call|]. intros webhookPair.
    apply within_bind; [apply within_new|]. intros secret.
    apply within_bind; [apply within_deref|]. intros v.
    apply within_bind; [by apply within_call|]. intros created.
    apply within_bind; [apply within_new|]. intros createdSecret. apply within_ret.
Qed.

(** The dump and the two injections keep the heap as it is and publish
    the secret they are given. *)
Lemma within_DumpSecretToDir (h : list Secret) (secret : ptr) (certDir : string) :
  within (eq h) (servedFrom rangeOf certDir (h !! secret))
    (DumpSecretToDir (tracedFS K fs) rangeOf secret certDir).
Proof.
  unfold DumpSecretToDir.
  apply within_bind; [by apply within_call|]. intros oldVersionExist.
  apply within_bind.
  { destruct oldVersionExist; [|apply within_ret].
    apply within_bind; [by apply within_call|]. intros oldVersion.
    apply within_bind; [apply within_deref|]. intros v. apply within_ret. }
  intros current. destruct current; [apply within_ret|].
  apply within_bind_deref. intros v Hv.
  apply within_bind.
  - apply within_forM. intros [name content] Hin. apply within_call. simpl.
    split; [done|]. exists v. split; [done|]. right. by exists name.
  - intros _. apply within_call. simpl. split; [done|]. exists v. split; [done|]. by left.
Qed.

Lemma injected_entries (bundle : bytes) (config : WebhookConfiguration) (entry : Webhook) :
  entry ∈ Webhooks (injectCABundle bundle config) →
  Webhooks config ≠ [] ∧ CABundle (ClientConfig entry) = bundle.
Proof.
  unfold injectCABundle. simpl. intros Hin. rewrite list_elem_of_In in Hin.
  apply in_map_iff in Hin as (entry0 & <- & Hin0). split; [|done].
  intros Hnil. by rewrite Hnil in Hin0.
Qed.

Lemma within_bundleFor_then {B} (h : list Secret) P (tlsSecret : ptr)
    (config : WebhookConfiguration) (k : bytes → M (State (Traced W K)) B) :
  (∀ bundle,
     (Webhooks config = [] ∨
      ∃ v, h !! tlsSecret = Some v ∧ bundle = default "" (Data v !! "tls.crt")) →
     within (eq h) P (k bundle)) →
  within (eq h) P (bind (bundleFor tlsSecret config) k).
Proof.
  intros Hk s r s' HI Hrun. unfold bind, bundleFor in Hrun.
  destruct (Webhooks config) as [|entry entries] eqn:Hw.
  - unfold ret in Hrun. refine (Hk "" _ s r s' HI Hrun). by left.
  - unfold bind, deref, ret in Hrun.
    destruct (heap s !! tlsSecret) as [v|] eqn:Hv.
    + refine (Hk (default "" (Data v !! "tls.crt")) _ s r s' HI Hrun).
      right. exists v. by rewrite HI.
    + injection Hrun as <- <-. split; [done|]. exists []. by rewrite app_nil_r.
Qed.

Lemma within_InjectMutating (h : list Secret) (webhook : WebhookEnvironment)
    (tlsSecret : ptr) (certDir : string) :
  within (eq h) (servedFrom rangeOf certDir (h !! tlsSecret))
    (InjectPublicKeyIntoMutatingWebhook (tracedClient K client) webhook tlsSecret).
Proof.
  unfold InjectPublicKeyIntoMutatingWebhook.
  apply within_bind; [by apply within_call|]. intros config.
  apply within_bundleFor_then. intros bundle Hbundle.
  apply within_bind; [|intros _; apply within_ret].
  apply within_call. simpl. intros entry Hentry.
  apply injected_entries in Hentry as [Hne ->].
  destruct Hbundle as [?|(v & Hv & ->)]; [done|]. by exists v.
Qed.

Lemma within_InjectValidating (h : list Secret) (webhook : WebhookEnvironment)
    (tlsSecret : ptr) (certDir : string) :
  within (eq h) (servedFrom rangeOf certDir (h !! tlsSecret))
    (InjectPublicKeyIntoValidatingWebhook (tracedClient K client) webhook tlsSecret).
Proof.
  unfold InjectPublicKeyIntoValidatingWebhook.
  apply within_bind; [by apply within_call|]. intros config.
  apply within_bundleFor_then. intros bundle Hbundle.
  apply within_bind; [|intros _; apply within_ret].
  apply within_call. simpl. intros entry Hentry.
  apply injected_entries in Hentry as [Hne ->].
  destruct Hbundle as [?|(v & Hv & ->)]; [done|]. by exists v.
Qed.

Lemma within_publish (h : list Secret) (webhook : WebhookEnvironment)
    (webhookSecret : ptr) :
  within (eq h) (servedFrom rangeOf (CertDir webhook) (h !! webhookSecret))
    (publish (tracedClient K client) (tracedFS K fs) rangeOf webhook webhookSecret).
Proof.
  unfold publish.
  apply within_bind; [apply within_DumpSecretToDir|]. intros _.
  apply within_bind; [apply within_attempt, within_InjectMutating|]. intros err1.
  apply within_bind.
  { destruct err1 as [[]|err]; [apply within_ret|].
    destruct (IsNotFound err); [apply within_info|apply within_fail]. }
  intros _.
  apply within_bind; [apply within_attempt, within_InjectValidating|]. intros err2.
  apply within_bind; [|intros _; apply within_ret].
  destruct err2 as [[]|err]; [apply within_ret|].
  destruct (IsNotFound err); [apply within_info|apply within_fail].
Qed.

(** A run of [Setup] first settles the two secrets, then publishes the
    server secret: the one at the pointer [EnsureCertificate] returned. *)
Lemma Setup_split (webhook : WebhookEnvironment) (s s' : State (Traced W K))
    (r : result unit) :
  Setup (tracedClient K client) (tracedFS K fs) (tracedPKI pki) rangeOf webhook s
    = (r, s') →
  ∃ es1 es2 tls,
    trace (world s') = trace (world s) ++ es1 ++ es2 ∧
    Forall (λ e, onSecretsOrPKI e = true) es1 ∧
    Forall (servedFrom rangeOf (CertDir webhook) tls) es2 ∧
    (es2 = [] ∨
     ∃ caSecret s1 webhookSecret s2,
       EnsureRootCACertificate (tracedClient K client) (tracedPKI pki)
         (OperatorNamespace webhook) (CaSecretName webhook) s = (Ok caSecret, s1) ∧
       EnsureCertificate (tracedClient K client) (tracedPKI pki) webhook caSecret s1
         = (Ok webhookSecret, s2) ∧
       tls = heap s2 !! webhookSecret).
Proof.
  change (Setup (tracedClient K client) (tracedFS K fs) (tracedPKI pki) rangeOf webhook)
    with (let* caSecret := EnsureRootCACertificate (tracedClient K client) (tracedPKI pki)
                             (OperatorNamespace webhook) (CaSecretName webhook) in
          let* webhookSecret := EnsureCertificate (tracedClient K client) (tracedPKI pki)
                                  webhook caSecret in
          publish (tracedClient K client) (tracedFS K fs) rangeOf webhook webhookSecret).
  intros Hrun. unfold bind at 1 in Hrun.
  destruct (EnsureRootCACertificate _ _ _ _ s) as [[caSecret|e] s1] eqn:H1.
  2: { injection Hrun as <- <-.
       destruct (within_EnsureRootCACertificate _ _ _ _ _ I H1) as (_ & es1 & Ht1 & HP1).
       exists es1, [], None. rewrite app_nil_r. split; [done|]. split; [done|].
       split; [done|by left]. }
  destruct (within_EnsureRootCACertificate _ _ _ _ _ I H1) as (_ & es1 & Ht1 & HP1).
  unfold bind at 1 in Hrun.
  destruct (EnsureCertificate _ _ _ _ s1) as [[webhookSecret|e] s2] eqn:H2.
  2: { injection Hrun as <- <-.
       destruct (within_EnsureCertificate _ _ _ _ _ I H2) as (_ & es2 & Ht2 & HP2).
       exists (es1 ++ es2), [], None. rewrite app_nil_r, Ht2, Ht1, app_assoc.
       split; [done|]. split; [by apply Forall_app|]. split; [done|by left]. }
  destruct (within_EnsureCertificate _ _ _ _ _ I H2) as (_ & es2 & Ht2 & HP2).
  destruct (within_publish (heap s2) webhook webhookSecret _ _ _ eq_refl Hrun)
    as (_ & es3 & Ht3 & HP3).
  exists (es1 ++ es2), es3, (heap s2 !! webhookSecret).
  rewrite Ht3, Ht2, Ht1, !app_assoc. split; [done|]. split; [by apply Forall_app|].
  split; [done|]. right. by exists caSecret, s1, webhookSecret, s2.
Qed.

End Within.

(** ** What [Setup] publishes *)

(** *** Joining a directory and a plain name *)

Lemma append_cons (x : Ascii.ascii) (a b : string) :
  String x a +:+ b = String x (a +:+ b).
Proof. reflexivity. Qed.

Lemma append_assoc (a b c : string) : (a +:+ b) +:+ c = a +:+ (b +:+ c).
Proof.
  induction a as [|x a IH]; [reflexivity|]. by rewrite !append_cons, IH.
Qed.

Lemma append_inj (prefix a b : string) : prefix +:+ a = prefix +:+ b → a = b.
Proof. apply String.app_inj. Qed.

Lemma elements_not_nil (path : string) : elements path ≠ [].
Proof.
  destruct path as [|c rest]; simpl; [done|].
  destruct (Ascii.eqb c slash); [done|]. by destruct (elements rest).
Qed.

Lemma elements_plain (name : string) :
  forallb (λ c, negb (Ascii.eqb c slash)) (String.list_ascii_of_string name) = true →
  elements name = [name].
Proof.
  induction name as [|c name IH]; simpl; [done|]. intros Hall.
  apply andb_true_iff in Hall as [Hc Hrest]. apply negb_true_iff in Hc.
  by rewrite Hc, (IH Hrest).
Qed.

Lemma elements_app (a b : string) :
  elements (a +:+ String slash b) = elements a ++ elements b.
Proof.
  induction a as [|c a IH].
  - change ("" +:+ String slash b) with (String slash b). reflexivity.
  - rewrite append_cons. simpl.
    destruct (Ascii.eqb c slash); rewrite IH; [done|].
    pose proof (elements_not_nil a) as Hne. by destruct (elements a).
Qed.

Lemma concat_snoc (sep : string) (l : list string) (x : string) :
  String.concat sep (l ++ [x]) =
    match l with
    | [] => x
    | _ => String.concat sep l +:+ sep +:+ x
    end.
Proof.
  induction l as [|y l IH]; [done|].
  destruct l as [|z l]; [done|].
  change (String.concat sep ((y :: z :: l) ++ [x]))
    with (y +:+ sep +:+ String.concat sep ((z :: l) ++ [x])).
  rewrite IH.
  change (String.concat sep (y :: z :: l))
    with (y +:+ sep +:+ String.concat sep (z :: l)).
  by rewrite !append_assoc.
Qed.

Lemma plainName_spec (name : string) :
  plainName name = true →
  String.eqb name "" = false ∧ String.eqb name "." = false ∧
  String.eqb name ".." = false ∧ elements name = [name].
Proof.
  unfold plainName. intros Hplain.
  apply andb_true_iff in Hplain as [Hplain Hslash].
  apply andb_true_iff in Hplain as [Hplain Hdotdot].
  apply andb_true_iff in Hplain as [Hempty Hdot].
  apply negb_true_iff in Hempty, Hdot, Hdotdot.
  by rewrite (elements_plain name Hslash).
Qed.

Lemma cleanStep_plain (rooted : bool) (out : list string) (name : string) :
  plainName name = true → cleanStep rooted out name = name :: out.
Proof.
  intros (Hempty & Hdot & Hdotdot & _)%plainName_spec.
  unfold cleanStep. by rewrite Hempty, Hdot, Hdotdot.
Qed.

(** Joined to a directory, plain names all get the same prefix: what
    cleaning makes of the directory, and a slash where one is needed. *)
Lemma path_Join_plain (dir : string) :
  ∃ prefix, ∀ name, plainName name = true → path_Join dir name = prefix +:+ name.
Proof.
  destruct dir as [|c dir].
  - exists "". intros name Hplain.
    pose proof (cleanStep_plain false [] name Hplain) as Hstep.
    apply plainName_spec in Hplain as (Hempty & _ & _ & Hone).
    destruct name as [|a name]; [done|].
    unfold path_Join, Clean. rewrite Hone.
    assert (Ascii.eqb a slash = false) as ->.
    { simpl in Hone. destruct (Ascii.eqb a slash); [|done].
      injection Hone as Hone _. done. }
    simpl foldl. by rewrite Hstep.
  - set (rooted := Ascii.eqb c slash).
    set (out := foldl (cleanStep rooted) [] (elements (String c dir))).
    exists ((if rooted then "/" else "") +:+
            match rev out with
            | [] => ""
            | written => String.concat "/" written +:+ "/"
            end).
    intros name Hplain.
    pose proof (cleanStep_plain rooted out name Hplain) as Hstep.
    apply plainName_spec in Hplain as (Hempty & _ & _ & Hone).
    destruct name as [|a name]; [done|].
    unfold path_Join.
    change (String c dir +:+ "/" +:+ String a name)
      with (String c (dir +:+ String slash (String a name))).
    unfold Clean. fold rooted.
    change (String c (dir +:+ String slash (String a name)))
      with (String c dir +:+ String slash (String a name)).
    rewrite elements_app, Hone, foldl_app. fold out. simpl foldl. rewrite Hstep.
    simpl rev. rewrite concat_snoc, append_assoc.
    destruct (rev out); [done|]. by rewrite append_assoc.
Qed.

Lemma path_Join_inj (dir name1 name2 : string) :
  plainName name1 = true →
  plainName name2 = true →
  path_Join dir name1 = path_Join dir name2 →
  name1 = name2.
Proof.
  intros Hplain1 Hplain2. destruct (path_Join_plain dir) as [prefix Hprefix].
  rewrite (Hprefix name1 Hplain1), (Hprefix name2 Hplain2). apply append_inj.
Qed.

Lemma plainKeys_lookup (v : Secret) (name : string) (data : bytes) :
  plainKeys v → Data v !! name = Some data → plainName name = true.
Proof. intros Hkeys Hname. exact (Hkeys name data Hname). Qed.

(** X8.  In every run of [Setup], whatever its outcome, in which the
    keys of the server secret that [EnsureCertificate] returned are
    plain names (as the keys of a Kubernetes secret are), the
    certificate written to the file [tls.crt] of the certificate
    directory is the one carried by every entry of every webhook
    configuration handed to update; and the entries of the mutating and
    of the validating configuration are handed the same bundle. *)
Theorem Setup_injects_the_certificate_it_dumps
    {W K : Type} (client : Interface W) (fs : FileSystem W) (pki : PKI W K)
    (rangeOf : gmap string bytes → list (string * bytes))
    (webhook : WebhookEnvironment) (s s' : State (Traced W K)) (r : result unit) :
  (∀ m, rangeOf m ≡ₚ map_to_list m) →
  (∀ caSecret s1 webhookSecret s2 v,
     EnsureRootCACertificate (tracedClient K client) (tracedPKI pki)
       (OperatorNamespace webhook) (CaSecretName webhook) s = (Ok caSecret, s1) →
     EnsureCertificate (tracedClient K client) (tracedPKI pki) webhook caSecret s1
       = (Ok webhookSecret, s2) →
     heap s2 !! webhookSecret = Some v →
     plainKeys v) →
  Setup (tracedClient K client) (tracedFS K fs) (tracedPKI pki) rangeOf webhook s
    = (r, s') →
  ∃ added,
    trace (world s') = trace (world s) ++ added ∧
    (∀ data config entry,
       WriteFileCall (path_Join (CertDir webhook) "tls.crt") data mode0600 ∈ added →
       MutatingUpdateCall config ∈ added ∨ ValidatingUpdateCall config ∈ added →
       entry ∈ Webhooks config →
       CABundle (ClientConfig entry) = data) ∧
    (∀ config1 config2 entry1 entry2,
       MutatingUpdateCall config1 ∈ added →
       ValidatingUpdateCall config2 ∈ added →
       entry1 ∈ Webhooks config1 →
       entry2 ∈ Webhooks config2 →
       CABundle (ClientConfig entry1) = CABundle (ClientConfig entry2)).
Proof.
  intros Hrange Hplain Hrun.
  apply Setup_split in Hrun as (es1 & es2 & tls & Ht & H1 & H2 & Htls).
  exists (es1 ++ es2). split; [done|].
  assert (Hserved : ∀ e, e ∈ es1 ++ es2 → onSecretsOrPKI e = false →
                         e ∈ es2 ∧ servedFrom rangeOf (CertDir webhook) tls e).
  { intros e He Hno. apply elem_of_app in He as [He|He].
    - rewrite Forall_forall in H1. rewrite (H1 e He) in Hno. done.
    - rewrite Forall_forall in H2. split; [done|]. by apply H2. }
  assert (Hkeys : ∀ e v, e ∈ es2 → tls = Some v → plainKeys v).
  { intros e v He Hv. destruct Htls as [->|(caSecret & s1 & webhookSecret & s2 & Hca & Hws & ->)].
    - by apply not_elem_of_nil in He.
    - by eapply Hplain. }
  assert (Hbundle : ∀ config entry,
            MutatingUpdateCall config ∈ es1 ++ es2 ∨
            ValidatingUpdateCall config ∈ es1 ++ es2 →
            entry ∈ Webhooks config →
            ∃ v, tls = Some v ∧
                 CABundle (ClientConfig entry) = default "" (Data v !! "tls.crt")).
  { intros config entry [Hc|Hc] Hentry;
      apply Hserved in Hc as [_ Hc]; [|done| |done]; by apply Hc. }
  split.
  - intros data config entry Hwrite Hupdate Hentry.
    destruct (Hbundle config entry Hupdate Hentry) as (v & Hv & ->).
    apply Hserved in Hwrite as [Hin2 Hwrite]; [|done]. simpl in Hwrite.
    destruct Hwrite as (_ & v' & Hv' & Hcases).
    assert (v' = v) as -> by congruence.
    pose proof (Hkeys _ v Hin2 Hv) as Hplainv.
    destruct Hcases as [[Hpath _]|(name & Hin & Hpath)].
    + apply path_Join_inj in Hpath; done.
    + rewrite (Hrange (Data v)) in Hin. apply elem_of_map_to_list in Hin.
      apply path_Join_inj in Hpath; [|done|by eapply plainKeys_lookup].
      subst name. by rewrite Hin.
  - intros config1 config2 entry1 entry2 Hm Hv Hentry1 Hentry2.
    destruct (Hbundle config1 entry1 (or_introl Hm) Hentry1) as (v1 & Hv1 & ->).
    destruct (Hbundle config2 entry2 (or_intror Hv) Hentry2) as (v2 & Hv2 & ->).
    congruence.
Qed.

Lemma Setup_injects_the_certificate_it_dumps_witness :
  ∃ added,
    trace (world (snd (observedSetup memClient clusterWithWebhooks))) = [] ++ added ∧
    (∀ data config entry,
       WriteFileCall (path_Join (CertDir exampleEnvironment) "tls.crt") data mode0600
         ∈ added →
       MutatingUpdateCall (K:=string) config ∈ added ∨
       ValidatingUpdateCall (K:=string) config ∈ added →
       entry ∈ Webhooks config →
       CABundle (ClientConfig entry) = data) ∧
    (∀ config1 config2 entry1 entry2,
       MutatingUpdateCall (K:=string) config1 ∈ added →
       ValidatingUpdateCall (K:=string) config2 ∈ added →
       entry1 ∈ Webhooks config1 →
       entry2 ∈ Webhooks config2 →
       CABundle (ClientConfig entry1) = CABundle (ClientConfig entry2)).
Proof.
  refine (Setup_injects_the_certificate_it_dumps memClient memFS toyPKI map_to_list
            exampleEnvironment (tracing string clusterWithWebhooks)
            (snd (observedSetup memClient clusterWithWebhooks))
            (fst (observedSetup memClient clusterWithWebhooks)) (λ m, reflexivity _) _ _).
  - intros caSecret s1 webhookSecret s2 v Hca Hws Hv.
    assert (E1 : EnsureRootCACertificate (tracedClient string memClient) (tracedPKI toyPKI)
                   (OperatorNamespace exampleEnvironment) (CaSecretName exampleEnvironment)
                   (tracing string clusterWithWebhooks)
                 = (Ok 1,
                    snd (EnsureRootCACertificate (tracedClient string memClient)
                           (tracedPKI toyPKI) (OperatorNamespace exampleEnvironment)
                           (CaSecretName exampleEnvironment)
                           (tracing string clusterWithWebhooks))))
      by (vm_compute; reflexivity).
    rewrite E1 in Hca.
    pose proof (f_equal fst Hca) as Hptr. pose proof (f_equal snd Hca) as Hstate.
    cbn [fst snd] in Hptr, Hstate. injection Hptr as <-. subst s1. clear Hca E1.
    assert (E2 : EnsureCertificate (tracedClient string memClient) (tracedPKI toyPKI)
                   exampleEnvironment 1
                   (snd (EnsureRootCACertificate (tracedClient string memClient)
                           (tracedPKI toyPKI) (OperatorNamespace exampleEnvironment)
                           (CaSecretName exampleEnvironment)
                           (tracing string clusterWithWebhooks)))
                 = (Ok 3,
                    snd (EnsureCertificate (tracedClient string memClient)
                           (tracedPKI toyPKI) exampleEnvironment 1
                           (snd (EnsureRootCACertificate (tracedClient string memClient)
                                   (tracedPKI toyPKI)
                                   (OperatorNamespace exampleEnvironment)
                                   (CaSecretName exampleEnvironment)
                                   (tracing string clusterWithWebhooks))))))
      by (vm_compute; reflexivity).
    rewrite E2 in Hws.
    pose proof (f_equal fst Hws) as Hptr. pose proof (f_equal snd Hws) as Hstate.
    cbn [fst snd] in Hptr, Hstate. injection Hptr as <-. subst s2. clear Hws E2.
    assert (Hall : Forall plainKeys
              (heap (snd (EnsureCertificate (tracedClient string memClient)
                            (tracedPKI toyPKI) exampleEnvironment 1
                            (snd (EnsureRootCACertificate (tracedClient string memClient)
                                    (tracedPKI toyPKI)
                                    (OperatorNamespace exampleEnvironment)
                                    (CaSecretName exampleEnvironment)
                                    (tracing string clusterWithWebhooks)))))))
      by (apply (bool_decide_unpack _); vm_compute; exact I).
    exact (proj1 (Forall_lookup _ _) Hall _ _ Hv).
  - vm_compute. reflexivity.
Defined.



(** ** The two ensure functions when the secret is missing or the fetch fails *)

(** The run of [EnsureRootCACertificate] when the fetch answers
    NotFound, by what [CreateCA] and [Create] return. *)
Lemma EnsureRootCACertificate_missing
    {W K : Type} (client : Interface W) (pki : PKI W K) (namespace name : string)
    (s : State (Traced W K)) (e : error) (w1 : W) :
  SecretsGet client namespace name (inner (world s)) = (Fail e, w1) →
  IsNotFound e = true →
  EnsureRootCACertificate (tracedClient K client) (tracedPKI pki) namespace name s =
    match CreateCA pki w1 with
    | (Fail e', w2) =>
        (Fail e', after s w2 [SecretsGetCall namespace name; CreateCACall] [])
    | (Ok pair0, w2) =>
        match SecretsCreate client namespace
                (GenerateCASecret pki pair0 namespace name) w2 with
        | (Fail e', w3) =>
            (Fail e',
             after s w3
               [SecretsGetCall namespace name; CreateCACall;
                SecretsCreateCall namespace
                  (GenerateCASecret pki pair0 namespace name)]
               [GenerateCASecret pki pair0 namespace name])
        | (Ok created, w3) =>
            (Ok (S (length (heap s))),
             after s w3
               [SecretsGetCall namespace name; CreateCACall;
                SecretsCreateCall namespace
                  (GenerateCASecret pki pair0 namespace name)]
               [GenerateCASecret pki pair0 namespace name; created])
        end
    end.
Proof.
  intros Hget Hnf.
  assert (Hget' : SecretsGet (tracedClient K client) namespace name (world s)
                  = (Fail e, {| inner := w1;
                                trace := trace (world s) ++
                                  [SecretsGetCall namespace name] |}))
    by exact (traced_eq _ _ _ _ _ Hget).
  unfold EnsureRootCACertificate.
  rewrite (bind_Ok _ _ _ _ _ (attempt_eq _ _ _ _ (call_eq _ _ _ _ Hget'))).
  rewrite Hnf. cbn [negb].
  unfold bind, call, new, deref, ret, after. simpl. unfold traced. simpl.
  destruct (CreateCA pki w1) as [[pair0|e'] w2]; simpl;
    [|by rewrite <- app_assoc, app_nil_r].
  rewrite list_lookup_middle by done. simpl.
  destruct (SecretsCreate client namespace _ w2) as [[created|e'] w3]; simpl;
    rewrite <- !app_assoc; simpl; [|done].
  by rewrite length_app, Nat.add_1_r.
Qed.

(** The run of [EnsureCertificate] when the fetch answers NotFound. *)
Lemma EnsureCertificate_missing
    {W K : Type} (client : Interface W) (pki : PKI W K) (webhook : WebhookEnvironment)
    (caSecret : ptr) (ca : Secret) (s : State (Traced W K)) (e : error) (w1 : W) :
  heap s !! caSecret = Some ca →
  SecretsGet client (OperatorNamespace webhook) (SecretName webhook) (inner (world s))
    = (Fail e, w1) →
  IsNotFound e = true →
  let fetch : Ext K := SecretsGetCall (OperatorNamespace webhook) (SecretName webhook) in
  let hostname := ServiceName webhook +:+ "." +:+ OperatorNamespace webhook +:+ ".svc" in
  EnsureCertificate (tracedClient K client) (tracedPKI pki) webhook caSecret s =
    match ParseCASecret pki ca with
    | Fail e' => (Fail e', after s w1 [fetch] [])
    | Ok caPair =>
        match CreateAndSignPair pki caPair hostname w1 with
        | (Fail e', w2) =>
            (Fail e',
             after s w2 [fetch; CreateAndSignPairCall caPair hostname] [])
        | (Ok webhookPair, w2) =>
            let generated :=
              GenerateServerSecret pki webhookPair (OperatorNamespace webhook)
                (SecretName webhook) in
            match SecretsCreate client (OperatorNamespace webhook) generated w2 with
            | (Fail e', w3) =>
                (Fail e',
                 after s w3
                   [fetch; CreateAndSignPairCall caPair hostname;
                    SecretsCreateCall (OperatorNamespace webhook) generated]
                   [generated])
            | (Ok created, w3) =>
                (Ok (S (length (heap s))),
                 after s w3
                   [fetch; CreateAndSignPairCall caPair hostname;
                    SecretsCreateCall (OperatorNamespace webhook) generated]
                   [generated; created])
            end
        end
    end.
Proof.
  intros Hca Hget Hnf fetch hostname.
  assert (Hget' : SecretsGet (tracedClient K client) (OperatorNamespace webhook)
                    (SecretName webhook) (world s)
                  = (Fail e, {| inner := w1; trace := trace (world s) ++ [fetch] |}))
    by exact (traced_eq _ _ _ _ _ Hget).
  unfold EnsureCertificate.
  rewrite (bind_Ok _ _ _ _ _ (attempt_eq _ _ _ _ (call_eq _ _ _ _ Hget'))).
  rewrite Hnf. cbn [negb].
  unfold bind at 1. unfold deref at 1. simpl. rewrite Hca.
  unfold bind at 1. unfold lift at 1. simpl.
  destruct (ParseCASecret pki ca) as [caPair|e']; [|by unfold after; rewrite app_nil_r].
  fold hostname.
  unfold bind, call, new, deref, ret, after. simpl. unfold traced. simpl.
  destruct (CreateAndSignPair pki caPair hostname w1) as [[webhookPair|e'] w2]; simpl;
    [|by rewrite <- app_assoc, app_nil_r].
  rewrite list_lookup_middle by done. simpl.
  destruct (SecretsCreate client (OperatorNamespace webhook) _ w2)
    as [[created|e'] w3]; simpl; rewrite <- !app_assoc; simpl; [|done].
  by rewrite length_app, Nat.add_1_r.
Qed.

(** X10.  When the fetch of the CA secret answers NotFound,
    [EnsureRootCACertificate] creates a CA, generates its secret and
    hands it to [Create]; it returns a pointer to the record the store
    returned, not to the one it generated.  An error of [CreateCA] or
    of [Create] (a conflict with a concurrent creation, say) is returned
    as it is, without a second fetch; no certificate is checked for
    expiry or renewed and nothing is updated. *)
Theorem missing_root_ca_is_created
    {W K : Type} (client : Interface W) (pki : PKI W K) (namespace name : string)
    (s : State (Traced W K)) (e : error) (w1 : W) :
  SecretsGet client namespace name (inner (world s)) = (Fail e, w1) →
  IsNotFound e = true →
  (∀ e' w2,
     CreateCA pki w1 = (Fail e', w2) →
     EnsureRootCACertificate (tracedClient K client) (tracedPKI pki) namespace name s
       = (Fail e', after s w2 [SecretsGetCall namespace name; CreateCACall] [])) ∧
  (∀ pair0 w2 e' w3,
     CreateCA pki w1 = (Ok pair0, w2) →
     SecretsCreate client namespace (GenerateCASecret pki pair0 namespace name) w2
       = (Fail e', w3) →
     EnsureRootCACertificate (tracedClient K client) (tracedPKI pki) namespace name s
       = (Fail e',
          after s w3
            [SecretsGetCall namespace name; CreateCACall;
             SecretsCreateCall namespace (GenerateCASecret pki pair0 namespace name)]
            [GenerateCASecret pki pair0 namespace name])) ∧
  (∀ pair0 w2 created w3,
     CreateCA pki w1 = (Ok pair0, w2) →
     SecretsCreate client namespace (GenerateCASecret pki pair0 namespace name) w2
       = (Ok created, w3) →
     EnsureRootCACertificate (tracedClient K client) (tracedPKI pki) namespace name s
       = (Ok (S (length (heap s))),
          after s w3
            [SecretsGetCall namespace name; CreateCACall;
             SecretsCreateCall namespace (GenerateCASecret pki pair0 namespace name)]
            [GenerateCASecret pki pair0 namespace name; created]) ∧
     (heap s ++ [GenerateCASecret pki pair0 namespace name; created])
       !! S (length (heap s)) = Some created).
Proof.
  intros Hget Hnf.
  pose proof (EnsureRootCACertificate_missing client pki namespace name s e w1 Hget Hnf)
    as Hrun.
  split; [|split].
  - intros e' w2 Hca. by rewrite Hrun, Hca.
  - intros pair0 w2 e' w3 Hca Hcreate. by rewrite Hrun, Hca, Hcreate.
  - intros pair0 w2 created w3 Hca Hcreate. split; [by rewrite Hrun, Hca, Hcreate|].
    rewrite lookup_app_r by lia.
    by replace (S (length (heap s)) - length (heap s)) with 1 by lia.
Qed.

Lemma missing_root_ca_is_created_witness :
  fst (EnsureRootCACertificate (tracedClient string memClient) (tracedPKI toyPKI)
         "postgresql-operator-system" "postgresql-operator-ca-secret"
         (tracing string emptyCluster)) = Ok 1 ∧
  ResourceVersion <$>
    heap (snd (EnsureRootCACertificate (tracedClient string memClient) (tracedPKI toyPKI)
                 "postgresql-operator-system" "postgresql-operator-ca-secret"
                 (tracing string emptyCluster))) !! 1 = Some "2".
Proof.
  destruct (missing_root_ca_is_created memClient toyPKI
              "postgresql-operator-system" "postgresql-operator-ca-secret"
              (tracing string emptyCluster)
              (NotFoundError "secrets postgresql-operator-ca-secret") emptyCluster
              eq_refl eq_refl) as (_ & _ & Hcreated).
  destruct (Hcreated
              {| Private := "ca-key-1"; Certificate := "ca-key-1|ca-key-1|1" |}
              (nextRevision emptyCluster)
              (stored "postgresql-operator-system" "2"
                 (GenerateCASecret toyPKI
                    {| Private := "ca-key-1"; Certificate := "ca-key-1|ca-key-1|1" |}
                    "postgresql-operator-system" "postgresql-operator-ca-secret"))
              (snd (SecretsCreate memClient "postgresql-operator-system"
                      (GenerateCASecret toyPKI
                         {| Private := "ca-key-1"; Certificate := "ca-key-1|ca-key-1|1" |}
                         "postgresql-operator-system" "postgresql-operator-ca-secret")
                      (nextRevision emptyCluster))))
    as [Hrun _].
  - vm_compute. reflexivity.
  - vm_compute. reflexivity.
  - rewrite Hrun. split; reflexivity.
Defined.

(** X11.  When the fetch of the server secret answers NotFound,
    [EnsureCertificate] parses the CA secret it was handed, has a pair
    created and signed by it for the host name
    [<service>.<namespace>.svc], generates the server secret and hands
    it to [Create]; it returns a pointer to the record the store
    returned.  An error of the parse, of the signing or of [Create] is
    returned as it is; in none of these cases is anything updated. *)
Theorem missing_server_certificate_is_issued_for_the_service
    {W K : Type} (client : Interface W) (pki : PKI W K) (webhook : WebhookEnvironment)
    (caSecret : ptr) (ca : Secret) (s : State (Traced W K)) (e : error) (w1 : W) :
  heap s !! caSecret = Some ca →
  SecretsGet client (OperatorNamespace webhook) (SecretName webhook) (inner (world s))
    = (Fail e, w1) →
  IsNotFound e = true →
  let fetch : Ext K := SecretsGetCall (OperatorNamespace webhook) (SecretName webhook) in
  let hostname := ServiceName webhook +:+ "." +:+ OperatorNamespace webhook +:+ ".svc" in
  (∀ e',
     ParseCASecret pki ca = Fail e' →
     EnsureCertificate (tracedClient K client) (tracedPKI pki) webhook caSecret s
       = (Fail e', after s w1 [fetch] [])) ∧
  (∀ caPair e' w2,
     ParseCASecret pki ca = Ok caPair →
     CreateAndSignPair pki caPair hostname w1 = (Fail e', w2) →
     EnsureCertificate (tracedClient K client) (tracedPKI pki) webhook caSecret s
       = (Fail e', after s w2 [fetch; CreateAndSignPairCall caPair hostname] [])) ∧
  (∀ caPair webhookPair w2 e' w3,
     ParseCASecret pki ca = Ok caPair →
     CreateAndSignPair pki caPair hostname w1 = (Ok webhookPair, w2) →
     SecretsCreate client (OperatorNamespace webhook)
       (GenerateServerSecret pki webhookPair (OperatorNamespace webhook)
          (SecretName webhook)) w2 = (Fail e', w3) →
     EnsureCertificate (tracedClient K client) (tracedPKI pki) webhook caSecret s
       = (Fail e',
          after s w3
            [fetch; CreateAndSignPairCall caPair hostname;
             SecretsCreateCall (OperatorNamespace webhook)
               (GenerateServerSecret pki webhookPair (OperatorNamespace webhook)
                  (SecretName webhook))]
            [GenerateServerSecret pki webhookPair (OperatorNamespace webhook)
               (SecretName webhook)])) ∧
  (∀ caPair webhookPair w2 created w3,
     ParseCASecret pki ca = Ok caPair →
     CreateAndSignPair pki caPair hostname w1 = (Ok webhookPair, w2) →
     SecretsCreate client (OperatorNamespace webhook)
       (GenerateServerSecret pki webhookPair (OperatorNamespace webhook)
          (SecretName webhook)) w2 = (Ok created, w3) →
     EnsureCertificate (tracedClient K client) (tracedPKI pki) webhook caSecret s
       = (Ok (S (length (heap s))),
          after s w3
            [fetch; CreateAndSignPairCall caPair hostname;
             SecretsCreateCall (OperatorNamespace webhook)
               (GenerateServerSecret pki webhookPair (OperatorNamespace webhook)
                  (SecretName webhook))]
            [GenerateServerSecret pki webhookPair (OperatorNamespace webhook)
               (SecretName webhook); created]) ∧
     (heap s ++ [GenerateServerSecret pki webhookPair (OperatorNamespace webhook)
                   (SecretName webhook); created])
       !! S (length (heap s)) = Some created).
Proof.
  intros Hca Hget Hnf fetch hostname.
  pose proof (EnsureCertificate_missing client pki webhook caSecret ca s e w1
                Hca Hget Hnf) as Hrun.
  cbv zeta in Hrun. fold fetch hostname in Hrun.
  split; [|split; [|split]].
  - intros e' Hparse. by rewrite Hrun, Hparse.
  - intros caPair e' w2 Hparse Hsign. by rewrite Hrun, Hparse, Hsign.
  - intros caPair webhookPair w2 e' w3 Hparse Hsign Hcreate.
    by rewrite Hrun, Hparse, Hsign, Hcreate.
  - intros caPair webhookPair w2 created w3 Hparse Hsign Hcreate. split.
    + by rewrite Hrun, Hparse, Hsign, Hcreate.
    + rewrite lookup_app_r by lia.
      by replace (S (length (heap s)) - length (heap s)) with 1 by lia.
Qed.

Lemma missing_server_certificate_is_issued_for_the_service_witness :
  trace (world (snd (EnsureCertificate (tracedClient string memClient) (tracedPKI toyPKI)
                       exampleEnvironment 0
                       {| world := {| inner := emptyCluster; trace := [] |};
                          heap := [exampleCASecret]; lines := [] |}))) !! 1
  = Some (CreateAndSignPairCall
            {| Private := "ca-key-1"; Certificate := "ca-key-1|ca-key-1|1" |}
            "postgresql-operator-webhook-service.postgresql-operator-system.svc").
Proof.
  destruct (missing_server_certificate_is_issued_for_the_service memClient toyPKI
              exampleEnvironment 0 exampleCASecret
              {| world := {| inner := emptyCluster; trace := [] |};
                 heap := [exampleCASecret]; lines := [] |}
              (NotFoundError "secrets postgresql-operator-webhook-cert") emptyCluster
              eq_refl eq_refl eq_refl) as (_ & _ & _ & Hcreated).
  pose (caPair := {| Private := "ca-key-1"; Certificate := "ca-key-1|ca-key-1|1" |}).
  pose (signed := CreateAndSignPair toyPKI caPair
                    "postgresql-operator-webhook-service.postgresql-operator-system.svc"
                    emptyCluster).
  pose (created := SecretsCreate memClient "postgresql-operator-system"
                     (GenerateServerSecret toyPKI
                        {| Private := "key-of-postgresql-operator-webhook-service.postgresql-operator-system.svc";
                           Certificate := "ca-key-1|key-of-postgresql-operator-webhook-service.postgresql-operator-system.svc|1" |}
                        "postgresql-operator-system" "postgresql-operator-webhook-cert")
                     (nextRevision emptyCluster)).
  destruct (Hcreated caPair
              {| Private := "key-of-postgresql-operator-webhook-service.postgresql-operator-system.svc";
                 Certificate := "ca-key-1|key-of-postgresql-operator-webhook-service.postgresql-operator-system.svc|1" |}
              (nextRevision emptyCluster)
              (stored "postgresql-operator-system" "2"
                 (GenerateServerSecret toyPKI
                    {| Private := "key-of-postgresql-operator-webhook-service.postgresql-operator-system.svc";
                       Certificate := "ca-key-1|key-of-postgresql-operator-webhook-service.postgresql-operator-system.svc|1" |}
                    "postgresql-operator-system" "postgresql-operator-webhook-cert"))
              (snd created))
    as [Hrun _].
  - vm_compute. reflexivity.
  - vm_compute. reflexivity.
  - vm_compute. reflexivity.
  - rewrite Hrun. reflexivity.
Defined.

(** X12.  A fetch error other than NotFound is returned unchanged by
    both ensure functions: nothing else is called, nothing is created
    and no object is allocated; [EnsureCertificate] does not even read
    the CA secret it was handed. *)
Theorem ensure_returns_other_fetch_errors
    {W K : Type} (client : Interface W) (pki : PKI W K) :
  (∀ (namespace name : string) (s : State (Traced W K)) (e : error) (w1 : W),
     SecretsGet client namespace name (inner (world s)) = (Fail e, w1) →
     IsNotFound e = false →
     EnsureRootCACertificate (tracedClient K client) (tracedPKI pki) namespace name s
       = (Fail e,
          {| world := {| inner := w1;
                         trace := trace (world s) ++ [SecretsGetCall namespace name] |};
             heap := heap s; lines := lines s |})) ∧
  (∀ (webhook : WebhookEnvironment) (caSecret : ptr) (s : State (Traced W K))
     (e : error) (w1 : W),
     SecretsGet client (OperatorNamespace webhook) (SecretName webhook) (inner (world s))
       = (Fail e, w1) →
     IsNotFound e = false →
     EnsureCertificate (tracedClient K client) (tracedPKI pki) webhook caSecret s
       = (Fail e,
          {| world := {| inner := w1;
                         trace := trace (world s) ++
                           [SecretsGetCall (OperatorNamespace webhook)
                              (SecretName webhook)] |};
             heap := heap s; lines := lines s |})).
Proof.
  split.
  - intros namespace name s e w1 Hget Hnf.
    assert (Hget' : SecretsGet (tracedClient K client) namespace name (world s)
                    = (Fail e, {| inner := w1;
                                  trace := trace (world s) ++
                                    [SecretsGetCall namespace name] |}))
      by exact (traced_eq _ _ _ _ _ Hget).
    unfold EnsureRootCACertificate.
    rewrite (bind_Ok _ _ _ _ _ (attempt_eq _ _ _ _ (call_eq _ _ _ _ Hget'))).
    by rewrite Hnf.
  - intros webhook caSecret s e w1 Hget Hnf.
    assert (Hget' : SecretsGet (tracedClient K client) (OperatorNamespace webhook)
                      (SecretName webhook) (world s)
                    = (Fail e, {| inner := w1;
                                  trace := trace (world s) ++
                                    [SecretsGetCall (OperatorNamespace webhook)
                                       (SecretName webhook)] |}))
      by exact (traced_eq _ _ _ _ _ Hget).
    unfold EnsureCertificate.
    rewrite (bind_Ok _ _ _ _ _ (attempt_eq _ _ _ _ (call_eq _ _ _ _ Hget'))).
    by rewrite Hnf.
Qed.

Lemma ensure_returns_other_fetch_errors_witness :
  fst (EnsureRootCACertificate (tracedClient string (unreachableStore memClient))
         (tracedPKI toyPKI) "postgresql-operator-system" "postgresql-operator-ca-secret"
         (tracing string emptyCluster)) = Fail connectionRefused ∧
  fst (EnsureCertificate (tracedClient string (unreachableStore memClient))
         (tracedPKI toyPKI) exampleEnvironment 0 (tracing string emptyCluster))
    = Fail connectionRefused.
Proof.
  split.
  - rewrite (proj1 (ensure_returns_other_fetch_errors (unreachableStore memClient) toyPKI)
               "postgresql-operator-system" "postgresql-operator-ca-secret"
               (tracing string emptyCluster) connectionRefused emptyCluster
               eq_refl eq_refl).
    reflexivity.
  - rewrite (proj2 (ensure_returns_other_fetch_errors (unreachableStore memClient) toyPKI)
               exampleEnvironment 0 (tracing string emptyCluster)
               connectionRefused emptyCluster eq_refl eq_refl).
    reflexivity.
Defined.

(** ** What a renewal hands to the store *)

Section Updates.
Context {W K : Type}.
Variable client : Interface W.
Variable pki : PKI W K.

(** In a run of a renewal an update is only ever asked for the secret
    as fetched with [field] replaced by the certificate a successful
    [RenewCertificate] returned. *)
Lemma renewal_updates (parse : Secret → result KeyPair) (field : string)
    (keySource : KeyPair → result KeyPair) (secret : ptr) (v : Secret)
    (s0 s' : State (Traced W K)) (r : result ptr) :
  renewal (tracedClient K client) (tracedPKI pki) parse field keySource secret v s0
    = (r, s') →
  ∃ added,
    trace (world s') = trace (world s0) ++ added ∧
    ∀ namespace u,
      SecretsUpdateCall namespace u ∈ added →
      ∃ keys signer privateKey renewed w w',
        parse v = Ok keys ∧
        keySource keys = Ok signer ∧
        ParseECPrivateKey pki signer = Ok privateKey ∧
        RenewCertificate pki keys privateKey w = (Ok renewed, w') ∧
        u = withData field (Certificate renewed) v ∧
        namespace = Namespace v.
Proof.
  unfold renewal. simpl. unfold traced. simpl. intros Hrun.
  destruct (parse v) as [keys|e] eqn:Hparse.
  2: { injection Hrun as <- <-. exists []. split; [by rewrite app_nil_r|].
       intros namespace u Hin. by apply not_elem_of_nil in Hin. }
  destruct (IsExpiring pki keys (inner (world s0))) as [[[]|e] w1].
  2,3: injection Hrun as <- <-; exists [IsExpiringCall keys]; (split; [done|]);
       intros namespace u Hin; apply elem_of_cons in Hin as [Hin|Hin]; [done|];
       by apply not_elem_of_nil in Hin.
  destruct (keySource keys) as [signer|e] eqn:Hsigner.
  2: { injection Hrun as <- <-. exists [IsExpiringCall keys]. split; [done|].
       intros namespace u Hin. apply elem_of_cons in Hin as [Hin|Hin]; [done|].
       by apply not_elem_of_nil in Hin. }
  destruct (ParseECPrivateKey pki signer) as [privateKey|e] eqn:Hkey.
  2: { injection Hrun as <- <-. exists [IsExpiringCall keys]. split; [done|].
       intros namespace u Hin. apply elem_of_cons in Hin as [Hin|Hin]; [done|].
       by apply not_elem_of_nil in Hin. }
  simpl in Hrun.
  destruct (RenewCertificate pki keys privateKey w1) as [[renewed|e] w2] eqn:Hrenew.
  2: { injection Hrun as <- <-.
       exists [IsExpiringCall keys; RenewCertificateCall keys privateKey].
       split; [simpl; by rewrite <- app_assoc|].
       intros namespace u Hin.
       apply elem_of_cons in Hin as [Hin|Hin]; [done|].
       apply elem_of_cons in Hin as [Hin|Hin]; [done|].
       by apply not_elem_of_nil in Hin. }
  simpl in Hrun.
  assert (Hadded : trace (world s') = trace (world s0) ++
            [IsExpiringCall keys; RenewCertificateCall keys privateKey;
             SecretsUpdateCall (Namespace v) (withData field (Certificate renewed) v)]).
  { destruct (SecretsUpdate client _ _ w2) as [[updated|e] w3];
      injection Hrun as <- <-; simpl; by rewrite <- !app_assoc. }
  eexists. split; [exact Hadded|].
  intros namespace u Hin.
  apply elem_of_cons in Hin as [Hin|Hin]; [done|].
  apply elem_of_cons in Hin as [Hin|Hin]; [done|].
  apply elem_of_cons in Hin as [Hin|Hin]; [|by apply not_elem_of_nil in Hin].
  injection Hin as -> ->. by exists keys, signer, privateKey, renewed, w1, w2.
Qed.

End Updates.

(** The updates [EnsureCertificate] asks of the store. *)
Lemma EnsureCertificate_updates
    {W K : Type} (client : Interface W) (pki : PKI W K)
    (webhook : WebhookEnvironment) (caSecret : ptr) (ca : Secret)
    (s s' : State (Traced W K)) (r : result ptr) :
  heap s !! caSecret = Some ca →
  EnsureCertificate (tracedClient K client) (tracedPKI pki) webhook caSecret s
    = (r, s') →
  ∃ added,
    trace (world s') = trace (world s) ++ added ∧
    ∀ namespace' u,
      SecretsUpdateCall namespace' u ∈ added →
      ∃ v w1 keys caPair caPrivateKey renewed w w',
        SecretsGet client (OperatorNamespace webhook) (SecretName webhook)
          (inner (world s)) = (Ok v, w1) ∧
        ParseServerSecret pki v = Ok keys ∧
        ParseCASecret pki ca = Ok caPair ∧
        ParseECPrivateKey pki caPair = Ok caPrivateKey ∧
        RenewCertificate pki keys caPrivateKey w = (Ok renewed, w') ∧
        u = withData "tls.crt" (Certificate renewed) v ∧
        namespace' = Namespace v.
Proof.
  assert (Hnone : ∀ (es : list (Ext K)) tr tr',
            tr' = tr ++ es →
            Forall (λ e, ∀ namespace u, e ≠ SecretsUpdateCall namespace u) es →
            ∃ added, tr' = tr ++ added ∧
              ∀ namespace' u, SecretsUpdateCall namespace' u ∈ added → False).
  { intros es tr tr' -> Hes. exists es. split; [done|]. intros namespace' u Hin.
    rewrite Forall_forall in Hes. by apply (Hes _ Hin namespace' u). }
  intros Hca Hrun.
  destruct (SecretsGet client (OperatorNamespace webhook) (SecretName webhook)
              (inner (world s))) as [[v|e] w1] eqn:Hget.
  - rewrite (EnsureCertificate_found (tracedClient K client) (tracedPKI pki)
               webhook caSecret ca s v _ Hca (traced_eq _ _ _ _ _ Hget)) in Hrun.
    apply renewal_updates in Hrun as (added & Ht & Hadded). simpl in Ht.
    exists (SecretsGetCall (OperatorNamespace webhook) (SecretName webhook) :: added).
    split; [by rewrite Ht, <- app_assoc|].
    intros namespace' u Hin. apply elem_of_cons in Hin as [Hin|Hin]; [done|].
    destruct (Hadded _ _ Hin)
      as (keys & signer & privateKey & renewed & w & w' & Hp & Hs & Hk & Hr & -> & ->).
    by exists v, w1, keys, signer, privateKey, renewed, w, w'.
  - destruct (IsNotFound e) eqn:Hnf.
    + rewrite (EnsureCertificate_missing client pki _ _ _ _ _ _ Hca Hget Hnf) in Hrun.
      cbv zeta in Hrun.
      assert (∃ es, trace (world s') = trace (world s) ++ es ∧
                Forall (λ e, ∀ namespace u, e ≠ SecretsUpdateCall namespace u) es)
        as (es & Ht & Hes).
      { destruct (ParseCASecret pki ca) as [caPair|e'];
          [destruct (CreateAndSignPair pki caPair _ w1) as [[webhookPair|e'] w2];
           [destruct (SecretsCreate client _ _ w2) as [[created|e'] w3]|]|];
          injection Hrun as <- <-; eexists; (split; [reflexivity|]);
          by repeat constructor. }
      destruct (Hnone es _ _ Ht Hes) as (added & Ht' & Hadded).
      exists added. split; [exact Ht'|].
      intros namespace' u Hin. destruct (Hadded _ _ Hin).
    + assert (Hget' : SecretsGet (tracedClient K client) (OperatorNamespace webhook)
                        (SecretName webhook) (world s)
                      = (Fail e, {| inner := w1;
                                    trace := trace (world s) ++
                                      [SecretsGetCall (OperatorNamespace webhook)
                                         (SecretName webhook)] |}))
        by exact (traced_eq _ _ _ _ _ Hget).
      unfold EnsureCertificate in Hrun.
      rewrite (bind_Ok _ _ _ _ _ (attempt_eq _ _ _ _ (call_eq _ _ _ _ Hget'))) in Hrun.
      rewrite Hnf in Hrun. injection Hrun as <- <-.
      exists [SecretsGetCall (OperatorNamespace webhook) (SecretName webhook)].
      split; [done|].
      intros namespace' u Hin. apply elem_of_cons in Hin as [Hin|Hin]; [done|].
      by apply not_elem_of_nil in Hin.
Qed.

(** X13.  Whatever the outcome of an ensure function, the only update
    it ever asks of the store is for the secret it has fetched, in the
    namespace of that secret, with nothing changed but the certificate
    field ([ca.crt], [tls.crt]), which holds the certificate a
    successful [RenewCertificate] returned: name, [ResourceVersion] and
    private key go back as fetched.  The server certificate is renewed
    with the key parsed from the CA secret that was handed in. *)
Theorem renewal_updates_only_the_certificate_field
    {W K : Type} (client : Interface W) (pki : PKI W K) :
  (∀ (namespace name : string) (s s' : State (Traced W K)) (r : result ptr),
     EnsureRootCACertificate (tracedClient K client) (tracedPKI pki) namespace name s
       = (r, s') →
     ∃ added,
       trace (world s') = trace (world s) ++ added ∧
       ∀ namespace' u,
         SecretsUpdateCall namespace' u ∈ added →
         ∃ v w1 keys privateKey renewed w w',
           SecretsGet client namespace name (inner (world s)) = (Ok v, w1) ∧
           ParseCASecret pki v = Ok keys ∧
           ParseECPrivateKey pki keys = Ok privateKey ∧
           RenewCertificate pki keys privateKey w = (Ok renewed, w') ∧
           u = withData "ca.crt" (Certificate renewed) v ∧
           namespace' = Namespace v) ∧
  (∀ (webhook : WebhookEnvironment) (caSecret : ptr) (ca : Secret)
     (s s' : State (Traced W K)) (r : result ptr),
     heap s !! caSecret = Some ca →
     EnsureCertificate (tracedClient K client) (tracedPKI pki) webhook caSecret s
       = (r, s') →
     ∃ added,
       trace (world s') = trace (world s) ++ added ∧
       ∀ namespace' u,
         SecretsUpdateCall namespace' u ∈ added →
         ∃ v w1 keys caPair caPrivateKey renewed w w',
           SecretsGet client (OperatorNamespace webhook) (SecretName webhook)
             (inner (world s)) = (Ok v, w1) ∧
           ParseServerSecret pki v = Ok keys ∧
           ParseCASecret pki ca = Ok caPair ∧
           ParseECPrivateKey pki caPair = Ok caPrivateKey ∧
           RenewCertificate pki keys caPrivateKey w = (Ok renewed, w') ∧
           u = withData "tls.crt" (Certificate renewed) v ∧
           namespace' = Namespace v).
Proof.
  assert (Hnone : ∀ (es : list (Ext K)) tr tr',
            tr' = tr ++ es →
            Forall (λ e, ∀ namespace u, e ≠ SecretsUpdateCall namespace u) es →
            ∃ added, tr' = tr ++ added ∧
              ∀ namespace' u, SecretsUpdateCall namespace' u ∈ added → False).
  { intros es tr tr' -> Hes. exists es. split; [done|]. intros namespace' u Hin.
    rewrite Forall_forall in Hes. by apply (Hes _ Hin namespace' u). }
  split.
  - intros namespace name s s' r Hrun.
    destruct (SecretsGet client namespace name (inner (world s))) as [[v|e] w1] eqn:Hget.
    + rewrite (EnsureRootCACertificate_found (tracedClient K client) (tracedPKI pki)
                 namespace name s v _ (traced_eq _ _ _ _ _ Hget)) in Hrun.
      destruct (renewal _ _ _ _ _ _ _ _) as [r0 s0] eqn:Hren.
      assert (s0 = s') as -> by (destruct r0; by injection Hrun).
      apply renewal_updates in Hren as (added & Ht & Hadded). simpl in Ht.
      exists (SecretsGetCall namespace name :: added).
      split; [by rewrite Ht, <- app_assoc|].
      intros namespace' u Hin. apply elem_of_cons in Hin as [Hin|Hin]; [done|].
      destruct (Hadded _ _ Hin)
        as (keys & signer & privateKey & renewed & w & w' & Hp & Hs & Hk & Hr & -> & ->).
      injection Hs as <-. by exists v, w1, keys, privateKey, renewed, w, w'.
    + destruct (IsNotFound e) eqn:Hnf.
      * rewrite (EnsureRootCACertificate_missing client pki _ _ _ _ _ Hget Hnf) in Hrun.
        assert (∃ es, trace (world s') = trace (world s) ++ es ∧
                  Forall (λ e, ∀ namespace u, e ≠ SecretsUpdateCall namespace u) es)
          as (es & Ht & Hes).
        { destruct (CreateCA pki w1) as [[pair0|e'] w2];
            [destruct (SecretsCreate client namespace _ w2) as [[created|e'] w3]|];
            injection Hrun as <- <-; eexists; (split; [reflexivity|]);
            by repeat constructor. }
        destruct (Hnone es _ _ Ht Hes) as (added & Ht' & Hadded).
        exists added. split; [exact Ht'|].
        intros namespace' u Hin. destruct (Hadded _ _ Hin).
      * assert (Hget' : SecretsGet (tracedClient K client) namespace name (world s)
                        = (Fail e, {| inner := w1;
                                      trace := trace (world s) ++
                                        [SecretsGetCall namespace name] |}))
          by exact (traced_eq _ _ _ _ _ Hget).
        unfold EnsureRootCACertificate in Hrun.
        rewrite (bind_Ok _ _ _ _ _ (attempt_eq _ _ _ _ (call_eq _ _ _ _ Hget'))) in Hrun.
        rewrite Hnf in Hrun. injection Hrun as <- <-.
        exists [SecretsGetCall namespace name]. split; [done|].
        intros namespace' u Hin. apply elem_of_cons in Hin as [Hin|Hin]; [done|].
        by apply not_elem_of_nil in Hin.
  - intros webhook caSecret ca s s' r Hca Hrun.
    by eapply EnsureCertificate_updates.
Qed.

Lemma renewal_updates_only_the_certificate_field_witness :
  ∃ added,
    trace (world (snd (EnsureCertificate (tracedClient string memClient) (tracedPKI toyPKI)
                         exampleEnvironment 0
                         {| world := {| inner := settledCluster ["ca-key-1|server-key|3"];
                                        trace := [] |};
                            heap := [exampleCASecret]; lines := [] |})))
      = [] ++ added ∧
    ∀ namespace' u,
      SecretsUpdateCall (K:=string) namespace' u ∈ added →
      ∃ v w1 keys caPair caPrivateKey renewed w w',
        SecretsGet memClient (OperatorNamespace exampleEnvironment)
          (SecretName exampleEnvironment) (settledCluster ["ca-key-1|server-key|3"])
          = (Ok v, w1) ∧
        ParseServerSecret toyPKI v = Ok keys ∧
        ParseCASecret toyPKI exampleCASecret = Ok caPair ∧
        ParseECPrivateKey toyPKI caPair = Ok caPrivateKey ∧
        RenewCertificate toyPKI keys caPrivateKey w = (Ok renewed, w') ∧
        u = withData "tls.crt" (Certificate renewed) v ∧
        namespace' = Namespace v.
Proof.
  refine (proj2 (renewal_updates_only_the_certificate_field memClient toyPKI)
            exampleEnvironment 0 exampleCASecret
            {| world := {| inner := settledCluster ["ca-key-1|server-key|3"];
                           trace := [] |};
               heap := [exampleCASecret]; lines := [] |}
            _ (fst (EnsureCertificate (tracedClient string memClient) (tracedPKI toyPKI)
                      exampleEnvironment 0
                      {| world := {| inner := settledCluster ["ca-key-1|server-key|3"];
                                     trace := [] |};
                         heap := [exampleCASecret]; lines := [] |}))
            eq_refl _).
  vm_compute. reflexivity.
Defined.

(** ** A dump that fails, and what a dump leaves on disk *)

Section DumpAny.
Context {W K : Type}.
Variable fs : FileSystem W.
Variable certDir : string.

(** The field writes stop at the first that fails. *)
Lemma writes_traced_any (l : list (string * bytes)) :
  ∀ (s s' : State (Traced W K)) (r : result unit),
    forM_ l (λ '(name, content),
      call (WriteFile (tracedFS K fs) (path_Join certDir name) content mode0600)) s
      = (r, s') →
    heap s' = heap s ∧
    ((r = Ok tt ∧ trace (world s') = trace (world s) ++ map (fieldWrite certDir) l) ∨
     (∃ e pre x rest w w',
        r = Fail e ∧ l = pre ++ x :: rest ∧
        trace (world s') = trace (world s) ++ map (fieldWrite certDir) pre ++
                           [fieldWrite certDir x] ∧
        WriteFile fs (path_Join certDir x.1) x.2 mode0600 w = (Fail e, w'))).
Proof.
  induction l as [|[name content] l IH]; intros s s' r Hrun; simpl in Hrun.
  - unfold ret in Hrun. injection Hrun as <- <-. split; [done|]. left.
    by rewrite app_nil_r.
  - unfold bind in Hrun.
    destruct (call _ s) as [r0 s1] eqn:Hcall.
    unfold call in Hcall. simpl in Hcall. unfold traced in Hcall.
    destruct (WriteFile fs (path_Join certDir name) content mode0600 (inner (world s)))
      as [r1 w1] eqn:Hwrite.
    injection Hcall as <- <-. destruct r1 as [[]|e].
    + apply IH in Hrun as (Hh & Hcases). simpl in Hh, Hcases. split; [done|].
      destruct Hcases as [[-> Ht]|(e & pre & x & rest & w & w' & -> & -> & Ht & Hfail)].
      * left. split; [done|]. by rewrite Ht, <- app_assoc.
      * right. exists e, ((name, content) :: pre), x, rest, w, w'.
        split; [done|]. split; [done|]. split; [|done].
        by rewrite Ht, <- app_assoc.
    + injection Hrun as <- <-. split; [done|]. right.
      exists e, [], (name, content), l, (inner (world s)), w1. by repeat split.
Qed.

Variable rangeOf : gmap string bytes → list (string * bytes).

(** The writes of a dump once the checks of the sentinel are done. *)
Lemma writeAll_traced_any (v : Secret) (s0 s' : State (Traced W K)) (r : result unit) :
  (forM_ (rangeOf (Data v)) (λ '(name, content),
     call (WriteFile (tracedFS K fs) (path_Join certDir name) content mode0600)) >>
   call (WriteFile (tracedFS K fs) (path_Join certDir "resource")
           (ResourceVersion v) mode0600)) s0 = (r, s') →
  heap s' = heap s0 ∧
  ∃ written rest,
    dumpWrites rangeOf certDir v = written ++ rest ∧
    trace (world s') = trace (world s0) ++ written ∧
    (r = Ok tt → rest = []) ∧
    (∀ e, r = Fail e →
       ∃ pre path data w w',
         written = pre ++ [WriteFileCall path data mode0600] ∧
         Forall (λ c, c ∈ map (fieldWrite (K:=K) certDir) (rangeOf (Data v))) pre ∧
         WriteFile fs path data mode0600 w = (Fail e, w')).
Proof.
  unfold bind. intros Hrun.
  destruct (forM_ _ _ s0) as [r0 s1] eqn:Hloop.
  apply writes_traced_any in Hloop as (Hh & Hcases).
  destruct Hcases as [[-> Ht]|(e & pre & x & rest & w & w' & -> & Hl & Ht & Hfail)].
  - unfold call in Hrun. simpl in Hrun. unfold traced in Hrun.
    destruct (WriteFile fs (path_Join certDir "resource") (ResourceVersion v) mode0600
                (inner (world s1))) as [r1 w1] eqn:Hwrite.
    injection Hrun as <- <-. simpl. split; [done|].
    exists (dumpWrites rangeOf certDir v), []. split; [by rewrite app_nil_r|].
    split; [by rewrite Ht, <- app_assoc|]. split; [done|].
    intros e ->.
    exists (map (fieldWrite certDir) (rangeOf (Data v))), (path_Join certDir "resource"),
      (ResourceVersion v), (inner (world s1)), w1.
    split; [done|]. split; [|done]. by apply Forall_forall.
  - injection Hrun as <- <-. split; [done|].
    exists (map (fieldWrite certDir) pre ++ [fieldWrite certDir x]),
      (map (fieldWrite certDir) rest ++ [sentinelWrite certDir v]).
    split.
    { unfold dumpWrites. rewrite Hl, map_app. simpl. by rewrite <- !app_assoc. }
    split; [done|]. split; [done|].
    intros e' [= <-].
    exists (map (fieldWrite certDir) pre), (path_Join certDir x.1), x.2, w, w'.
    split; [done|]. split; [|done].
    apply Forall_forall. intros c Hc. rewrite Hl, map_app. apply elem_of_app. by left.
Qed.

End DumpAny.

Lemma field_write_misses_sentinel {K : Type}
    (rangeOf : gmap string bytes → list (string * bytes)) (certDir : string)
    (v : Secret) (c : Ext K) :
  (∀ m, rangeOf m ≡ₚ map_to_list m) →
  plainKeys v →
  Data v !! "resource" = None →
  c ∈ map (fieldWrite certDir) (rangeOf (Data v)) →
  ∀ data perm, c ≠ WriteFileCall (path_Join certDir "resource") data perm.
Proof.
  intros Hrange Hkeys Hnone Hc data perm Heq.
  rewrite list_elem_of_In in Hc. apply in_map_iff in Hc as ([name data0] & Hfield & Hin).
  rewrite <- list_elem_of_In in Hin.
  rewrite (Hrange (Data v)) in Hin. apply elem_of_map_to_list in Hin.
  rewrite Heq in Hfield. unfold fieldWrite in Hfield. simpl in Hfield.
  injection Hfield as Hpath _ _.
  apply path_Join_inj in Hpath; [|by eapply plainKeys_lookup|done].
  subst name. congruence.
Qed.

(** X14.  Whatever its outcome, a dump first checks the sentinel and
    then makes an initial part of these writes, in this order: one per
    data field, then the sentinel.  A dump that succeeds has made none
    of them or all of them.  A dump that fails after the checks has
    stopped at the write that failed, whose error it returns, and every
    write before that one was the write of a data field.  So when the
    keys of the secret are plain names and none of them is [resource],
    a dump that fails has made no write to the path of the sentinel
    before the write that failed. *)
Theorem dump_stops_at_the_first_failed_write
    {W K : Type} (fs : FileSystem W)
    (rangeOf : gmap string bytes → list (string * bytes)) (certDir : string)
    (secret : ptr) (v : Secret) (s s' : State (Traced W K)) (r : result unit) :
  heap s !! secret = Some v →
  DumpSecretToDir (tracedFS K fs) rangeOf secret certDir s = (r, s') →
  heap s' = heap s ∧
  ∃ checks written rest,
    trace (world s') = trace (world s) ++ checks ++ written ∧
    (checks = [FileExistsCall (path_Join certDir "resource")] ∨
     checks = [FileExistsCall (path_Join certDir "resource");
               ReadFileCall (path_Join certDir "resource")]) ∧
    dumpWrites rangeOf certDir v = written ++ rest ∧
    (r = Ok tt → written = [] ∨ rest = []) ∧
    (∀ e, r = Fail e →
       written = [] ∨
       ∃ pre path data w w',
         written = pre ++ [WriteFileCall path data mode0600] ∧
         Forall (λ c, c ∈ map (fieldWrite (K:=K) certDir) (rangeOf (Data v))) pre ∧
         WriteFile fs path data mode0600 w = (Fail e, w') ∧
         ((∀ m, rangeOf m ≡ₚ map_to_list m) →
          plainKeys v →
          Data v !! "resource" = None →
          ∀ c data' perm,
            c ∈ pre → c ≠ WriteFileCall (path_Join certDir "resource") data' perm)).
Proof.
  intros Hv Hrun.
  rewrite (dump_cases fs certDir rangeOf secret v s Hv) in Hrun. cbv zeta in Hrun.
  assert (Hnone : ∀ (checks : list (Ext K)) w,
            (checks = [FileExistsCall (path_Join certDir "resource")] ∨
             checks = [FileExistsCall (path_Join certDir "resource");
                       ReadFileCall (path_Join certDir "resource")]) →
            s' = {| world := {| inner := w; trace := trace (world s) ++ checks |};
                    heap := heap s; lines := lines s |} →
            heap s' = heap s ∧
            ∃ checks written rest,
              trace (world s') = trace (world s) ++ checks ++ written ∧
              (checks = [FileExistsCall (path_Join certDir "resource")] ∨
               checks = [FileExistsCall (path_Join certDir "resource");
                         ReadFileCall (path_Join certDir "resource")]) ∧
              dumpWrites rangeOf certDir v = written ++ rest ∧
              (r = Ok tt → written = [] ∨ rest = []) ∧
              (∀ e, r = Fail e →
                 written = [] ∨
                 ∃ pre path data w w',
                   written = pre ++ [WriteFileCall path data mode0600] ∧
                   Forall (λ c, c ∈ map (fieldWrite (K:=K) certDir) (rangeOf (Data v)))
                     pre ∧
                   WriteFile fs path data mode0600 w = (Fail e, w') ∧
                   ((∀ m, rangeOf m ≡ₚ map_to_list m) →
                    plainKeys v →
                    Data v !! "resource" = None →
                    ∀ c data' perm,
                      c ∈ pre →
                      c ≠ WriteFileCall (path_Join certDir "resource") data' perm))).
  { intros checks w Hchecks ->. split; [done|].
    exists checks, [], (dumpWrites rangeOf certDir v). simpl.
    rewrite app_nil_r. split; [done|]. split; [done|]. split; [done|].
    split; [by left|]. intros e _. by left. }
  assert (Hall : ∀ (checks : list (Ext K)) w,
            (checks = [FileExistsCall (path_Join certDir "resource")] ∨
             checks = [FileExistsCall (path_Join certDir "resource");
                       ReadFileCall (path_Join certDir "resource")]) →
            (forM_ (rangeOf (Data v)) (λ '(name, content),
               call (WriteFile (tracedFS K fs) (path_Join certDir name) content mode0600)) >>
             call (WriteFile (tracedFS K fs) (path_Join certDir "resource")
                     (ResourceVersion v) mode0600))
              {| world := {| inner := w; trace := trace (world s) ++ checks |};
                 heap := heap s; lines := lines s |} = (r, s') →
            heap s' = heap s ∧
            ∃ checks written rest,
              trace (world s') = trace (world s) ++ checks ++ written ∧
              (checks = [FileExistsCall (path_Join certDir "resource")] ∨
               checks = [FileExistsCall (path_Join certDir "resource");
                         ReadFileCall (path_Join certDir "resource")]) ∧
              dumpWrites rangeOf certDir v = written ++ rest ∧
              (r = Ok tt → written = [] ∨ rest = []) ∧
              (∀ e, r = Fail e →
                 written = [] ∨
                 ∃ pre path data w w',
                   written = pre ++ [WriteFileCall path data mode0600] ∧
                   Forall (λ c, c ∈ map (fieldWrite (K:=K) certDir) (rangeOf (Data v)))
                     pre ∧
                   WriteFile fs path data mode0600 w = (Fail e, w') ∧
                   ((∀ m, rangeOf m ≡ₚ map_to_list m) →
                    plainKeys v →
                    Data v !! "resource" = None →
                    ∀ c data' perm,
                      c ∈ pre →
                      c ≠ WriteFileCall (path_Join certDir "resource") data' perm))).
  { intros checks w Hchecks Hwrite.
    apply writeAll_traced_any in Hwrite as (Hh & written & rest & Hd & Ht & Hok & Hfail).
    simpl in Hh, Ht. split; [done|]. exists checks, written, rest.
    split; [by rewrite Ht, <- app_assoc|]. split; [done|]. split; [done|].
    split; [intros Hr; right; by apply Hok|]. intros e He. right.
    destruct (Hfail e He) as (pre & path & data & w0 & w0' & Hwritten & Hpre & Hfailed).
    exists pre, path, data, w0, w0'. split; [done|]. split; [done|]. split; [done|].
    intros Hrange Hkeys Hnoresource c data' perm Hc.
    rewrite Forall_forall in Hpre.
    by apply (field_write_misses_sentinel rangeOf certDir v c Hrange Hkeys Hnoresource),
         Hpre. }
  destruct (FileExists fs _ (inner (world s))) as [[[]|e] w1].
  - destruct (ReadFile fs _ w1) as [[old|e] w2].
    + case_bool_decide.
      * injection Hrun as <- <-. eapply Hnone; [by right|done].
      * eapply Hall; [by right|exact Hrun].
    + injection Hrun as <- <-. eapply Hnone; [by right|done].
  - eapply Hall; [by left|exact Hrun].
  - injection Hrun as <- <-. eapply Hnone; [by left|done].
Qed.

Lemma dump_stops_at_the_first_failed_write_witness :
  fst failingDump = Fail diskFull ∧
  heap (snd failingDump) = heap holdingServerSecret ∧
  content <$> files (inner (world (snd failingDump))) !! path_Join "/tmp/certs" "resource"
    = None.
Proof.
  split; [vm_compute; reflexivity|]. split; [|vm_compute; reflexivity].
  refine (proj1 (dump_stops_at_the_first_failed_write
            (readOnlyAt (λ path, bool_decide (path = "/tmp/certs/tls.key")) diskFull memFS)
            map_to_list "/tmp/certs" 0 exampleServerSecret holdingServerSecret
            (snd failingDump) (fst failingDump) eq_refl _)).
  vm_compute. reflexivity.
Defined.




(** ** Injection into a configuration without webhooks *)

(** X16.  When the fetched configuration lists no webhook, an injection
    does not read the secret it was handed (the pointer may even be
    dangling) and still sends the update, with the configuration exactly
    as fetched. *)
Theorem injection_into_no_webhooks_sends_configuration_back
    {W : Type} (client : Interface W) (webhook : WebhookEnvironment)
    (tlsSecret : ptr) (s : State W) (config : WebhookConfiguration) (w1 : W) :
  Webhooks config = [] →
  (MutatingGet client (MutatingWebhookConfigurationName webhook) (world s)
     = (Ok config, w1) →
   InjectPublicKeyIntoMutatingWebhook client webhook tlsSecret s
     = injected (MutatingUpdate client) config w1 s) ∧
  (ValidatingGet client (ValidatingWebhookConfigurationName webhook) (world s)
     = (Ok config, w1) →
   InjectPublicKeyIntoValidatingWebhook client webhook tlsSecret s
     = injected (ValidatingUpdate client) config w1 s).
Proof.
  intros Hempty.
  assert (Hsame : injectCABundle "" config = config).
  { unfold injectCABundle. rewrite Hempty. destruct config. simpl in Hempty.
    by rewrite Hempty. }
  split; intros Hget.
  - unfold InjectPublicKeyIntoMutatingWebhook.
    rewrite (bind_Ok _ _ _ _ _ (call_eq _ _ _ _ Hget)).
    unfold bundleFor. rewrite Hempty. unfold bind at 1. unfold ret at 1.
    rewrite Hsame. unfold bind, call, injected, ret. simpl.
    by destruct (MutatingUpdate client config w1) as [[c|e] w2].
  - unfold InjectPublicKeyIntoValidatingWebhook.
    rewrite (bind_Ok _ _ _ _ _ (call_eq _ _ _ _ Hget)).
    unfold bundleFor. rewrite Hempty. unfold bind at 1. unfold ret at 1.
    rewrite Hsame. unfold bind, call, injected, ret. simpl.
    by destruct (ValidatingUpdate client config w1) as [[c|e] w2].
Qed.

Lemma injection_into_no_webhooks_sends_configuration_back_witness :
  fst (InjectPublicKeyIntoMutatingWebhook memClient exampleEnvironment 7
         (starting clusterWithEmptyWebhooks)) = Ok tt.
Proof.
  rewrite (proj1 (injection_into_no_webhooks_sends_configuration_back memClient
                    exampleEnvironment 7 (starting clusterWithEmptyWebhooks)
                    (emptyConfiguration
                       (MutatingWebhookConfigurationName exampleEnvironment))
                    clusterWithEmptyWebhooks eq_refl) eq_refl).
  vm_compute. reflexivity.
Defined.

End certs_extra.

(** * The renewed server certificate and the authority of the same run *)

Module certs_renewal.
Import certs certs_proofs certs_extra.

Lemma prefix_append (key rest : string) : String.prefix key (key +:+ rest) = true.
Proof.
  induction key as [|x key IH].
  - change ("" +:+ rest) with rest. by destruct rest.
  - rewrite append_cons. simpl. by destruct (Ascii.ascii_dec x x).
Qed.

Lemma toy_prefix (key rest : string) :
  String.prefix (key +:+ "|") (key +:+ "|" +:+ rest) = true.
Proof. rewrite <- append_assoc. apply prefix_append. Qed.

(** The certificates of the runs evaluated here keep the promise of the
    helpers: a renewed certificate names the key that signed it. *)
Lemma toyPKI_renewalSigns : renewalSigns toyPKI toySignedBy.
Proof.
  intros keys signingKey w renewed w' Hrenew. simpl in Hrenew.
  injection Hrenew as <- _. apply toy_prefix.
Qed.

(** C9.  In a run of [Setup] whose first step returned [caSecret], the
    later steps ask for at most one renewal, that of the server
    certificate, and its signing key is the private key parsed from the
    object at [caSecret] as the first step left it, not from an earlier
    copy.  When that renewal and the update succeed, the secret handed
    to the store carries in [tls.crt] the certificate the renewal with
    that key produced.  So, with helpers whose [RenewCertificate] signs
    with the key it is handed, every server secret a run of [Setup]
    hands to the store carries in [tls.crt] a certificate that verifies
    against the authority in the secret the first step returned: after
    a rotation of the authority key, a renewed server certificate is
    signed with the rotated key. *)
Theorem leaf_renewal_signs_with_key_of_returned_ca_secret :
  (∀ (W K : Type) (client : Interface W) (fs : FileSystem W) (pki : PKI W K)
     (rangeOf : gmap string bytes → list (string * bytes))
     (webhook : WebhookEnvironment) (s s1 s' : State (Traced W K))
     (caSecret : ptr) (r : result unit),
     EnsureRootCACertificate (tracedClient K client) (tracedPKI pki)
       (OperatorNamespace webhook) (CaSecretName webhook) s = (Ok caSecret, s1) →
     Setup (tracedClient K client) (tracedFS K fs) (tracedPKI pki) rangeOf webhook s
       = (r, s') →
     ∃ ca,
       heap s1 !! caSecret = Some ca ∧
       (renewals (trace (world s')) = renewals (trace (world s1)) ∨
        ∃ leaf caPair privateKey,
          ParseCASecret pki ca = Ok caPair ∧
          ParseECPrivateKey pki caPair = Ok privateKey ∧
          renewals (trace (world s')) =
            renewals (trace (world s1)) ++ [(leaf, privateKey)])) ∧
  (∀ (W K : Type) (client : Interface W) (pki : PKI W K)
     (webhook : WebhookEnvironment) (caSecret : ptr) (ca v updated : Secret)
     (s : State (Traced W K)) (w1 w2 w3 w4 : W)
     (leaf caPair renewed : KeyPair) (privateKey : K),
     heap s !! caSecret = Some ca →
     SecretsGet client (OperatorNamespace webhook) (SecretName webhook) (inner (world s))
       = (Ok v, w1) →
     ParseServerSecret pki v = Ok leaf →
     IsExpiring pki leaf w1 = (Ok true, w2) →
     ParseCASecret pki ca = Ok caPair →
     ParseECPrivateKey pki caPair = Ok privateKey →
     RenewCertificate pki leaf privateKey w2 = (Ok renewed, w3) →
     SecretsUpdate client (Namespace v) (withData "tls.crt" (Certificate renewed) v) w3
       = (Ok updated, w4) →
     EnsureCertificate (tracedClient K client) (tracedPKI pki) webhook caSecret s
       = (Ok (S (length (heap s))),
          after s w4
            [SecretsGetCall (OperatorNamespace webhook) (SecretName webhook);
             IsExpiringCall leaf;
             RenewCertificateCall leaf privateKey;
             SecretsUpdateCall (Namespace v)
               (withData "tls.crt" (Certificate renewed) v)]
            [withData "tls.crt" (Certificate renewed) v; updated])) ∧
  (∀ (W K : Type) (client : Interface W) (fs : FileSystem W) (pki : PKI W K)
     (rangeOf : gmap string bytes → list (string * bytes))
     (SignedBy : bytes → K → Prop)
     (webhook : WebhookEnvironment) (s s1 s' : State (Traced W K))
     (caSecret : ptr) (r : result unit),
     renewalSigns pki SignedBy →
     EnsureRootCACertificate (tracedClient K client) (tracedPKI pki)
       (OperatorNamespace webhook) (CaSecretName webhook) s = (Ok caSecret, s1) →
     Setup (tracedClient K client) (tracedFS K fs) (tracedPKI pki) rangeOf webhook s
       = (r, s') →
     ∃ ca added,
       heap s1 !! caSecret = Some ca ∧
       trace (world s') = trace (world s1) ++ added ∧
       ∀ namespace u,
         SecretsUpdateCall namespace u ∈ added →
         ∃ v renewed,
           u = withData "tls.crt" renewed v ∧
           verifiesAgainst pki SignedBy renewed ca).
Proof.
  split; [|split].
  - intros W K client fs pki rangeOf webhook s s1 s' caSecret r H1 Hrun.
    destruct (EnsureRootCACertificate_valid _ _ _ _ _ _ _ H1) as [ca Hca].
    exists ca. split; [done|].
    unfold Setup in Hrun. rewrite (bind_Ok _ _ _ _ _ H1) in Hrun.
    unfold bind at 1 in Hrun.
    destruct (EnsureCertificate _ _ webhook caSecret s1) as [[webhookSecret|e] s2] eqn:H2.
    + assert (Hrest : renewals (trace (world s')) = renewals (trace (world s2))).
      { revert Hrun. apply quiet_bind; [apply quiet_Dump|]. intros _.
        apply quiet_bind; [apply quiet_attempt, quiet_InjectMutating|]. intros err.
        apply quiet_bind.
        { destruct err as [[]|err]; [apply quiet_ret|].
          destruct (IsNotFound err); [apply quiet_info|apply quiet_fail]. }
        intros _.
        apply quiet_bind; [apply quiet_attempt, quiet_InjectValidating|]. intros err'.
        apply quiet_bind; [|intros _; apply quiet_ret].
        destruct err' as [[]|err']; [apply quiet_ret|].
        destruct (IsNotFound err'); [apply quiet_info|apply quiet_fail]. }
      rewrite Hrest. by eapply EnsureCertificate_renewals.
    + simplify_eq. by eapply EnsureCertificate_renewals.
  - intros W K client pki webhook caSecret ca v updated s w1 w2 w3 w4
      leaf caPair renewed privateKey Hca Hget Hleaf Hexp Hpair Hkey Hrenew Hupdate.
    rewrite (EnsureCertificate_found (tracedClient K client) (tracedPKI pki)
               webhook caSecret ca s v _ Hca (traced_eq _ _ _ _ _ Hget)).
    unfold renewal. simpl. rewrite Hleaf. unfold traced. simpl.
    rewrite Hexp, Hpair, Hkey. simpl. rewrite Hrenew. simpl. rewrite Hupdate.
    unfold after. rewrite insert_app_r_alt by done. rewrite Nat.sub_diag. simpl.
    rewrite length_app, Nat.add_1_r. by rewrite <- !app_assoc.
  - intros W K client fs pki rangeOf SignedBy webhook s s1 s' caSecret r
      Hsigns H1 Hrun.
    destruct (EnsureRootCACertificate_valid _ _ _ _ _ _ _ H1) as [ca Hca].
    exists ca.
    change (Setup (tracedClient K client) (tracedFS K fs) (tracedPKI pki) rangeOf webhook)
      with (let* caSecret := EnsureRootCACertificate (tracedClient K client)
                               (tracedPKI pki) (OperatorNamespace webhook)
                               (CaSecretName webhook) in
            let* webhookSecret := EnsureCertificate (tracedClient K client)
                                    (tracedPKI pki) webhook caSecret in
            publish (tracedClient K client) (tracedFS K fs) rangeOf webhook webhookSecret)
      in Hrun.
    rewrite (bind_Ok _ _ _ _ _ H1) in Hrun. unfold bind at 1 in Hrun.
    destruct (EnsureCertificate _ _ webhook caSecret s1) as [[webhookSecret|e] s2] eqn:H2;
      destruct (EnsureCertificate_updates client pki webhook caSecret ca s1 s2 _ Hca H2)
        as (es2 & Ht2 & Hupdates).
    + pose proof (within_publish (K:=K) client fs rangeOf (heap s2) webhook webhookSecret)
        as Hpublish.
      destruct (Hpublish _ _ _ eq_refl Hrun) as (_ & es3 & Ht3 & Hserved).
      exists (es2 ++ es3). split; [done|]. split; [by rewrite Ht3, Ht2, app_assoc|].
      intros namespace u Hin. apply elem_of_app in Hin as [Hin|Hin].
      * destruct (Hupdates _ _ Hin)
          as (v & w1 & keys & caPair & caPrivateKey & renewed & w & w'
              & _ & _ & Hpair & Hkey & Hrenew & -> & _).
        exists v, (Certificate renewed). split; [done|].
        exists caPair, caPrivateKey. split; [done|]. split; [done|].
        by eapply Hsigns.
      * rewrite Forall_forall in Hserved. by apply Hserved in Hin.
    + injection Hrun as <- <-. exists es2. split; [done|]. split; [done|].
      intros namespace u Hin.
      destruct (Hupdates _ _ Hin)
        as (v & w1 & keys & caPair & caPrivateKey & renewed & w & w'
            & _ & _ & Hpair & Hkey & Hrenew & -> & _).
      exists v, (Certificate renewed). split; [done|].
      exists caPair, caPrivateKey. split; [done|]. split; [done|].
      by eapply Hsigns.
Qed.

Lemma leaf_renewal_signs_with_key_of_returned_ca_secret_witness :
  renewals (trace (world (snd rotatedSetup)))
    = [({| Private := "server-key"; Certificate := "ca-key-1|server-key|3" |},
        "ca-key-2")] ∧
  (λ u, Data u !! "tls.crt") <$> updates (trace (world (snd rotatedSetup)))
    = [Some "ca-key-2|server-key|7"] ∧
  ∀ namespace u,
    SecretsUpdateCall (K:=string) namespace u ∈ trace (world (snd rotatedSetup)) →
    ∃ renewed, Data u !! "tls.crt" = Some renewed ∧ toySignedBy renewed "ca-key-2".
Proof.
  split; [vm_compute; reflexivity|]. split; [vm_compute; reflexivity|].
  assert (H1 : EnsureRootCACertificate (tracedClient string memClient) (tracedPKI toyPKI)
                 (OperatorNamespace exampleEnvironment) (CaSecretName exampleEnvironment)
                 (tracing string rotatedCluster)
               = (Ok 0, snd rotatedSetupFirstStep)) by (vm_compute; reflexivity).
  assert (Hrun : Setup (tracedClient string memClient) (tracedFS string memFS)
                   (tracedPKI toyPKI) map_to_list exampleEnvironment
                   (tracing string rotatedCluster)
                 = (fst rotatedSetup, snd rotatedSetup)) by (vm_compute; reflexivity).
  destruct (proj2 (proj2 leaf_renewal_signs_with_key_of_returned_ca_secret)
              Cluster string memClient memFS toyPKI map_to_list toySignedBy
              exampleEnvironment (tracing string rotatedCluster)
              (snd rotatedSetupFirstStep) (snd rotatedSetup) 0 (fst rotatedSetup)
              toyPKI_renewalSigns H1 Hrun)
    as (ca & added & Hca & Ht & Hupdates).
  assert (Hfirst : trace (world (snd rotatedSetupFirstStep))
                   = [SecretsGetCall "postgresql-operator-system"
                        "postgresql-operator-ca-secret";
                      IsExpiringCall {| Private := "ca-key-2";
                                        Certificate := "ca-key-2|ca-key-2|5" |}])
    by (vm_compute; reflexivity).
  assert (Hca' : heap (snd rotatedSetupFirstStep) !! 0 = Some rotatedCASecret)
    by (vm_compute; reflexivity).
  rewrite Hca' in Hca. injection Hca as <-.
  intros namespace u Hin. rewrite Ht, Hfirst in Hin.
  apply elem_of_app in Hin as [Hin|Hin].
  { apply elem_of_cons in Hin as [Hin|Hin]; [discriminate Hin|].
    apply elem_of_cons in Hin as [Hin|Hin]; [discriminate Hin|].
    apply not_elem_of_nil in Hin. destruct Hin. }
  destruct (Hupdates _ _ Hin)
    as (v & renewed & -> & caPair & privateKey & Hpair & Hkey & Hsigned).
  exists renewed. split; [simpl; rewrite lookup_insert_eq; reflexivity|].
  assert (Hpair' : ParseCASecret toyPKI rotatedCASecret
                   = Ok {| Private := "ca-key-2"; Certificate := "ca-key-2|ca-key-2|5" |})
    by (vm_compute; reflexivity).
  rewrite Hpair' in Hpair. injection Hpair as <-.
  simpl in Hkey. injection Hkey as <-. exact Hsigned.
Defined.

End certs_renewal.
